(** * calmjs: dependency flattening, JSON persistence, registries and runtime

    A shallow embedding of [calmjs.dist], [calmjs.loaderplugin] and of the
    runtime behaviour exercised by [calmjs.tests.test_runtime], together
    with the properties stated about them.

    Python values are embedded as follows.
    - A decoded JSON document is a value of [json]; a Python [dict] with
      string keys is an insertion-ordered association list with at most
      one item per key; [None] is [JNull].
    - A [float] is represented by the text of its [repr].
    - A [str] is a [string]; its characters are the code points below 256.
    - Code that logs and may raise runs in the monad [Py]: it threads the
      list of emitted log records and ends in a value or in an exception. *)

From Stdlib Require Import ZArith Lia Ascii String List Bool Permutation OrdersEx.
From stdpp Require Import base option list strings sorting pretty gmap.

Open Scope Z_scope.
Open Scope list_scope.

(** ** Python dictionaries with string keys *)

Module Dict.

Section Ops.
Context {V : Type}.

(** [d.get(k)] *)
Fixpoint get (k : string) (d : list (string * V)) : option V :=
  match d with
  | [] => None
  | (k', v) :: d' => if String.eqb k k' then Some v else get k d'
  end.

(** [d[k] = v]: an existing key keeps its position, a new key is appended. *)
Fixpoint set (k : string) (v : V) (d : list (string * V)) : list (string * V) :=
  match d with
  | [] => [(k, v)]
  | (k', v') :: d' =>
      if String.eqb k k' then (k', v) :: d' else (k', v') :: set k v d'
  end.

(** [d.update(items)] for a sequence of key/value pairs, applied in order. *)
Definition update (d items : list (string * V)) : list (string * V) :=
  fold_left (fun acc kv => set (fst kv) (snd kv) acc) items d.

Definition keys (d : list (string * V)) : list string := map fst d.

(** The invariant of every Python dictionary: no key occurs twice. *)
Definition wf (d : list (string * V)) : Prop := NoDup (keys d).
End Ops.

End Dict.

(** ** JSON values *)

#[local] Set Warnings "-register-all".

Inductive json : Type :=
| JNull
| JBool (b : bool)
| JInt (z : Z)
| JFloat (repr : string)
| JStr (s : string)
| JArr (xs : list json)
| JObj (items : list (string * json)).

(** [v is not None] *)
Definition is_not_None (v : json) : bool :=
  match v with JNull => false | _ => true end.

(** Python truth value, as used by [if not obj] and [obj or {}]. *)
Definition truthy (v : json) : bool :=
  match v with
  | JNull => false
  | JBool b => b
  | JInt z => negb (z =? 0)
  | JFloat r => negb (String.eqb r "0.0" || String.eqb r "-0.0")
  | JStr s => negb (String.eqb s "")
  | JArr xs => match xs with [] => false | _ => true end
  | JObj items => match items with [] => false | _ => true end
  end.

(** [a or b] *)
Definition py_or (a b : json) : json := if truthy a then a else b.

(** ** Exceptions, logging and the [Py] monad *)

Inductive exn : Type :=
| AttributeError
| TypeError
| ValueError
| KeyError
| ImportError
| RuntimeError
| ResolutionError
| IOError
| UnicodeDecodeError
| RecursionError.

Inductive level : Type := DEBUG | INFO | WARNING | ERROR | CRITICAL.

(** The numeric values of the [logging] levels. *)
Definition levelno (l : level) : Z :=
  match l with
  | DEBUG => 10 | INFO => 20 | WARNING => 30 | ERROR => 40 | CRITICAL => 50
  end.

Record LogRecord := { lr_level : level; lr_msg : string }.

(** How a Python computation ends.  [Unmodelled] marks the one situation the
    embedding does not represent: a dictionary that would receive a key
    that is not a string. *)
Inductive outcome (A : Type) : Type :=
| Returns (a : A)
| Raises (e : exn)
| Unmodelled.
Arguments Returns {A} a.
Arguments Raises {A} e.
Arguments Unmodelled {A}.

Definition Py (A : Type) : Type := list LogRecord -> outcome A * list LogRecord.

Definition ret {A} (a : A) : Py A := fun log => (Returns a, log).
Definition raise {A} (e : exn) : Py A := fun log => (Raises e, log).
Definition bind {A B} (m : Py A) (f : A -> Py B) : Py B :=
  fun log =>
    match m log with
    | (Returns a, log') => f a log'
    | (Raises e, log') => (Raises e, log')
    | (Unmodelled, log') => (Unmodelled, log')
    end.
Definition lift {A} (o : outcome A) : Py A := fun log => (o, log).

(** [logger.<level>(msg)] *)
Definition logmsg (l : level) (msg : string) : Py unit :=
  fun log => (Returns tt, log ++ [{| lr_level := l; lr_msg := msg |}]).

Declare Scope py_scope.
Delimit Scope py_scope with py.
Notation "x <- m ;; k" := (bind m (fun x => k))
  (at level 100, m at next level, right associativity) : py_scope.
Notation "m ;;; k" := (bind m (fun _ => k))
  (at level 100, right associativity) : py_scope.
Open Scope py_scope.

(** A [for] loop that threads an accumulator. *)
Fixpoint for_each {A B} (f : A -> B -> Py A) (l : list B) (a : A) : Py A :=
  match l with
  | [] => ret a
  | b :: l' => a' <- f a b ;; for_each f l' a'
  end.

(** Run a computation from an empty log. *)
Definition run {A} (m : Py A) : outcome A * list LogRecord := m [].

(** ** calmjs.dist *)

Module dist.

Definition DEFAULT_JSON : string := "default.json".
Definition EXTRAS_CALMJS_FIELD : string := "extras_calmjs".
Definition EXTRAS_CALMJS_JSON : string := "extras_calmjs.json".
Definition DEP_KEYS : list string := ["dependencies"; "devDependencies"].

(** *** Built-in operations used by the module *)

(** [obj.get(key, default)]: only a [dict] has the attribute. *)
Definition py_get (obj : json) (key : string) (default : json) : Py json :=
  match obj with
  | JObj items =>
      ret (match Dict.get key items with Some v => v | None => default end)
  | _ => raise AttributeError
  end.

(** [obj[key] = value] on a decoded JSON value. *)
Definition py_setitem (obj : json) (key : string) (value : json) : Py json :=
  match obj with
  | JObj items => ret (JObj (Dict.set key value items))
  | _ => raise TypeError
  end.

(** [d[key]] *)
Definition getitem {V} (d : list (string * V)) (key : string) : Py V :=
  match Dict.get key d with
  | Some v => ret v
  | None => raise KeyError
  end.

(** The key of a pair handed to [dict.update]: lists and dicts are not
    hashable; a hashable key that is not a string is not represented. *)
Definition update_key (k : json) : outcome string :=
  match k with
  | JStr s => Returns s
  | JArr _ | JObj _ => Raises TypeError
  | JNull | JBool _ | JInt _ | JFloat _ => Unmodelled
  end.

(** One element of a sequence handed to [dict.update]: it is converted to
    a sequence, which must have length two. *)
Definition update_pair (e : json) : outcome (string * json) :=
  match e with
  | JArr [k; v] =>
      match update_key k with
      | Returns s => Returns (s, v)
      | Raises x => Raises x
      | Unmodelled => Unmodelled
      end
  | JArr _ => Raises ValueError
  | JStr (String c1 (String c2 EmptyString)) =>
      Returns (String c1 EmptyString, JStr (String c2 EmptyString))
  | JStr _ => Raises ValueError
  | JObj [(k1, _); (k2, _)] => Returns (k1, JStr k2)
  | JObj _ => Raises ValueError
  | JNull | JBool _ | JInt _ | JFloat _ => Raises TypeError
  end.

Fixpoint update_pairs (es : list json) : outcome (list (string * json)) :=
  match es with
  | [] => Returns []
  | e :: es' =>
      match update_pair e with
      | Returns kv =>
          match update_pairs es' with
          | Returns kvs => Returns (kv :: kvs)
          | Raises x => Raises x
          | Unmodelled => Unmodelled
          end
      | Raises x => Raises x
      | Unmodelled => Unmodelled
      end
  end.

(** The key/value pairs that [d.update(other)] writes into [d], in order:
    a mapping gives its items, any other iterable is read as a sequence of
    pairs, a value that is not iterable is a [TypeError]. *)
Definition update_items (other : json) : outcome (list (string * json)) :=
  match other with
  | JObj items => Returns items
  | JArr es => update_pairs es
  | JStr EmptyString => Returns []
  | JStr (String _ _) => Raises ValueError
  | JNull | JBool _ | JInt _ | JFloat _ => Raises TypeError
  end.

(** [d.update(other)] *)
Definition py_update (d : list (string * json)) (other : json)
  : Py (list (string * json)) :=
  items <- lift (update_items other) ;;
  ret (Dict.update d items).

(** *** Distributions and working sets *)

(** What [dist.has_metadata(filename)] and [dist.get_metadata(filename)]
    give for one file name: no such file; a file whose reading raises
    [IOError]; or a text, given by the result of [json.loads] on it
    ([None] when [json.loads] raises [TypeError] or [ValueError]). *)
Inductive metadata : Type :=
| NoMetadata
| ReadError
| Text (decoded : option json).

Record Distribution := {
  dist_str : string;                   (* str(dist) *)
  requires : list string;              (* dist.requires() *)
  egginfo : string -> metadata;        (* the metadata files, by name *)
}.

(** A working set, as far as this module uses it: [resolve] gives the
    distributions that satisfy a list of requirements, or raises. *)
Record WorkingSet := {
  resolve : list string -> outcome (list Distribution);
}.

(** *** get_dist_egginfo_json *)

Definition get_dist_egginfo_json (dist : Distribution) (filename : string)
  : Py json :=
  match egginfo dist filename with
  | NoMetadata =>
      logmsg DEBUG
        ("no '" +:+ filename +:+ "' for '" +:+ dist_str dist +:+ "'") ;;;
      ret JNull
  | ReadError =>
      logmsg ERROR
        ("I/O error on reading of '" +:+ filename +:+ "' for '"
           +:+ dist_str dist +:+ "'.") ;;;
      ret JNull
  | Text None =>
      logmsg ERROR
        ("the '" +:+ filename +:+ "' found in '" +:+ dist_str dist
           +:+ "' is not a valid json.") ;;;
      ret JNull
  | Text (Some obj) =>
      logmsg DEBUG
        ("found '" +:+ filename +:+ "' for '" +:+ dist_str dist +:+ "'.") ;;;
      ret obj
  end.

(** *** iter_dist_requires *)

Definition iter_dist_requires (source_dist : option Distribution)
    (working_set : WorkingSet) : Py (list Distribution) :=
  let requires :=
    match source_dist with Some d => requires d | None => [] end in
  dists <- lift (resolve working_set requires) ;;
  ret (rev dists).

(** *** flatten_dist_egginfo_json *)

(** [depends = {dep: {} for dep in dep_keys}] *)
Definition init_depends (dep_keys : list string)
  : list (string * list (string * json)) :=
  fold_left (fun d dep => Dict.set dep [] d) dep_keys [].

(** [for dep in dep_keys: depends[dep].update(obj.get(dep, {}))] *)
Definition merge_obj (dep_keys : list string) (obj : json)
    (depends : list (string * list (string * json)))
  : Py (list (string * list (string * json))) :=
  for_each (fun depends dep =>
    d <- getitem depends dep ;;
    other <- py_get obj dep (JObj []) ;;
    d' <- py_update d other ;;
    ret (Dict.set dep d' depends)) dep_keys depends.

(** The body of the loop over the required distributions. *)
Definition merge_required (filename : string) (dep_keys : list string)
    (depends : list (string * list (string * json))) (dist : Distribution)
  : Py (list (string * list (string * json))) :=
  obj <- get_dist_egginfo_json dist filename ;;
  if negb (truthy obj) then ret depends
  else
    logmsg DEBUG
      ("merging '" +:+ filename +:+ "' for required '"
         +:+ dist_str dist +:+ "'") ;;;
    merge_obj dep_keys obj depends.

(** The accumulator [depends] after the required distributions and the
    target itself have been layered. *)
Definition merged_depends (source_dist : option Distribution)
    (filename : string) (dep_keys : list string) (working_set : WorkingSet)
    (root : json) : Py (list (string * list (string * json))) :=
  dists <- iter_dist_requires source_dist working_set ;;
  depends <- for_each (merge_required filename dep_keys) dists
               (init_depends dep_keys) ;;
  match source_dist with
  | Some d =>
      logmsg DEBUG
        ("merging '" +:+ filename +:+ "' for target '"
           +:+ dist_str d +:+ "'") ;;;
      merge_obj dep_keys root depends
  | None => ret depends
  end.

(** [{k: v for k, v in d.items() if v is not None}] *)
Definition drop_nulls (d : list (string * json)) : list (string * json) :=
  List.filter (fun kv => is_not_None (snd kv)) d.

(** [for dep in dep_keys: root[dep] = {... if v is not None}] *)
Definition store_depends (dep_keys : list string)
    (depends : list (string * list (string * json))) (root : json) : Py json :=
  for_each (fun root dep =>
    d <- getitem depends dep ;;
    py_setitem root dep (JObj (drop_nulls d))) dep_keys root.

Definition flatten_dist_egginfo_json (source_dist : option Distribution)
    (filename : string) (dep_keys : list string) (working_set : WorkingSet)
  : Py json :=
  root <- match source_dist with
          | Some d =>
              obj <- get_dist_egginfo_json d filename ;;
              ret (py_or obj (JObj []))
          | None => ret (JObj [])
          end ;;
  depends <- merged_depends source_dist filename dep_keys working_set root ;;
  store_depends dep_keys depends root.

(** *** Lookup of a package by its name *)

(** A working set together with its [find]: for a package name, what
    [working_set.find(Requirement.parse(pkg_name))] gives, which is the
    active distribution of that name, [None] when there is none, or an
    exception. *)
Record PackageIndex := {
  working_set : WorkingSet;
  find : string -> outcome (option Distribution);
}.

Definition get_pkg_dist (pkg_name : string) (index : PackageIndex)
  : Py (option Distribution) :=
  lift (find index pkg_name).

(** [read_egginfo_json]: [get_dist_egginfo_json] starts with
    [dist.has_metadata], an attribute that [None] does not have. *)
Definition read_egginfo_json (pkg_name filename : string)
    (index : PackageIndex) : Py json :=
  dist <- get_pkg_dist pkg_name index ;;
  match dist with
  | Some d => get_dist_egginfo_json d filename
  | None => raise AttributeError
  end.

Definition flatten_egginfo_json (pkg_name filename : string)
    (dep_keys : list string) (index : PackageIndex) : Py json :=
  dist <- get_pkg_dist pkg_name index ;;
  flatten_dist_egginfo_json dist filename dep_keys (working_set index).

End dist.

(** ** Python values *)

Module pyvalue.

(** A [str] of Python, by the code points of its characters. *)
Definition str : Type := list N.

(** The [str] of a text of 8-bit characters. *)
Definition of_string (s : string) : str :=
  map N_of_ascii (list_ascii_of_string s).

(** A key of a [dict]: a [str], an [int], a [bool], [None], a [float]
    (by its [repr]), or a hashable object of another type, such as a
    tuple. *)
Inductive key : Type :=
| KStr (s : str)
| KInt (z : Z)
| KBool (b : bool)
| KNone
| KFloat (repr : string)
| KOther.

(** A value as a package hands it to [setup()]: [PList] is a [list] or a
    [tuple], [PDict] a [dict] with its items in the order of insertion,
    and [POther] an object of a type that the [json] module does not
    write.  Values of the types [bytes] and [bytearray], which
    [json.loads] reads as text, are left out. *)
Inductive obj : Type :=
| PNone
| PBool (b : bool)
| PInt (z : Z)
| PFloat (repr : string)
| PStr (s : str)
| PList (xs : list obj)
| PDict (items : list (key * obj))
| POther.

#[global] Instance key_eq_dec : EqDecision key.
Proof. solve_decision. Defined.

End pyvalue.

(** ** json.dumps, as called by calmjs.dist *)

Module json_encoder.
Import pyvalue.

(** The encoder of Python's [json] module is not part of calmjs; it is
    embedded here from the pure-Python implementation in [json.encoder],
    which is the one that runs when an [indent] is given.  An encoding
    ends in a text or in an exception; [Unmodelled] marks what the
    embedding does not represent: an integer of more than 4300 digits,
    a value nested more deeply than the interpreter is known to allow, and
    the order of keys that are floats or objects of other types. *)

Definition dquote : ascii := "034"%char.
Definition backslash : ascii := "092"%char.
Definition newline : ascii := "010"%char.

Definition hex_digit (n : N) : ascii :=
  match String.get (N.to_nat n) "0123456789abcdef" with
  | Some c => c
  | None => "0"%char
  end.

(** ['{0:04x}'.format(n)], for [n] below 0x10000 *)
Definition hex4 (n : N) : string :=
  String (hex_digit (n / 4096 mod 16))
    (String (hex_digit (n / 256 mod 16))
       (String (hex_digit (n / 16 mod 16))
          (String (hex_digit (n mod 16)) EmptyString))).

(** [ESCAPE_DCT] and the [replace] of [py_encode_basestring_ascii], for
    one character: the characters from the space to the tilde stand for
    themselves, apart from the quote and the backslash; the others are
    escaped, those above 0xffff as a surrogate pair. *)
Definition escape (n : N) : string :=
  if (n =? 92)%N then String backslash (String backslash EmptyString)
  else if (n =? 34)%N then String backslash (String dquote EmptyString)
  else if (n =? 8)%N then "\b"
  else if (n =? 12)%N then "\f"
  else if (n =? 10)%N then "\n"
  else if (n =? 13)%N then "\r"
  else if (n =? 9)%N then "\t"
  else if ((32 <=? n) && (n <=? 126))%N
  then String (ascii_of_N n) EmptyString
  else if (n <? 65536)%N then "\u" +:+ hex4 n
  else
    let m := (n - 65536)%N in
    "\u" +:+ hex4 (N.lor 55296 (N.land (N.shiftr m 10) 1023))
      +:+ "\u" +:+ hex4 (N.lor 56320 (N.land m 1023)).

Fixpoint escape_str (s : str) : string :=
  match s with
  | [] => EmptyString
  | n :: s' => escape n +:+ escape_str s'
  end.

(** [py_encode_basestring_ascii] *)
Definition encode_basestring_ascii (s : str) : string :=
  String dquote (escape_str s +:+ String dquote EmptyString).

(** [floatstr]: the [repr] of the float, except for the three values that
    JSON has no syntax for. *)
Definition floatstr (r : string) : string :=
  if String.eqb r "nan" then "NaN"
  else if String.eqb r "inf" then "Infinity"
  else if String.eqb r "-inf" then "-Infinity"
  else r.

(** The integer has at most 4300 digits. *)
Definition small_int (z : Z) : bool :=
  (String.length (pretty (Z.abs z)) <=? 4300)%nat.

(** [int.__repr__].  For an integer of more than 4300 digits the versions
    of Python differ (since 3.11 the conversion raises [ValueError]):
    such an integer is not represented. *)
Definition intstr (z : Z) : outcome string :=
  if small_int z then Returns (pretty z) else Unmodelled.

Fixpoint spaces (n : nat) : string :=
  match n with
  | O => EmptyString
  | S n' => String " "%char (spaces n')
  end.

(** ['\n' + _indent * _current_indent_level] with [_indent = ' ' * indent] *)
Definition newline_indent (indent level : nat) : string :=
  String newline (spaces (indent * level)).

(** *** sorted(dct.items()) *)

(** The order of Python on [str]: by code points, from the left. *)
Fixpoint str_compare (a b : str) : comparison :=
  match a, b with
  | [], [] => Eq
  | [], _ :: _ => Lt
  | _ :: _, [] => Gt
  | x :: a', y :: b' =>
      match (x ?= y)%N with
      | Eq => str_compare a' b'
      | c => c
      end
  end.

Definition is_str (k : key) : bool :=
  match k with KStr _ => true | _ => false end.

(** An [int] or a [bool], which Python compares as numbers. *)
Definition is_num (k : key) : bool :=
  match k with KInt _ | KBool _ => true | _ => false end.

Definition key_value (k : key) : Z :=
  match k with
  | KInt z => z
  | KBool true => 1
  | _ => 0
  end.

(** [a <= b] for two keys that are both [str] or both numbers. *)
Definition key_leb (a b : key) : bool :=
  match a, b with
  | KStr x, KStr y =>
      match str_compare x y with Gt => false | _ => true end
  | _, _ => (key_value a <=? key_value b)%Z
  end.

Fixpoint insert_item {V} (x : key * V) (l : list (key * V))
  : list (key * V) :=
  match l with
  | [] => [x]
  | y :: l' =>
      if key_leb (fst x) (fst y) then x :: l else y :: insert_item x l'
  end.

Definition sort_items {V} (l : list (key * V)) : list (key * V) :=
  fold_right insert_item [] l.

(** [sorted(dct.items())].  The keys of a dictionary are distinct, so the
    order of the items is the order of their keys, and the values are
    never compared.  With less than two items nothing is compared.  Keys
    that are all [str], or all numbers, are put in order.  Otherwise
    some comparison is between a [str], a number and [None], which is a
    [TypeError]; unless a key is a [float] or of another type, whose
    comparisons are not represented. *)
Definition sorted_items {V} (l : list (key * V)) : outcome (list (key * V)) :=
  let keys := map fst l in
  if (length l <=? 1)%nat || forallb is_str keys || forallb is_num keys
  then Returns (sort_items l)
  else if existsb (fun k => match k with
                            | KFloat _ | KOther => true
                            | _ => false
                            end) keys
  then Unmodelled
  else Raises TypeError.

(** *** _make_iterencode *)

(** The chunks in their order, up to the first that is not produced. *)
Fixpoint collect {A} (l : list (outcome A)) : outcome (list A) :=
  match l with
  | [] => Returns []
  | Returns a :: l' =>
      match collect l' with
      | Returns r => Returns (a :: r)
      | Raises e => Raises e
      | Unmodelled => Unmodelled
      end
  | Raises e :: _ => Raises e
  | Unmodelled :: _ => Unmodelled
  end.

(** The [str] that stands for a key, in [_iterencode_dict]. *)
Definition key_str (k : key) : outcome str :=
  match k with
  | KStr s => Returns s
  | KFloat r => Returns (of_string (floatstr r))
  | KBool true => Returns (of_string "true")
  | KBool false => Returns (of_string "false")
  | KNone => Returns (of_string "null")
  | KInt z =>
      match intstr z with
      | Returns t => Returns (of_string t)
      | Raises e => Raises e
      | Unmodelled => Unmodelled
      end
  | KOther => Raises TypeError
  end.

Section Encoder.
Variables (indent : nat) (sort_keys : bool).
Variables (item_separator key_separator : string).

(** One item of a dictionary: the key, the separator, the chunks of the
    value. *)
Definition item_chunk (kc : key * outcome string) : outcome string :=
  match key_str (fst kc) with
  | Returns k =>
      match snd kc with
      | Returns c =>
          Returns (encode_basestring_ascii k +:+ key_separator +:+ c)
      | Raises e => Raises e
      | Unmodelled => Unmodelled
      end
  | Raises e => Raises e
  | Unmodelled => Unmodelled
  end.

(** [_iterencode], [_iterencode_list] and [_iterencode_dict], with the
    chunks they yield joined; the first chunk that is not produced ends
    the encoding.  [limit] is a number of nested lists and dictionaries
    that the interpreter is known to allow: Python raises
    [RecursionError] at a depth that depends on the state of the
    interpreter, and a value nested more deeply than [limit] is not
    represented.  The chunk of every value is prepared before the items
    are put in order, which gives the same as ordering the items first,
    since a chunk does not depend on the position of its item. *)
Fixpoint _iterencode (limit : nat) (o : obj) (level : nat) {struct o}
  : outcome string :=
  match o with
  | PStr s => Returns (encode_basestring_ascii s)
  | PNone => Returns "null"
  | PBool true => Returns "true"
  | PBool false => Returns "false"
  | PInt z => intstr z
  | PFloat r => Returns (floatstr r)
  | PList xs =>
      match limit with
      | O => Unmodelled
      | S limit' =>
          match xs with
          | [] => Returns "[]"
          | _ =>
              let nl := newline_indent indent (S level) in
              match collect (map (fun x => _iterencode limit' x (S level)) xs)
              with
              | Returns chunks =>
                  Returns ("[" +:+ nl
                             +:+ String.concat (item_separator +:+ nl) chunks
                             +:+ newline_indent indent level +:+ "]")
              | Raises e => Raises e
              | Unmodelled => Unmodelled
              end
          end
      end
  | PDict items =>
      match limit with
      | O => Unmodelled
      | S limit' =>
          match items with
          | [] => Returns "{}"
          | _ =>
              let nl := newline_indent indent (S level) in
              let chunks :=
                map (fun kv => (fst kv, _iterencode limit' (snd kv) (S level)))
                  items in
              match (if sort_keys then sorted_items chunks
                     else Returns chunks) with
              | Returns chunks =>
                  match collect (map item_chunk chunks) with
                  | Returns chunks =>
                      Returns ("{" +:+ nl
                                 +:+ String.concat (item_separator +:+ nl)
                                       chunks
                                 +:+ newline_indent indent level +:+ "}")
                  | Raises e => Raises e
                  | Unmodelled => Unmodelled
                  end
              | Raises e => Raises e
              | Unmodelled => Unmodelled
              end
          end
      end
  | POther => Raises TypeError
  end.
End Encoder.

(** [json.dumps(obj, indent=indent, sort_keys=sort_keys,
    separators=(item_separator, key_separator))] *)
Definition dumps (limit : nat) (obj : obj) (indent : nat) (sort_keys : bool)
    (separators : string * string) : outcome string :=
  _iterencode indent sort_keys (fst separators) (snd separators) limit obj 0.

End json_encoder.

(** ** calmjs.dist.write_json_file *)

Module dist_write.
Import pyvalue.

(** The setuptools command handed to the writer: the attributes of its
    [distribution], by name. *)
Record Command := {
  distribution : string -> option obj;
}.

(** The call [cmd.write_or_delete_file(what, filename, data, force)]. *)
Record write_or_delete_file := {
  what : string;
  filename : string;
  data : obj;
  force : bool;
}.

(** [write_json_file]; [limit] is the nesting that the interpreter is
    known to allow when [json.dumps] is called. *)
Definition write_json_file (limit : nat) (argname : string) (cmd : Command)
    (basename filename : string) : outcome write_or_delete_file :=
  let value :=
    match distribution cmd argname with Some v => v | None => PNone end in
  match
    match value with
    | PDict _ =>
        match json_encoder.dumps limit value 4 true (",", ": ") with
        | Returns text => Returns (PStr (of_string text))
        | Raises e => Raises e
        | Unmodelled => Unmodelled
        end
    | _ => Returns value
    end
  with
  | Returns value =>
      Returns {| what := argname; filename := filename; data := value;
                 force := true |}
  | Raises e => Raises e
  | Unmodelled => Unmodelled
  end.

(** [write_extras_calmjs = partial(write_json_file, EXTRAS_CALMJS_FIELD)] *)
Definition write_extras_calmjs (limit : nat) : Command -> string -> string
    -> outcome write_or_delete_file :=
  write_json_file limit dist.EXTRAS_CALMJS_FIELD.

End dist_write.

(** ** Notions used to state the properties of the writer *)

Module written.
Import pyvalue json_encoder.

(** The value can be written with its keys in order: it is nested no more
    deeply than [limit], it holds no object that [json] does not write and
    no integer of more than 4300 digits, and the keys of each of its
    dictionaries are [str] and distinct. *)
Fixpoint writable (limit : nat) (o : obj) {struct o} : bool :=
  match o with
  | PNone | PBool _ | PFloat _ | PStr _ => true
  | PInt z => small_int z
  | POther => false
  | PList xs =>
      match limit with
      | O => false
      | S limit' => forallb (writable limit') xs
      end
  | PDict items =>
      match limit with
      | O => false
      | S limit' =>
          forallb (fun kv => is_str (fst kv)) items
          && bool_decide (NoDup (map fst items))
          && forallb (fun kv => writable limit' (snd kv)) items
      end
  end.

(** The value with the items of every dictionary in the order of their
    keys. *)
Fixpoint canonical (o : obj) : obj :=
  match o with
  | PList xs => PList (map canonical xs)
  | PDict items =>
      PDict (sort_items (map (fun kv => (fst kv, canonical (snd kv))) items))
  | _ => o
  end.

(** The text of a key. *)
Definition key_text (k : key) : string :=
  match k with
  | KStr s => encode_basestring_ascii s
  | KInt z => encode_basestring_ascii (of_string (pretty z))
  | KBool true => encode_basestring_ascii (of_string "true")
  | KBool false => encode_basestring_ascii (of_string "false")
  | KNone => encode_basestring_ascii (of_string "null")
  | KFloat r => encode_basestring_ascii (of_string (floatstr r))
  | KOther => EmptyString
  end.

(** The text of a value, pretty-printed: the items of a list or of a
    dictionary stand in their order, each on a line of its own after
    [indent] spaces for every level of nesting, with a comma between two
    of them, and a colon and a space between a key and its value. *)
Fixpoint layout (indent : nat) (o : obj) (level : nat) : string :=
  match o with
  | PNone => "null"
  | PBool true => "true"
  | PBool false => "false"
  | PInt z => pretty z
  | PFloat r => floatstr r
  | PStr s => encode_basestring_ascii s
  | PList [] => "[]"
  | PList xs =>
      "[" +:+ newline_indent indent (S level)
        +:+ String.concat ("," +:+ newline_indent indent (S level))
              (map (fun x => layout indent x (S level)) xs)
        +:+ newline_indent indent level +:+ "]"
  | PDict [] => "{}"
  | PDict items =>
      "{" +:+ newline_indent indent (S level)
        +:+ String.concat ("," +:+ newline_indent indent (S level))
              (map (fun kv => key_text (fst kv) +:+ ": "
                                +:+ layout indent (snd kv) (S level)) items)
        +:+ newline_indent indent level +:+ "}"
  | POther => EmptyString
  end.









End written.

(** ** The order of the keys of a decoded dictionary *)

Module json_order.

(** The items of a dictionary with string keys, as [json.loads] gives
    them, in the order of their keys. *)
Fixpoint insert_item {V} (x : string * V) (l : list (string * V))
  : list (string * V) :=
  match l with
  | [] => [x]
  | y :: l' =>
      if String.leb (fst x) (fst y) then x :: l else y :: insert_item x l'
  end.

Definition sorted_items {V} (l : list (string * V)) : list (string * V) :=
  fold_right insert_item [] l.

End json_order.

(** ** Dictionaries up to the order of insertion *)

Fixpoint nodupb (l : list string) : bool :=
  match l with
  | [] => true
  | x :: l' => negb (existsb (String.eqb x) l') && nodupb l'
  end.

(** Every dictionary inside the value has distinct keys. *)
Fixpoint wf_json (o : json) : bool :=
  match o with
  | JArr xs => forallb wf_json xs
  | JObj items =>
      nodupb (map fst items)
      && forallb (fun kv => match kv with (_, v) => wf_json v end) items
  | _ => true
  end.

(** The two values hold the same data: equal scalars, lists equal item by
    item, and dictionaries with the same keys bound to the same data,
    whatever the order in which the keys were inserted. *)
Fixpoint same_data (a b : json) : bool :=
  match a, b with
  | JNull, JNull => true
  | JBool x, JBool y => Bool.eqb x y
  | JInt x, JInt y => (x =? y)%Z
  | JFloat x, JFloat y => String.eqb x y
  | JStr x, JStr y => String.eqb x y
  | JArr xs, JArr ys =>
      (fix go (xs ys : list json) : bool :=
         match xs, ys with
         | [], [] => true
         | x :: xs', y :: ys' => same_data x y && go xs' ys'
         | _, _ => false
         end) xs ys
  | JObj xs, JObj ys =>
      Nat.eqb (length xs) (length ys)
      && forallb (fun kv =>
                    match kv with
                    | (k, v) =>
                        match Dict.get k ys with
                        | Some v' => same_data v v'
                        | None => false
                        end
                    end) xs
  | _, _ => false
  end.

(** ** calmjs.loaderplugin *)

Module loaderplugin.

(** A class, as far as the registry looks at it. *)
Record PyClass := {
  cls_module : string;                 (* cls.__module__ *)
  cls_name : string;                   (* cls.__name__ *)
  is_handler : bool;     (* issubclass(cls, BaseLoaderPluginHandler) *)
  init_raises : string -> bool;        (* cls(registry, name) raises *)
}.

(** What [entry_point.load()] can lead to. *)
Inductive PyObject : Type :=
| IsClass (cls : PyClass)
| NotAClass.

Record EntryPoint := {
  name : string;                       (* entry_point.name *)
  ep_str : string;                     (* str(entry_point) *)
  load : outcome PyObject;             (* entry_point.load() *)
}.

(** An instance of a handler class.  [handler_id] is the identity of the
    object: every construction gives a new one. *)
Record Handler := {
  handler_id : nat;
  handler_type : PyClass;              (* type(inst) *)
  handler_name : string;               (* inst.name *)
}.

(** [BaseLoaderPluginHandler.__init__]: [self.name = name]. *)
Definition construct (id : nat) (cls : PyClass) (name : string) : Handler :=
  {| handler_id := id; handler_type := cls; handler_name := name |}.

(** The registry: the fields inherited from [BaseRegistry] that [_init]
    and [get_record] use, and the number of handlers constructed so far. *)
Record LoaderPluginRegistry := {
  registry_name : string;
  records : gmap string Handler;
  constructed : nat;
}.

(** The warning of [_init] when a name is registered again. *)
Definition override_warning (entry_point : EntryPoint) (old : PyClass)
  : string :=
  "loader plugin handler for '" +:+ name entry_point
    +:+ "' was already registered to an instance of '"
    +:+ cls_module old +:+ ":" +:+ cls_name old +:+ "'; '"
    +:+ ep_str entry_point +:+ "' will now override this registration".

(** The body of the loop of [_init]. *)
Definition _init_entry_point (self : LoaderPluginRegistry)
    (entry_point : EntryPoint) : Py LoaderPluginRegistry :=
  match load entry_point with
  | Raises ImportError =>
      logmsg WARNING
        ("registry '" +:+ registry_name self
           +:+ "' failed to load loader plugin handler for entry point '"
           +:+ ep_str entry_point +:+ "'") ;;;
      ret self
  | Raises e => raise e
  | Unmodelled => lift Unmodelled
  | Returns NotAClass => raise TypeError
  | Returns (IsClass cls) =>
      if negb (is_handler cls) then
        logmsg WARNING
          ("entry point '" +:+ ep_str entry_point
             +:+ "' does not lead to a valid loader plugin handler class") ;;;
        ret self
      else if init_raises cls (name entry_point) then
        logmsg ERROR
          ("the loader plugin class registered at '" +:+ ep_str entry_point
             +:+ "' failed to be instantiated with the following exception") ;;;
        ret self
      else
        let inst := construct (constructed self) cls (name entry_point) in
        match records self !! name entry_point with
        | Some registered =>
            let old := handler_type registered in
            logmsg WARNING (override_warning entry_point old)
        | None => ret tt
        end ;;;
        ret {| registry_name := registry_name self;
               records := <[name entry_point := inst]> (records self);
               constructed := S (constructed self) |}
  end.

(** [LoaderPluginRegistry._init] over [self.raw_entry_points]. *)
Definition _init (self : LoaderPluginRegistry)
    (raw_entry_points : list EntryPoint) : Py LoaderPluginRegistry :=
  for_each _init_entry_point raw_entry_points self.

(** [LoaderPluginRegistry.get_record] *)
Definition get_record (self : LoaderPluginRegistry) (name : string)
  : option Handler :=
  records self !! name.

(** A registry before [_init] has run. *)
Definition new_registry (registry_name : string) : LoaderPluginRegistry :=
  {| registry_name := registry_name; records := ∅; constructed := 0 |}.

(** The entry point leads to a handler class that can be instantiated
    under the name of the entry point: [_init] registers it. *)
Definition registers (entry_point : EntryPoint) : bool :=
  match load entry_point with
  | Returns (IsClass cls) =>
      is_handler cls && negb (init_raises cls (name entry_point))
  | _ => false
  end.

(** [value.split(sep, 1)]: the text before the first [sep] and the text
    after it, or the whole text when it has no [sep]. *)
Fixpoint partition (sep : ascii) (value : string) : string * option string :=
  match value with
  | EmptyString => (EmptyString, None)
  | String c value' =>
      if Ascii.eqb c sep then (EmptyString, Some value')
      else
        let (before, after) := partition sep value' in
        (String c before, after)
  end.

Definition split1 (sep : ascii) (value : string) : list string :=
  match partition sep value with
  | (before, Some after) => [before; after]
  | (before, None) => [before]
  end.

(** [BaseLoaderPluginHandler.strip_plugin], for a handler that has a
    name. *)
Definition strip_plugin (self : Handler) (value : string) : string :=
  if String.prefix (handler_name self +:+ "!") value then
    let result := split1 "!" value in
    List.last result EmptyString
  else value.

End loaderplugin.

(** ** The runtime: command registry and argument dispatch

    calmjs/runtime.py is not among the sources: this module follows the
    specification, and the tests of the runtime where they say more. *)

Module runtime.

(** *** Command registry *)

(** Modelled from the spec: an implementation of a command, the
    [CommandImpl] of the spec (calmjs/runtime.py is missing).  [impl_id]
    is the identity of the object; [impl_flags] are the flags that its own
    argument parser recognises, and [impl_required] is the number of
    positional arguments that this parser requires at least (one for the
    runtime of a package manager, which wants the name of a package, as
    test_before_and_after_extras_known_after_missing_arg shows). *)
Record CommandImpl := {
  impl_id : nat;
  impl_flags : list string;
  impl_required : nat;
}.

#[global] Instance CommandImpl_eq_dec : EqDecision CommandImpl.
Proof. solve_decision. Defined.

(** Modelled from the spec: a command descriptor, one entry of the plugin
    manifest (calmjs/runtime.py is missing): the public name, the
    distribution that declares it, the module and attribute it points to,
    and what loading it gives ([None] when the loading fails). *)
Record Descriptor := {
  name : string;
  source : string;
  module_name : string;
  attrs : string;
  loader : option CommandImpl;
}.

(** Modelled from the spec: the characters that a public name may not
    contain (calmjs/runtime.py is missing): the separators reserved for
    qualified names and, as test_root_runtime_bad_names shows, white
    space. *)
Definition reserved (c : ascii) : bool :=
  Ascii.eqb c "."%char || Ascii.eqb c ":"%char || Ascii.eqb c " "%char.

(** Modelled from the spec: the name contains a reserved character
    (calmjs/runtime.py is missing). *)
Fixpoint has_reserved (s : string) : bool :=
  match s with
  | EmptyString => false
  | String c s' => reserved c || has_reserved s'
  end.

(** Modelled from the spec: the validation of a public name
    (calmjs/runtime.py is missing). *)
Definition valid_name (s : string) : bool := negb (has_reserved s).

(** Modelled from the spec: the qualified fallback name of an entry
    (calmjs/runtime.py is missing), the module and the attribute joined by
    a reserved separator, as in test_duplication_and_runtime_errors. *)
Definition qualified (d : Descriptor) : string :=
  module_name d +:+ ":" +:+ attrs d.

(** Modelled from the spec: the diagnostics of the registry build
    (calmjs/runtime.py is missing). *)
Inductive diagnostic : Type :=
| LoadFailed (d : Descriptor)
| MalformedName (d : Descriptor)
| DuplicateIgnored (registered duplicate : Descriptor)
| Collision (kept discarded : Descriptor)
| FallbackKnown (qname : string) (d : Descriptor)
| FallbackDropped (qname : string) (d : Descriptor).

(** Modelled from the spec: the command registry table
    (calmjs/runtime.py is missing): the primary slots, by public name, with
    the entry that won each of them; and the side table of qualified
    names. *)
Record Table := {
  primary : gmap string (Descriptor * CommandImpl);
  fallback : gmap string CommandImpl;
}.

(** Modelled from the spec: the table before the build
    (calmjs/runtime.py is missing). *)
Definition empty_table : Table := {| primary := ∅; fallback := ∅ |}.

(** Modelled from the spec: the registration of an implementation under
    its qualified fallback name (calmjs/runtime.py is missing).  A qualified
    name that is already taken by another implementation is diagnosed
    and the registration is dropped. *)
Definition register_fallback (d : Descriptor) (impl : CommandImpl)
    (st : Table * list diagnostic) : Table * list diagnostic :=
  let '(tbl, diags) := st in
  match fallback tbl !! qualified d with
  | None =>
      ({| primary := primary tbl;
          fallback := <[qualified d := impl]> (fallback tbl) |}, diags)
  | Some other =>
      if Nat.eqb (impl_id other) (impl_id impl)
      then (tbl, diags ++ [FallbackKnown (qualified d) d])
      else (tbl, diags ++ [FallbackDropped (qualified d) d])
  end.

(** Modelled from the spec: the registration of one manifest entry
    (calmjs/runtime.py is missing).  The entry is loaded, then its name is
    validated; the first registration of a public name wins the primary
    slot; on a collision both the loser and the winner are registered
    under their qualified names.  As test_duplication_and_runtime_errors
    shows, an entry that leads to the implementation already registered
    under its name is ignored. *)
Definition register (st : Table * list diagnostic) (d : Descriptor)
  : Table * list diagnostic :=
  let '(tbl, diags) := st in
  match loader d with
  | None => (tbl, diags ++ [LoadFailed d])
  | Some impl =>
      if negb (valid_name (name d)) then (tbl, diags ++ [MalformedName d])
      else
        match primary tbl !! name d with
        | None =>
            ({| primary := <[name d := (d, impl)]> (primary tbl);
                fallback := fallback tbl |}, diags)
        | Some (kept, kept_impl) =>
            if Nat.eqb (impl_id kept_impl) (impl_id impl)
            then (tbl, diags ++ [DuplicateIgnored kept d])
            else
              register_fallback kept kept_impl
                (register_fallback d impl (tbl, diags ++ [Collision kept d]))
        end
  end.

(** Modelled from the spec: [build(manifest) -> (table, diagnostics)]
    (calmjs/runtime.py is missing). *)
Definition build (manifest : list Descriptor) : Table * list diagnostic :=
  fold_left register manifest (empty_table, []).

(** Modelled from the spec: the implementation that a command name
    invokes (calmjs/runtime.py is missing): the primary slot of the name,
    or else the qualified name. *)
Definition invocable (tbl : Table) (command : string) : option CommandImpl :=
  match primary tbl !! command with
  | Some (_, impl) => Some impl
  | None => fallback tbl !! command
  end.

(** *** Global flags *)

(** Modelled from the spec: the global flags (calmjs/runtime.py is
    missing). *)
Inductive global_flag : Type := Verbose | Quiet | Debug | Help | Version.

(** Modelled from the spec: the short form of a global flag
    (calmjs/runtime.py is missing). *)
Definition short_flag (c : ascii) : option global_flag :=
  if Ascii.eqb c "v"%char then Some Verbose
  else if Ascii.eqb c "q"%char then Some Quiet
  else if Ascii.eqb c "d"%char then Some Debug
  else if Ascii.eqb c "h"%char then Some Help
  else if Ascii.eqb c "V"%char then Some Version
  else None.

(** Modelled from the spec: a group of short global flags
    (calmjs/runtime.py is missing). *)
Fixpoint short_flags (s : string) : option (list global_flag) :=
  match s with
  | EmptyString => Some []
  | String c s' =>
      match short_flag c, short_flags s' with
      | Some f, Some fs => Some (f :: fs)
      | _, _ => None
      end
  end.

(** Modelled from the spec: the global flags that one token stands for
    (calmjs/runtime.py is missing): a long flag, or a group of short ones
    such as [-vvv]; [None] when the bootstrap parser does not recognise the
    token. *)
Definition global_flags (token : string) : option (list global_flag) :=
  if String.eqb token "--verbose" then Some [Verbose]
  else if String.eqb token "--quiet" then Some [Quiet]
  else if String.eqb token "--debug" then Some [Debug]
  else if String.eqb token "--help" then Some [Help]
  else if String.eqb token "--version" then Some [Version]
  else
    match token with
    | String "-" (String c s) => short_flags (String c s)
    | _ => None
    end.

(** Modelled from the spec: the two global flags are the same
    (calmjs/runtime.py is missing). *)
Definition flag_eqb (a b : global_flag) : bool :=
  match a, b with
  | Verbose, Verbose | Quiet, Quiet | Debug, Debug
  | Help, Help | Version, Version => true
  | _, _ => false
  end.

(** Modelled from the spec: how often a global flag is given by an
    argument vector, wherever it stands (calmjs/runtime.py is missing). *)
Fixpoint count_flag (f : global_flag) (argv : list string) : Z :=
  match argv with
  | [] => 0
  | token :: argv' =>
      match global_flags token with
      | Some fs => Z.of_nat (length (List.filter (flag_eqb f) fs))
      | None => 0
      end + count_flag f argv'
  end.

(** Modelled from the spec: the verbosity counter (calmjs/runtime.py is
    missing): every [-v] adds one and every [-q] takes one away. *)
Definition verbosity (argv : list string) : Z :=
  count_flag Verbose argv - count_flag Quiet argv.

(** Modelled from the spec: the debug counter (calmjs/runtime.py is
    missing). *)
Definition debug (argv : list string) : Z := count_flag Debug argv.

(** Modelled from the spec: the log threshold of a verbosity
    (calmjs/runtime.py is missing).  The spec names WARNING, INFO and DEBUG
    and says that the threshold saturates at both ends; below WARNING the
    levels of the logging module follow, as test_npm_verbose_quiet expects
    warnings to be silenced by [-qqqqq]. *)
Definition log_level (verbosity : Z) : level :=
  if verbosity <=? -2 then CRITICAL
  else if verbosity =? -1 then ERROR
  else if verbosity =? 0 then WARNING
  else if verbosity =? 1 then INFO
  else DEBUG.

(** *** Argument dispatch *)

(** Modelled from the spec: the token is a flag, not a command name or a
    value (calmjs/runtime.py is missing). *)
Definition is_flag (token : string) : bool :=
  match token with
  | String "-" (String _ _) => true
  | _ => false
  end.

(** Modelled from the spec: how a dispatch ends (calmjs/runtime.py is
    missing). *)
Inductive Result : Type :=
| Invoked (command : string) (impl : CommandImpl) (args : list string)
          (verbosity debug : Z)
| UsageError (parser_prog : string) (message : string)
| Displayed (what : global_flag)
| NoCommand.


(** Modelled from the spec: the message for unknown flags
    (calmjs/runtime.py is missing). *)
Definition unrecognized (flags : list string) : string :=
  "unrecognized arguments: " +:+ String.concat " " flags.

(** Modelled from the spec: the flags among the tokens that the bootstrap
    parser does not know (calmjs/runtime.py is missing). *)
Definition bootstrap_unknown (tokens : list string) : list string :=
  List.filter (fun t => is_flag t && negb (bool_decide (is_Some (global_flags t))))
    tokens.

(** Modelled from the spec: the flags among the tokens that neither the
    parser of the command nor the bootstrap parser knows
    (calmjs/runtime.py is missing). *)
Definition command_unknown (impl : CommandImpl) (tokens : list string)
  : list string :=
  List.filter (fun t => is_flag t
                   && negb (bool_decide (is_Some (global_flags t)))
                   && negb (existsb (String.eqb t) (impl_flags impl)))
    tokens.

(** Modelled from the spec: the tokens before the command name, which are
    the leading flags, and the rest (calmjs/runtime.py is missing). *)
Fixpoint split_command (argv : list string) : list string * list string :=
  match argv with
  | [] => ([], [])
  | token :: argv' =>
      if is_flag token
      then let '(before, rest) := split_command argv' in (token :: before, rest)
      else ([], argv)
  end.

(** Modelled from the spec: the global flag is given
    (calmjs/runtime.py is missing). *)
Definition requested (f : global_flag) (tokens : list string) : bool :=
  negb (count_flag f tokens =? 0).

(** Modelled from the spec: the positional arguments among the tokens,
    which are those that are no flags (calmjs/runtime.py is missing). *)
Definition positionals (tokens : list string) : list string :=
  List.filter (fun t => negb (is_flag t)) tokens.

(** Modelled from the spec: the error that the parser of the command
    raises on its own for the arguments after the command name, apart
    from unknown flags (calmjs/runtime.py is missing): the spec does not
    speak of it, test_before_and_after_extras_known_after_missing_arg
    does.  The parser wants its positional arguments, unless it is asked
    for the help, which it serves without them
    (test_duplication_and_runtime_errors).  The wording of the message is
    the one of Python 2, Python 3 names the arguments, and the test reads
    the part before the message only. *)
Definition command_error (impl : CommandImpl) (args : list string)
  : option string :=
  if requested Help args then None
  else if (length (positionals args) <? impl_required impl)%nat
  then Some "too few arguments"
  else None.

(** Modelled from the spec: [dispatch(argv) -> Result] (calmjs/runtime.py
    is missing).  The argument vector is first parsed as a whole: the
    command is looked up, and its own parser takes the remainder and may
    refuse it, which is an error under the program name followed by the
    command name (test_before_and_after_extras_known_after_missing_arg).
    Then the unknown flags are attributed: those before the command name,
    which the bootstrap parser does not know, under the program name;
    otherwise those after it, which the parser of the command does not
    know, under the program name followed by the command name.  The first
    of these errors ends the dispatch.  Without such an error, a request
    for the help or for the version is served, and otherwise the command
    is invoked with the remainder and the global counters. *)
Definition dispatch (prog : string) (tbl : Table) (argv : list string)
  : Result :=
  let '(before, rest) := split_command argv in
  match rest with
  | [] =>
      match bootstrap_unknown before with
      | (_ :: _) as unknown => UsageError prog (unrecognized unknown)
      | [] =>
          if requested Help before then Displayed Help
          else if requested Version before then Displayed Version
          else NoCommand
      end
  | command :: args =>
      match invocable tbl command with
      | None =>
          UsageError prog ("invalid choice: '" +:+ command +:+ "'")
      | Some impl =>
          match command_error impl args with
          | Some message => UsageError (prog +:+ " " +:+ command) message
          | None =>
              match bootstrap_unknown before with
              | (_ :: _) as unknown => UsageError prog (unrecognized unknown)
              | [] =>
                  match command_unknown impl args with
                  | (_ :: _) as unknown =>
                      UsageError (prog +:+ " " +:+ command)
                        (unrecognized unknown)
                  | [] =>
                      if requested Help argv then Displayed Help
                      else if requested Version argv then Displayed Version
                      else Invoked command impl args
                             (verbosity argv) (debug argv)
                  end
              end
          end
      end
  end.

(** *** The runtime object *)

(** Modelled from the spec: the state of a [Runtime]
    (calmjs/runtime.py is missing): the program name, the manifest it was
    made from, the identity of the argument parser it owns (once made),
    its table of commands, and the global counters left by the last
    dispatch. *)
Record Runtime := {
  prog : string;
  manifest : list Descriptor;
  argparser : option nat;
  runtimes : Table;
  rt_verbosity : Z;
  rt_debug : Z;
}.

(** Modelled from the spec: [init_argparser] (calmjs/runtime.py is
    missing).  The runtime fills the argument parser that it owns; being
    handed any other parser is an error, as in
    test_duplication_and_runtime_errors. *)
Definition init_argparser (self : Runtime) (parser : nat) : Py Runtime :=
  if bool_decide (argparser self = Some parser) then
    ret {| prog := prog self; manifest := manifest self;
           argparser := argparser self;
           runtimes := fst (build (manifest self));
           rt_verbosity := rt_verbosity self; rt_debug := rt_debug self |}
  else raise RuntimeError.

(** Modelled from the spec: the construction of a [Runtime] over a
    manifest (calmjs/runtime.py is missing): it makes its own parser and
    fills it. *)
Definition new_runtime (prog : string) (manifest : list Descriptor)
    (parser : nat) : Py Runtime :=
  init_argparser
    {| prog := prog; manifest := manifest; argparser := Some parser;
       runtimes := empty_table; rt_verbosity := 0; rt_debug := 0 |} parser.

(** Modelled from the spec: a call of the runtime on an argument vector
    (calmjs/runtime.py is missing).  As the tests do (test_npm_view,
    test_npm_verbose_quiet), a runtime may be called any number of times;
    each call sets the global counters from its own arguments. *)
Definition call (self : Runtime) (argv : list string) : Py (Result * Runtime) :=
  ret (dispatch (prog self) (runtimes self) argv,
       {| prog := prog self; manifest := manifest self;
          argparser := argparser self; runtimes := runtimes self;
          rt_verbosity := verbosity argv; rt_debug := debug argv |}).

End runtime.

(** ** The toolchain: confirmation of the export target

    calmjs/toolchain.py, calmjs/runtime.py and calmjs/ui.py are not among
    the sources: this module follows the specification, and the tests of
    the confirmation where they say more. *)

Module toolchain.

(** Modelled from the spec: the two expected ways in which a hook halts a
    run (calmjs/toolchain.py is missing). *)
Inductive halt : Type :=
| ToolchainAbort (message : string)
| ToolchainCancel.

(** Modelled from the spec: the keys of the pipeline spec that the
    confirmation reads (calmjs/toolchain.py is missing). *)
Record Spec := {
  export_target : option string;
  export_target_overwrite : bool;
}.

(** Modelled from the spec: what surrounds a run (calmjs/ui.py is
    missing): the paths that exist, whether the process is interactive,
    the lines still to be read from the standard input, what was written
    to the standard output, and the log. *)
Record World := {
  exists_ : string -> bool;
  interactive : bool;
  stdin : list string;
  stdout : list string;
  log : list LogRecord;
}.

(** Modelled from the spec: a write to the standard output
    (calmjs/ui.py is missing). *)
Definition write (text : string) (w : World) : World :=
  {| exists_ := exists_ w; interactive := interactive w; stdin := stdin w;
     stdout := stdout w ++ [text]; log := log w |}.

(** Modelled from the spec: a log record (calmjs/runtime.py is
    missing). *)
Definition emit (l : level) (msg : string) (w : World) : World :=
  {| exists_ := exists_ w; interactive := interactive w; stdin := stdin w;
     stdout := stdout w;
     log := log w ++ [{| lr_level := l; lr_msg := msg |}] |}.

(** Modelled from the spec: the standard input after a read
    (calmjs/ui.py is missing). *)
Definition with_stdin (lines : list string) (w : World) : World :=
  {| exists_ := exists_ w; interactive := interactive w; stdin := lines;
     stdout := stdout w; log := log w |}.

(** Modelled from the spec: the answer that a line of input gives to a
    yes/no question (calmjs/ui.py is missing); an empty line is the
    default answer, which is no. *)
Definition answer (line : string) : option bool :=
  if String.eqb line "y" || String.eqb line "yes" then Some true
  else if String.eqb line "n" || String.eqb line "no" || String.eqb line ""
  then Some false
  else None.

(** Modelled from the spec: the yes/no prompt of an interactive run
    (calmjs/ui.py is missing).  The question is written, a line is read;
    a line that is no answer makes it ask again, and the end of the input
    gives the default answer. *)
Fixpoint prompt (question : string) (lines : list string) (w : World)
  : bool * World :=
  match lines with
  | [] => (false, with_stdin [] (write question w))
  | line :: lines' =>
      match answer line with
      | Some b => (b, with_stdin lines' (write question w))
      | None => prompt question lines' (write question w)
      end
  end.

(** Modelled from the spec: the export-target confirmation protocol, the
    built-in [after_prepare] hook [prompt_export_target_check]
    (calmjs/runtime.py and calmjs/toolchain.py are missing). *)
Definition prompt_export_target_check (spec : Spec) (w : World)
  : (halt + Spec) * World :=
  match export_target spec with
  | None =>
      (inl (ToolchainAbort "EXPORT_TARGET should be specified by this stage"),
       w)
  | Some target =>
      if negb (exists_ w target) then (inr spec, w)
      else if export_target_overwrite spec then (inr spec, w)
      else if interactive w then
        let '(yes, w') :=
          prompt ("export target '" +:+ target
                    +:+ "' already exists, overwrite? ") (stdin w) w in
        if yes
        then (inr {| export_target := export_target spec;
                     export_target_overwrite := true |}, w')
        else (inl ToolchainCancel, w')
      else
        (inl ToolchainCancel,
         emit WARNING
           "non-interactive mode; auto-selecting default option [No]" w)
  end.

End toolchain.

(** ** The order of dictionary keys *)

(** The order of Python on strings: by code points, from the left. *)
Definition str_lt (a b : string) : Prop := String.compare a b = Lt.

(** The keys of the two items are in strictly ascending order. *)
Definition key_lt {V} (x y : string * V) : Prop := str_lt (fst x) (fst y).

(** ** Notions used to state the properties of the flattening *)

(** The computation only appends to the log, and what it gives does not
    depend on the log it starts from. *)
Definition appends {A} (m : Py A) : Prop :=
  forall log, m log = (fst (m []), log ++ snd (m [])).

Module flat.

(** What a decoded document declares for the entry [k] under the
    dependency key [dep]. *)
Definition obj_declares (obj : json) (dep k : string) : option json :=
  match obj with
  | JObj items =>
      match Dict.get dep items with
      | Some (JObj deps) => Dict.get k deps
      | _ => None
      end
  | _ => None
  end.

(** The document that [get_dist_egginfo_json] returns for a distribution. *)
Definition decoded (d : dist.Distribution) (filename : string) : json :=
  match dist.egginfo d filename with
  | dist.Text (Some obj) => obj
  | _ => JNull
  end.

(** What a distribution declares. *)
Definition declares (filename dep k : string) (d : dist.Distribution)
  : option json :=
  obj_declares (decoded d filename) dep k.

(** The declaration of the first distribution of a chain that has one. *)
Fixpoint first_declared (chain : list dist.Distribution)
    (filename dep k : string) : option json :=
  match chain with
  | [] => None
  | d :: chain' =>
      match declares filename dep k d with
      | Some v => Some v
      | None => first_declared chain' filename dep k
      end
  end.

(** The entry [k] of the accumulator of [dep]. *)
Definition view (depends : list (string * list (string * json)))
    (dep k : string) : option json :=
  match Dict.get dep depends with
  | Some merged => Dict.get k merged
  | None => None
  end.

(** Every accumulator is a dictionary: none of them has a key twice. *)
Definition values_wf (depends : list (string * list (string * json))) : Prop :=
  Forall (fun kv => Dict.wf (snd kv)) depends.

(** The document onto which the flattening writes its result. *)
Definition root_of (source_dist : option dist.Distribution)
    (filename : string) : json :=
  match source_dist with
  | Some d => py_or (decoded d filename) (JObj [])
  | None => JObj []
  end.

(** An overlay: the declaration [o], when there is one, replaces [x]. *)
Definition overlay (o x : option json) : option json :=
  match o with
  | Some v => Some v
  | None => x
  end.

(** The key is one of the dependency keys. *)
Definition mem (dep : string) (dep_keys : list string) : bool :=
  existsb (String.eqb dep) dep_keys.

(** A null entry is dropped, any other is kept. *)
Definition without_null (o : option json) : option json :=
  match o with
  | Some JNull => None
  | _ => o
  end.

(** The metadata is missing, unreadable, or not valid JSON. *)
Definition broken (d : dist.Distribution) (filename : string) : bool :=
  match dist.egginfo d filename with
  | dist.NoMetadata | dist.ReadError | dist.Text None => true
  | dist.Text (Some _) => false
  end.

(** The value of a dependency key in a document is absent or a dictionary. *)
Definition dep_ok (o : option json) : bool :=
  match o with
  | None => true
  | Some (JObj deps) => nodupb (Dict.keys deps)
  | Some _ => false
  end.

(** A document that the flattening can merge: a false value, which it
    skips, or a dictionary whose dependency keys satisfy [dep_ok]. *)
Definition manifest_ok (dep_keys : list string) (obj : json) : bool :=
  negb (truthy obj)
  || match obj with
     | JObj items => forallb (fun dep => dep_ok (Dict.get dep items)) dep_keys
     | _ => false
     end.

Definition dist_ok (filename : string) (dep_keys : list string)
    (d : dist.Distribution) : bool :=
  manifest_ok dep_keys (decoded d filename).

(** The packages of test_npm_view_dependencies. *)
Definition package_json (obj : json) (filename : string) : dist.metadata :=
  if String.eqb filename "package.json" then dist.Text (Some obj)
  else dist.NoMetadata.

Definition example_package1 : dist.Distribution :=
  {| dist.dist_str := "example.package1 1.0";
     dist.requires := [];
     dist.egginfo := package_json
       (JObj [("name", JStr "site");
              ("dependencies", JObj [("jquery", JStr "~3.1.0")])]) |}.

Definition example_package2 : dist.Distribution :=
  {| dist.dist_str := "example.package2 2.0";
     dist.requires := [];
     dist.egginfo := package_json
       (JObj [("name", JStr "site");
              ("dependencies", JObj [("underscore", JStr "~1.8.3")])]) |}.

Definition example_package3 : dist.Distribution :=
  {| dist.dist_str := "example.package3 2.0";
     dist.requires := ["example.package1"; "example.package2"];
     dist.egginfo := package_json
       (JObj [("dependencies", JObj [("backbone", JStr "~1.3.2")])]) |}.

(** A package that removes a dependency of the package it requires. *)
Definition example_package4 : dist.Distribution :=
  {| dist.dist_str := "example.package4 1.0";
     dist.requires := ["example.package1"];
     dist.egginfo := package_json
       (JObj [("dependencies",
               JObj [("jquery", JNull); ("backbone", JStr "~1.3.2")])]) |}.

(** A distribution without any metadata file. *)
Definition bare_package : dist.Distribution :=
  {| dist.dist_str := "bare 1.0";
     dist.requires := [];
     dist.egginfo := fun _ => dist.NoMetadata |}.

(** A package that requires the distribution without metadata. *)
Definition example_package5 : dist.Distribution :=
  {| dist.dist_str := "example.package5 1.0";
     dist.requires := ["bare"; "example.package1"];
     dist.egginfo := package_json
       (JObj [("dependencies", JObj [("backbone", JStr "~1.3.2")])]) |}.

(** A working set over the given distributions, by requirement name; the
    distributions are found in the order of the requirements.  In the
    examples only the target requires other distributions. *)
Fixpoint find_all (installed : list (string * dist.Distribution))
    (requirements : list string) : outcome (list dist.Distribution) :=
  match requirements with
  | [] => Returns []
  | r :: rs =>
      match Dict.get r installed, find_all installed rs with
      | Some d, Returns ds => Returns (d :: ds)
      | None, _ => Raises ResolutionError
      | _, o => o
      end
  end.

Definition example_working_set : dist.WorkingSet :=
  {| dist.resolve := find_all
       [("example.package1", example_package1);
        ("example.package2", example_package2);
        ("example.package3", example_package3);
        ("example.package4", example_package4);
        ("example.package5", example_package5);
        ("bare", bare_package)] |}.

End flat.

(** ** Notions used to state the properties of the loader plugin registry *)

Module plugins.

(** Every registered handler was constructed by this registry. *)
Definition ids_below (reg : loaderplugin.LoaderPluginRegistry) : Prop :=
  forall k h, loaderplugin.records reg !! k = Some h ->
              (loaderplugin.handler_id h < loaderplugin.constructed reg)%nat.

(** The handler [id] can only be the record of the name [n], which has
    a record. *)
Definition held_only_at (id : nat) (n : string)
    (reg : loaderplugin.LoaderPluginRegistry) : Prop :=
  (id < loaderplugin.constructed reg)%nat
  /\ is_Some (loaderplugin.records reg !! n)
  /\ forall k h, loaderplugin.records reg !! k = Some h ->
                 loaderplugin.handler_id h = id -> k = n.

(** The handler [id] is the record of no name. *)
Definition not_held (id : nat) (reg : loaderplugin.LoaderPluginRegistry)
  : Prop :=
  (id < loaderplugin.constructed reg)%nat
  /\ forall k h, loaderplugin.records reg !! k = Some h ->
                 loaderplugin.handler_id h <> id.

(** The entry point registers a handler under the name [n]. *)
Definition registers_as (n : string) (ep : loaderplugin.EntryPoint) : bool :=
  loaderplugin.registers ep && String.eqb (loaderplugin.name ep) n.

(** Two entry points for the loader plugin [text], and one for [json]. *)
Definition text_handler : loaderplugin.PyClass :=
  {| loaderplugin.cls_module := "example.text";
     loaderplugin.cls_name := "TextHandler";
     loaderplugin.is_handler := true;
     loaderplugin.init_raises := fun _ => false |}.

Definition other_text_handler : loaderplugin.PyClass :=
  {| loaderplugin.cls_module := "other.text";
     loaderplugin.cls_name := "OtherTextHandler";
     loaderplugin.is_handler := true;
     loaderplugin.init_raises := fun _ => false |}.

Definition ep_text : loaderplugin.EntryPoint :=
  {| loaderplugin.name := "text";
     loaderplugin.ep_str := "text = example.text:TextHandler";
     loaderplugin.load := Returns (loaderplugin.IsClass text_handler) |}.

Definition ep_other_text : loaderplugin.EntryPoint :=
  {| loaderplugin.name := "text";
     loaderplugin.ep_str := "text = other.text:OtherTextHandler";
     loaderplugin.load := Returns (loaderplugin.IsClass other_text_handler) |}.

Definition ep_json : loaderplugin.EntryPoint :=
  {| loaderplugin.name := "json";
     loaderplugin.ep_str := "json = example.missing:JsonHandler";
     loaderplugin.load := Raises ImportError |}.

End plugins.

(** ** Notions used to state the properties of the command registry *)

Module registry.





End registry.

(** ** Examples for the runtime *)

Module cli.

(** The runtime of a package manager, with the flags of its parser. *)
Definition npm_runtime : runtime.CommandImpl :=
  {| runtime.impl_id := 1;
     runtime.impl_flags :=
       ["--init"; "--view"; "--install"; "-i"; "--interactive"; "-m";
        "--merge"; "-w"; "--overwrite"; "-E"; "--explicit"; "--debugger"];
     runtime.impl_required := 1 |}.

(** The manifest of ArgumentHandlingTestCase: [cmd = calmjs.npm:npm.runtime]. *)
Definition cmd_entry : runtime.Descriptor :=
  {| runtime.name := "cmd";
     runtime.source := "calmjs";
     runtime.module_name := "calmjs.npm";
     runtime.attrs := "npm.runtime";
     runtime.loader := Some npm_runtime |}.





End cli.

(** ** Notions used to state further properties of the flattening *)

Module document.

(** [obj[k]], when [obj] is a dictionary that has the key. *)
Definition field (obj : json) (k : string) : option json :=
  match obj with
  | JObj items => Dict.get k items
  | _ => None
  end.

(** The keys of a dictionary, in their order. *)
Definition keys (obj : json) : list string :=
  match obj with
  | JObj items => Dict.keys items
  | _ => []
  end.

Definition is_object (obj : json) : bool :=
  match obj with
  | JObj _ => true
  | _ => false
  end.

(** A value over which Python cannot iterate. *)
Definition not_iterable (v : json) : bool :=
  match v with
  | JNull | JBool _ | JInt _ | JFloat _ => true
  | JStr _ | JArr _ | JObj _ => false
  end.

(** The metadata file is absent, or it is read and decoded. *)
Definition readable (d : dist.Distribution) (filename : string) : bool :=
  match dist.egginfo d filename with
  | dist.ReadError | dist.Text None => false
  | dist.NoMetadata | dist.Text (Some _) => true
  end.

(** A package without requirements whose metadata file holds [obj]. *)
Definition standalone (name : string) (filename : string) (obj : json)
  : dist.Distribution :=
  {| dist.dist_str := name;
     dist.requires := [];
     dist.egginfo := fun f =>
       if String.eqb f filename then dist.Text (Some obj)
       else dist.NoMetadata |}.

(** A package whose metadata is a list, and one that gives a number for
    its dependencies. *)
Definition list_package : dist.Distribution :=
  standalone "listed 1.0" "package.json" (JArr [JStr "jquery"]).

Definition number_package : dist.Distribution :=
  standalone "numbered 1.0" "package.json"
    (JObj [("name", JStr "numbered"); ("dependencies", JInt 3)]).

(** A package whose metadata is an empty dictionary. *)
Definition empty_package : dist.Distribution :=
  standalone "empty 1.0" "package.json" (JObj []).

(** A package with a requirement that is not installed. *)
Definition unresolved_package : dist.Distribution :=
  {| dist.dist_str := "unresolved 1.0";
     dist.requires := ["example.missing"];
     dist.egginfo := flat.package_json (JObj []) |}.

(** An index that knows the example packages by name. *)
Definition example_index : dist.PackageIndex :=
  {| dist.working_set := flat.example_working_set;
     dist.find := fun pkg_name =>
       Returns
         (Dict.get pkg_name
            [("example.package1", flat.example_package1);
             ("example.package2", flat.example_package2);
             ("example.package3", flat.example_package3)]) |}.

End document.

(** ** What a computation logs *)

(** Whatever the log it starts from, the computation only appends to it,
    and every record that it appends satisfies [P]. *)
Definition emits {A} (P : LogRecord -> Prop) (m : Py A) : Prop :=
  forall log, exists new, snd (m log) = log ++ new /\ Forall P new.

(** ** Further examples for the loader plugin registry *)

Module plugins_more.

(** An entry point of a distribution whose requirements are not met. *)
Definition ep_unresolved : loaderplugin.EntryPoint :=
  {| loaderplugin.name := "css";
     loaderplugin.ep_str := "css = example.css:CssHandler";
     loaderplugin.load := Raises ResolutionError |}.

End plugins_more.

(** ** json.loads, as called by calmjs.dist *)

Module json_decoder.

(** The decoder of Python's [json] module is not part of calmjs; it is
    embedded here from the pure-Python implementation in [json.decoder]
    and [json.scanner], with the default options ([strict] is true, no
    hooks).  The source walks over the text with an index; here every
    function is given the text from that index on and returns, with its
    value, the text that is left.  The text is one of characters below
    the code point 256, as the strings of [json] are.  Two things are
    given to the decoder from outside: [float_repr], the [repr] of the
    [float] that Python reads from the text of a number, which is not
    computed here, and [limit], a number of nested lists and dictionaries
    that the interpreter is known to allow. *)

(** How a decoding ends: in a value; in a [JSONDecodeError], which is a
    [ValueError]; outside of what the embedding represents (a character
    of a string above the code point 255, an escape in which the
    implementations of Python differ, an integer of more than 4300
    digits, for which the versions of Python differ, a nesting deeper than
    [limit], where Python raises [RecursionError] at a depth that depends
    on the state of the interpreter); or with the fuel of the loops used
    up, which [loads] never does. *)
Inductive decoding (A : Type) : Type :=
| Decoded (a : A)
| JSONDecodeError
| NotRepresented
| Exhausted.
Arguments Decoded {A} a.
Arguments JSONDecodeError {A}.
Arguments NotRepresented {A}.
Arguments Exhausted {A}.

(** [WHITESPACE_STR = ' \t\n\r'] *)
Definition is_ws (c : ascii) : bool :=
  let n := N_of_ascii c in
  ((n =? 32) || (n =? 9) || (n =? 10) || (n =? 13))%N.

(** [WHITESPACE.match(s, end).end()] *)
Fixpoint skip_ws (s : string) : string :=
  match s with
  | EmptyString => EmptyString
  | String c s' => if is_ws c then skip_ws s' else s
  end.

(** [BACKSLASH] *)
Definition backslash_char (esc : ascii) : option ascii :=
  let n := N_of_ascii esc in
  if (n =? 34)%N then Some json_encoder.dquote
  else if (n =? 92)%N then Some json_encoder.backslash
  else if (n =? 47)%N then Some "/"%char
  else if (n =? 98)%N then Some "008"%char
  else if (n =? 102)%N then Some "012"%char
  else if (n =? 110)%N then Some "010"%char
  else if (n =? 114)%N then Some "013"%char
  else if (n =? 116)%N then Some "009"%char
  else None.

(** The value of a hexadecimal digit. *)
Definition hex_value (c : ascii) : option N :=
  let n := N_of_ascii c in
  if ((48 <=? n) && (n <=? 57))%N then Some (n - 48)%N
  else if ((97 <=? n) && (n <=? 102))%N then Some (n - 87)%N
  else if ((65 <=? n) && (n <=? 70))%N then Some (n - 55)%N
  else None.

(** [_decode_uXXXX], for four characters that are there: an [x] in the
    second place is refused; four hexadecimal digits give their value;
    for other characters the implementations of Python differ. *)
Definition decode_uXXXX (h1 h2 h3 h4 : ascii) : decoding N :=
  if (N_of_ascii h2 =? 120)%N || (N_of_ascii h2 =? 88)%N then JSONDecodeError
  else
    match hex_value h1, hex_value h2, hex_value h3, hex_value h4 with
    | Some a, Some b, Some c, Some d =>
        Decoded (((a * 16 + b) * 16 + c) * 16 + d)%N
    | _, _, _, _ => NotRepresented
    end.

(** [_append(char)], onto what the rest of the scan gives. *)
Definition with_char (c : ascii) (r : decoding (string * string))
  : decoding (string * string) :=
  match r with
  | Decoded (str, rest) => Decoded (String c str, rest)
  | JSONDecodeError => JSONDecodeError
  | NotRepresented => NotRepresented
  | Exhausted => Exhausted
  end.

(** [py_scanstring], from the character after the opening quote: the
    string and the text after the closing quote. *)
Fixpoint scanstring (s : string) : decoding (string * string) :=
  match s with
  | EmptyString => JSONDecodeError
  | String c rest =>
      if Ascii.eqb c json_encoder.dquote then Decoded (EmptyString, rest)
      else if Ascii.eqb c json_encoder.backslash then
        match rest with
        | EmptyString => JSONDecodeError
        | String esc rest' =>
            if Ascii.eqb esc "u" then
              match rest' with
              | String h1 (String h2 (String h3 (String h4 rest''))) =>
                  match decode_uXXXX h1 h2 h3 h4 with
                  | Decoded uni =>
                      if (uni <? 256)%N
                      then with_char (ascii_of_N uni) (scanstring rest'')
                      else NotRepresented
                  | JSONDecodeError => JSONDecodeError
                  | NotRepresented => NotRepresented
                  | Exhausted => Exhausted
                  end
              | _ => JSONDecodeError
              end
            else
              match backslash_char esc with
              | Some char => with_char char (scanstring rest')
              | None => JSONDecodeError
              end
        end
      else if (N_of_ascii c <? 32)%N then JSONDecodeError
      else with_char c (scanstring rest)
  end.

(** [s.startswith(prefix)], with the text after the prefix. *)
Fixpoint after_prefix (prefix s : string) : option string :=
  match prefix, s with
  | EmptyString, _ => Some s
  | String p prefix', String c s' =>
      if Ascii.eqb p c then after_prefix prefix' s' else None
  | String _ _, EmptyString => None
  end.

Definition is_digit (c : ascii) : bool :=
  let n := N_of_ascii c in ((48 <=? n) && (n <=? 57))%N.

(** The digits at the start of the text, and the text after them. *)
Fixpoint span_digits (s : string) : string * string :=
  match s with
  | EmptyString => (EmptyString, EmptyString)
  | String c s' =>
      if is_digit c then
        let (digits, rest) := span_digits s' in (String c digits, rest)
      else (EmptyString, s)
  end.

(** [int(digits)] *)
Fixpoint int_of_digits (acc : N) (digits : string) : N :=
  match digits with
  | EmptyString => acc
  | String c digits' =>
      int_of_digits (acc * 10 + (N_of_ascii c - 48))%N digits'
  end.

(** The first group of [NUMBER_RE], an optional minus sign and then a
    zero or a digit from 1 to 9 with the digits that follow it: the sign,
    the digits, and the text after them. *)
Definition match_integer (s : string) : option (bool * string * string) :=
  let (negative, s1) :=
    match s with
    | String c s' => if Ascii.eqb c "-" then (true, s') else (false, s)
    | EmptyString => (false, s)
    end in
  match s1 with
  | String d s2 =>
      if Ascii.eqb d "0" then Some (negative, "0", s2)
      else if is_digit d then
        let (digits, rest) := span_digits s2 in
        Some (negative, String d digits, rest)
      else None
  | EmptyString => None
  end.

(** The second group, a point with the digits that follow it: the text
    after the fraction, when there is one. *)
Definition match_frac (s : string) : option string :=
  match s with
  | String c (String d s') =>
      if Ascii.eqb c "." && is_digit d then Some (snd (span_digits s'))
      else None
  | _ => None
  end.

(** The third group, an [e] or [E], an optional sign and digits: the
    text after the exponent, when there is one. *)
Definition match_exp (s : string) : option string :=
  match s with
  | String e s1 =>
      if Ascii.eqb e "e" || Ascii.eqb e "E" then
        let s2 :=
          match s1 with
          | String sign s' =>
              if Ascii.eqb sign "-" || Ascii.eqb sign "+" then s' else s1
          | EmptyString => s1
          end in
        match s2 with
        | String d s3 => if is_digit d then Some (snd (span_digits s3)) else None
        | EmptyString => None
        end
      else None
  | EmptyString => None
  end.

(** What [_scan_once] does with a number, or with one of the constants
    when the text is no number: an integer is converted, a number with a
    fraction or an exponent is a [float], read from the text of the
    three groups. *)
Definition scan_number (float_repr : string -> string) (s : string)
  : decoding (json * string) :=
  match match_integer s with
  | Some (negative, digits, rest) =>
      let rest1 := match match_frac rest with Some r => r | None => rest end in
      match match_frac rest, match_exp rest1 with
      | None, None =>
          if (4300 <? String.length digits)%nat then NotRepresented
          else
            let n := Z.of_N (int_of_digits 0 digits) in
            Decoded (JInt (if negative then (- n)%Z else n), rest)
      | _, exp =>
          let rest2 := match exp with Some r => r | None => rest1 end in
          Decoded
            (JFloat
               (float_repr
                  (String.substring 0 (String.length s - String.length rest2)
                     s)),
             rest2)
      end
  | None =>
      match after_prefix "NaN" s with
      | Some rest => Decoded (JFloat "nan", rest)
      | None =>
          match after_prefix "Infinity" s with
          | Some rest => Decoded (JFloat "inf", rest)
          | None =>
              match after_prefix "-Infinity" s with
              | Some rest => Decoded (JFloat "-inf", rest)
              | None => JSONDecodeError
              end
          end
      end
  end.

Section Scanner.
(** [scan_once], as it is handed to [JSONObject] and [JSONArray]. *)
Variable scan_once : string -> decoding (json * string).

(** The loop of [JSONArray], from the first character of a value. *)
Fixpoint array_loop (fuel : nat) (values : list json) (s : string)
  : decoding (json * string) :=
  match fuel with
  | O => Exhausted
  | S fuel' =>
      match scan_once s with
      | Decoded (value, s1) =>
          let values := values ++ [value] in
          match skip_ws s1 with
          | String nextchar s2 =>
              if Ascii.eqb nextchar "]" then Decoded (JArr values, s2)
              else if Ascii.eqb nextchar "," then
                array_loop fuel' values (skip_ws s2)
              else JSONDecodeError
          | EmptyString => JSONDecodeError
          end
      | JSONDecodeError => JSONDecodeError
      | NotRepresented => NotRepresented
      | Exhausted => Exhausted
      end
  end.

(** [JSONArray], from the character after the bracket. *)
Definition JSONArray (fuel : nat) (s : string) : decoding (json * string) :=
  match skip_ws s with
  | String nextchar s1 =>
      if Ascii.eqb nextchar "]" then Decoded (JArr [], s1)
      else array_loop fuel [] (skip_ws s)
  | EmptyString => JSONDecodeError
  end.

(** The loop of [JSONObject], from the character after the opening quote
    of a key; [dict(pairs)] at its end. *)
Fixpoint object_loop (fuel : nat) (pairs : list (string * json)) (s : string)
  : decoding (json * string) :=
  match fuel with
  | O => Exhausted
  | S fuel' =>
      match scanstring s with
      | Decoded (key, s1) =>
          match skip_ws s1 with
          | String colon s2 =>
              if Ascii.eqb colon ":" then
                match scan_once (skip_ws s2) with
                | Decoded (value, s3) =>
                    let pairs := pairs ++ [(key, value)] in
                    match skip_ws s3 with
                    | String nextchar s4 =>
                        if Ascii.eqb nextchar "}" then
                          Decoded (JObj (Dict.update [] pairs), s4)
                        else if Ascii.eqb nextchar "," then
                          match skip_ws s4 with
                          | String quote s5 =>
                              if Ascii.eqb quote json_encoder.dquote
                              then object_loop fuel' pairs s5
                              else JSONDecodeError
                          | EmptyString => JSONDecodeError
                          end
                        else JSONDecodeError
                    | EmptyString => JSONDecodeError
                    end
                | JSONDecodeError => JSONDecodeError
                | NotRepresented => NotRepresented
                | Exhausted => Exhausted
                end
              else JSONDecodeError
          | EmptyString => JSONDecodeError
          end
      | JSONDecodeError => JSONDecodeError
      | NotRepresented => NotRepresented
      | Exhausted => Exhausted
      end
  end.

(** [JSONObject], from the character after the brace. *)
Definition JSONObject (fuel : nat) (s : string) : decoding (json * string) :=
  match skip_ws s with
  | String nextchar s1 =>
      if Ascii.eqb nextchar "}" then Decoded (JObj [], s1)
      else if Ascii.eqb nextchar json_encoder.dquote
      then object_loop fuel [] s1
      else JSONDecodeError
  | EmptyString => JSONDecodeError
  end.
End Scanner.

(** [_scan_once] of [py_make_scanner]; a [StopIteration] that it raises
    becomes a [JSONDecodeError] in every caller. *)
Fixpoint scan_once (float_repr : string -> string) (fuel limit : nat)
    (s : string) {struct fuel} : decoding (json * string) :=
  match fuel with
  | O => Exhausted
  | S fuel' =>
      match s with
      | EmptyString => JSONDecodeError
      | String nextchar rest =>
          if Ascii.eqb nextchar json_encoder.dquote then
            match scanstring rest with
            | Decoded (str, rest') => Decoded (JStr str, rest')
            | JSONDecodeError => JSONDecodeError
            | NotRepresented => NotRepresented
            | Exhausted => Exhausted
            end
          else if Ascii.eqb nextchar "{" then
            match limit with
            | O => NotRepresented
            | S limit' =>
                JSONObject (scan_once float_repr fuel' limit') fuel' rest
            end
          else if Ascii.eqb nextchar "[" then
            match limit with
            | O => NotRepresented
            | S limit' =>
                JSONArray (scan_once float_repr fuel' limit') fuel' rest
            end
          else
            match after_prefix "null" s with
            | Some rest' => Decoded (JNull, rest')
            | None =>
                match after_prefix "true" s with
                | Some rest' => Decoded (JBool true, rest')
                | None =>
                    match after_prefix "false" s with
                    | Some rest' => Decoded (JBool false, rest')
                    | None => scan_number float_repr s
                    end
                end
            end
      end
  end.

(** [JSONDecoder.decode], which is [json.loads] for a [str]: white space,
    a value, white space, and the end of the text. *)
Definition loads (float_repr : string -> string) (limit : nat) (s : string)
  : decoding json :=
  match scan_once float_repr (S (String.length s)) limit (skip_ws s) with
  | Decoded (obj, rest) =>
      match skip_ws rest with
      | EmptyString => Decoded obj
      | String _ _ => JSONDecodeError
      end
  | JSONDecodeError => JSONDecodeError
  | NotRepresented => NotRepresented
  | Exhausted => Exhausted
  end.

End json_decoder.


(** ** calmjs.dist, with every way in which the reading of a metadata file
       can end *)

Module dist_full.

(** [dist.metadata] describes a metadata file by one of the ways of
    reading it that [get_dist_egginfo_json] handles.  Here the reading is
    described by what the three calls do: [dist.has_metadata(filename)]
    is false; or [dist.get_metadata(filename)] raises an exception, of
    any class ([IOError] for a file that cannot be read,
    [UnicodeDecodeError] for one that is not UTF-8); or it returns a text,
    for which [json.loads] returns a value or raises an exception, of any
    class ([ValueError] for a text that is no JSON, [RecursionError] for
    one that is nested too deeply). *)
Inductive reading : Type :=
| Absent
| ReadRaises (e : exn)
| Read (decoded : outcome json).

Record Distribution := {
  dist_str : string;                   (* str(dist) *)
  requires : list string;              (* dist.requires() *)
  egginfo : string -> reading;         (* the metadata files, by name *)
}.

Record WorkingSet := {
  resolve : list string -> outcome (list Distribution);
}.

(** [except IOError] *)
Definition is_IOError (e : exn) : bool :=
  match e with
  | IOError => true
  | _ => false
  end.

(** [except (TypeError, ValueError)]; a [UnicodeDecodeError] is a
    [ValueError]. *)
Definition is_TypeError_or_ValueError (e : exn) : bool :=
  match e with
  | TypeError | ValueError | UnicodeDecodeError => true
  | _ => false
  end.

(** *** get_dist_egginfo_json *)

Definition get_dist_egginfo_json (dist : Distribution) (filename : string)
  : Py json :=
  match egginfo dist filename with
  | Absent =>
      logmsg DEBUG
        ("no '" +:+ filename +:+ "' for '" +:+ dist_str dist +:+ "'") ;;;
      ret JNull
  | ReadRaises e =>
      if is_IOError e then
        logmsg ERROR
          ("I/O error on reading of '" +:+ filename +:+ "' for '"
             +:+ dist_str dist +:+ "'.") ;;;
        ret JNull
      else raise e
  | Read (Raises e) =>
      if is_TypeError_or_ValueError e then
        logmsg ERROR
          ("the '" +:+ filename +:+ "' found in '" +:+ dist_str dist
             +:+ "' is not a valid json.") ;;;
        ret JNull
      else raise e
  | Read Unmodelled => lift Unmodelled
  | Read (Returns obj) =>
      logmsg DEBUG
        ("found '" +:+ filename +:+ "' for '" +:+ dist_str dist +:+ "'.") ;;;
      ret obj
  end.

(** *** iter_dist_requires *)

Definition iter_dist_requires (source_dist : option Distribution)
    (working_set : WorkingSet) : Py (list Distribution) :=
  let requires :=
    match source_dist with Some d => requires d | None => [] end in
  dists <- lift (resolve working_set requires) ;;
  ret (rev dists).

(** *** flatten_dist_egginfo_json *)

(** The body of the loop over the required distributions. *)
Definition merge_required (filename : string) (dep_keys : list string)
    (depends : list (string * list (string * json))) (dist : Distribution)
  : Py (list (string * list (string * json))) :=
  obj <- get_dist_egginfo_json dist filename ;;
  if negb (truthy obj) then ret depends
  else
    logmsg DEBUG
      ("merging '" +:+ filename +:+ "' for required '"
         +:+ dist_str dist +:+ "'") ;;;
    dist.merge_obj dep_keys obj depends.

(** The accumulator [depends] after the required distributions and the
    target itself have been layered. *)
Definition merged_depends (source_dist : option Distribution)
    (filename : string) (dep_keys : list string) (working_set : WorkingSet)
    (root : json) : Py (list (string * list (string * json))) :=
  dists <- iter_dist_requires source_dist working_set ;;
  depends <- for_each (merge_required filename dep_keys) dists
               (dist.init_depends dep_keys) ;;
  match source_dist with
  | Some d =>
      logmsg DEBUG
        ("merging '" +:+ filename +:+ "' for target '"
           +:+ dist_str d +:+ "'") ;;;
      dist.merge_obj dep_keys root depends
  | None => ret depends
  end.

Definition flatten_dist_egginfo_json (source_dist : option Distribution)
    (filename : string) (dep_keys : list string) (working_set : WorkingSet)
  : Py json :=
  root <- match source_dist with
          | Some d =>
              obj <- get_dist_egginfo_json d filename ;;
              ret (py_or obj (JObj []))
          | None => ret (JObj [])
          end ;;
  depends <- merged_depends source_dist filename dep_keys working_set root ;;
  dist.store_depends dep_keys depends root.

End dist_full.

(** ** Notions used to state the properties of the reading *)

Module reading.

(** The reading ends in a way that [get_dist_egginfo_json] handles, which
    [dist.metadata] then describes. *)
Definition handled (r : dist_full.reading) : option dist.metadata :=
  match r with
  | dist_full.Absent => Some dist.NoMetadata
  | dist_full.ReadRaises e =>
      if dist_full.is_IOError e then Some dist.ReadError else None
  | dist_full.Read (Returns obj) => Some (dist.Text (Some obj))
  | dist_full.Read (Raises e) =>
      if dist_full.is_TypeError_or_ValueError e then Some (dist.Text None)
      else None
  | dist_full.Read Unmodelled => None
  end.


(** The distribution as [dist.Distribution] describes it. *)
Definition view (d : dist_full.Distribution) : dist.Distribution :=
  {| dist.dist_str := dist_full.dist_str d;
     dist.requires := dist_full.requires d;
     dist.egginfo := fun filename =>
       match handled (dist_full.egginfo d filename) with
       | Some m => m
       | None => dist.NoMetadata
       end |}.


(** The metadata file is missing, cannot be read ([IOError]), or holds a
    text that is no JSON ([TypeError] or [ValueError] of [json.loads]). *)
Definition broken (filename : string) (d : dist_full.Distribution) : bool :=
  match dist_full.egginfo d filename with
  | dist_full.Absent => true
  | dist_full.ReadRaises e => dist_full.is_IOError e
  | dist_full.Read (Raises e) => dist_full.is_TypeError_or_ValueError e
  | dist_full.Read _ => false
  end.


(** A distribution without any metadata file; one whose file cannot be
    read; one whose file is no JSON; and one whose file is not UTF-8. *)
Definition bare_package : dist_full.Distribution :=
  {| dist_full.dist_str := "bare 1.0";
     dist_full.requires := [];
     dist_full.egginfo := fun _ => dist_full.Absent |}.


Definition malformed_package : dist_full.Distribution :=
  {| dist_full.dist_str := "malformed 1.0";
     dist_full.requires := [];
     dist_full.egginfo := fun _ => dist_full.Read (Raises ValueError) |}.





End reading.

(** ** Notions used to state the properties of the two codecs *)

Module codec.
Import pyvalue.

(** The Python value of a decoded JSON value. *)
Fixpoint of_json (v : json) : obj :=
  match v with
  | JNull => PNone
  | JBool b => PBool b
  | JInt z => PInt z
  | JFloat r => PFloat r
  | JStr s => PStr (of_string s)
  | JArr xs => PList (map of_json xs)
  | JObj items =>
      PDict (map (fun kv => (KStr (of_string (fst kv)), of_json (snd kv)))
               items)
  end.

(** The value with the items of every dictionary in the order of their
    keys. *)
Fixpoint sorted (o : json) : json :=
  match o with
  | JArr xs => JArr (map sorted xs)
  | JObj items =>
      JObj (json_order.sorted_items
              (map (fun kv => match kv with (k, v) => (k, sorted v) end)
                 items))
  | _ => o
  end.

(** No number of the value is a [float]. *)
Fixpoint float_free (o : json) : bool :=
  match o with
  | JFloat _ => false
  | JArr xs => forallb float_free xs
  | JObj items =>
      forallb (fun kv => match kv with (_, v) => float_free v end) items
  | _ => true
  end.

(** The value can be written and read back: a decoded JSON value without
    a [float], nested no more deeply than [limit], without an integer of
    more than 4300 digits, and with distinct keys in each of its
    dictionaries. *)
Definition round_trips (limit : nat) (v : json) : bool :=
  float_free v && written.writable limit (of_json v).

(** The text that [json.dumps] writes for the value, with sorted keys and
    the separators of [write_json_file]. *)
Definition text (indent : nat) (v : json) (level : nat) : string :=
  written.layout indent (written.canonical (of_json v)) level.

(** A character of plain ASCII text: a line feed or a printable
    character. *)
Definition plain (c : ascii) : bool :=
  let n := N_of_ascii c in
  ((n =? 10) || ((32 <=? n) && (n <=? 126)))%N.

Definition plain_text (s : string) : bool :=
  forallb plain (list_ascii_of_string s).

(** The [repr] of every [float] of the value is plain text, as that of a
    [float] of Python is. *)
Fixpoint plain_floats (o : obj) : bool :=
  match o with
  | PFloat r => plain_text r
  | PList xs => forallb plain_floats xs
  | PDict items =>
      forallb (fun kv =>
                 match fst kv with
                 | KFloat r => plain_text r
                 | _ => true
                 end && plain_floats (snd kv)) items
  | _ => true
  end.

(** The text is at its end, or goes on with a comma or a line feed. *)
Definition delimited (rest : string) : bool :=
  match rest with
  | EmptyString => true
  | String c _ => Ascii.eqb c "," || Ascii.eqb c json_encoder.newline
  end.

(** The text that [json.dumps] writes for one item of a dictionary, with
    the separators of [write_json_file]. *)
Definition item_text (indent level : nat) (kv : string * json) : string :=
  json_encoder.encode_basestring_ascii (of_string (fst kv)) +:+ ": "
    +:+ text indent (snd kv) level.

(** The scanner [scan] reads the text of the value [x] back, whatever
    delimited text follows it. *)
Definition reads_back (scan : string -> json_decoder.decoding (json * string))
    (indent level : nat) (x : json) : Prop :=
  float_free x = true
  /\ forall t, delimited t = true ->
       scan (text indent x level +:+ t)
       = json_decoder.Decoded (sorted x, t).

(** The result of a scan of the text [s] is a verdict, and a value comes
    with less text than the scan was given. *)
Definition consumes {A} (s : string) (r : json_decoder.decoding (A * string))
  : Prop :=
  r <> json_decoder.Exhausted
  /\ forall a rest, r = json_decoder.Decoded (a, rest) ->
       (String.length rest < String.length s)%nat.

(** The metadata file of a distribution that holds the given text: what
    [json.loads] makes of it. *)
Definition reading_of_text (float_repr : string -> string) (limit : nat)
    (text : string) : dist_full.reading :=
  match json_decoder.loads float_repr limit text with
  | json_decoder.Decoded obj => dist_full.Read (Returns obj)
  | json_decoder.JSONDecodeError => dist_full.Read (Raises ValueError)
  | json_decoder.NotRepresented | json_decoder.Exhausted =>
      dist_full.Read Unmodelled
  end.

(** The value that a package gives for [package_json]. *)
Definition example_package_json : json :=
  JObj [("name", JStr "site");
        ("dependencies", JObj [("jquery", JStr "~3.1.0")])].

(** A value with a name whose characters are not ASCII, with a [float],
    and with keys that are numbers. *)
Definition accented_package_json : obj :=
  PDict [(KStr (of_string "name"), PStr [233; 116; 233; 8364; 128512]%N);
         (KStr (of_string "version"), PFloat "1.5");
         (KStr (of_string "ports"),
          PDict [(KInt 8080, PBool true); (KInt 80, PNone)])].

End codec.

(** * Properties *)

(** ** Dictionaries *)

Section DictFacts.
Context {V : Type}.
Implicit Types (d items : list (string * V)) (k : string) (v : V).

Lemma get_set k k' v d :
  Dict.get k (Dict.set k' v d)
  = if String.eqb k k' then Some v else Dict.get k d.
Proof.
  induction d as [|[k0 v0] d IH]; simpl.
  - destruct (String.eqb_spec k k'); reflexivity.
  - destruct (String.eqb_spec k' k0) as [->|Hne]; simpl.
    + destruct (String.eqb_spec k k0); reflexivity.
    + rewrite IH. destruct (String.eqb_spec k k0) as [->|]; [|reflexivity].
      destruct (String.eqb_spec k0 k'); congruence.
Qed.

Lemma get_None_keys k d : Dict.get k d = None <-> k ∉ Dict.keys d.
Proof.
  induction d as [|[k0 v0] d IH]; simpl.
  - split; [intros _; apply not_elem_of_nil | reflexivity].
  - rewrite not_elem_of_cons.
    destruct (String.eqb_spec k k0) as [->|Hne].
    + split; [discriminate | intros [H _]; congruence].
    + rewrite IH. tauto.
Qed.

Lemma get_Some_In k v d : Dict.get k d = Some v -> In (k, v) d.
Proof.
  induction d as [|[k0 v0] d IH]; simpl; [discriminate|].
  destruct (String.eqb_spec k k0) as [->|Hne].
  - intros [= ->]. now left.
  - intros H. right. now apply IH.
Qed.

Lemma In_get k v d : Dict.wf d -> In (k, v) d -> Dict.get k d = Some v.
Proof.
  unfold Dict.wf. induction d as [|[k0 v0] d IH]; simpl; [tauto|].
  intros Hnd [Heq|Hin].
  - injection Heq as -> ->. now rewrite String.eqb_refl.
  - apply NoDup_cons in Hnd as [Hk0 Hnd].
    destruct (String.eqb_spec k k0) as [->|Hne]; [|now apply IH].
    exfalso. apply Hk0. apply list_elem_of_In.
    change k0 with (fst (k0, v)). now apply in_map.
Qed.

Lemma keys_set k v d :
  Dict.keys (Dict.set k v d)
  = if existsb (String.eqb k) (Dict.keys d)
    then Dict.keys d else Dict.keys d ++ [k].
Proof.
  induction d as [|[k0 v0] d IH]; simpl; [reflexivity|].
  destruct (String.eqb_spec k k0) as [->|Hne]; simpl; [reflexivity|].
  fold (Dict.keys d). rewrite IH.
  now destruct (existsb (String.eqb k) (Dict.keys d)).
Qed.

Lemma existsb_eqb_In k (l : list string) :
  existsb (String.eqb k) l = true <-> In k l.
Proof.
  rewrite existsb_exists. split.
  - intros (x & Hin & Heq). apply String.eqb_eq in Heq. now subst.
  - intros Hin. exists k. split; [assumption | apply String.eqb_refl].
Qed.

Lemma wf_set k v d : Dict.wf d -> Dict.wf (Dict.set k v d).
Proof.
  unfold Dict.wf. intros Hnd. rewrite keys_set.
  destruct (existsb (String.eqb k) (Dict.keys d)) eqn:E; [assumption|].
  apply NoDup_app. split; [assumption|]. split.
  - intros x Hx Hk. apply list_elem_of_singleton in Hk as ->.
    apply list_elem_of_In, existsb_eqb_In in Hx. congruence.
  - apply NoDup_singleton.
Qed.

Lemma wf_update d items : Dict.wf d -> Dict.wf (Dict.update d items).
Proof.
  unfold Dict.update. revert d.
  induction items as [|[k v] items IH]; simpl; intros d Hd; [assumption|].
  apply IH. now apply wf_set.
Qed.

(** The value read after an update: the one of the update when it has
    the key, the former one otherwise. *)
Lemma get_update k d items :
  Dict.wf items ->
  Dict.get k (Dict.update d items)
  = match Dict.get k items with
    | Some v => Some v
    | None => Dict.get k d
    end.
Proof.
  unfold Dict.update, Dict.wf. revert d.
  induction items as [|[k0 v0] items IH]; simpl; intros d Hnd;
    [reflexivity|].
  apply NoDup_cons in Hnd as [Hk0 Hnd].
  rewrite IH by assumption. rewrite get_set.
  destruct (String.eqb_spec k k0) as [->|Hne]; [|reflexivity].
  apply get_None_keys in Hk0. now rewrite Hk0.
Qed.

Lemma get_filter (p : V -> bool) k d :
  Dict.wf d ->
  Dict.get k (List.filter (fun kv => p (snd kv)) d)
  = match Dict.get k d with
    | Some v => if p v then Some v else None
    | None => None
    end.
Proof.
  unfold Dict.wf.
  induction d as [|[k0 v0] d IH]; simpl; intros Hnd; [reflexivity|].
  apply NoDup_cons in Hnd as [Hk0 Hnd].
  destruct (String.eqb_spec k k0) as [->|Hne].
  - destruct (p v0) eqn:Hp; simpl.
    + now rewrite String.eqb_refl.
    + rewrite IH by assumption.
      apply get_None_keys in Hk0. now rewrite Hk0.
  - destruct (p v0); simpl; [|now apply IH].
    destruct (String.eqb_spec k k0); [congruence | now apply IH].
Qed.
End DictFacts.

Lemma nodupb_NoDup (l : list string) : nodupb l = true <-> NoDup l.
Proof.
  induction l as [|x l IH]; simpl.
  - split; [constructor | reflexivity].
  - rewrite andb_true_iff, negb_true_iff, NoDup_cons, IH.
    rewrite <- not_true_iff_false, existsb_eqb_In, list_elem_of_In.
    reflexivity.
Qed.

(** ** The [Py] monad *)

Lemma bind_Returns {A B} (m : Py A) (f : A -> Py B) log b log' :
  bind m f log = (Returns b, log') ->
  exists a log1, m log = (Returns a, log1) /\ f a log1 = (Returns b, log').
Proof.
  unfold bind. destruct (m log) as [[a| |] log1]; try discriminate.
  intros H. now exists a, log1.
Qed.

Lemma bind_step {A B} (m : Py A) (f : A -> Py B) log a log1 :
  m log = (Returns a, log1) -> bind m f log = f a log1.
Proof. unfold bind. now intros ->. Qed.

Lemma for_each_app {A B} (f : A -> B -> Py A) l1 l2 a log :
  for_each f (l1 ++ l2) a log = bind (for_each f l1 a) (for_each f l2) log.
Proof.
  revert a log. induction l1 as [|b l1 IH]; intros a log; simpl.
  - reflexivity.
  - unfold bind. destruct (f a b log) as [[a'| |] log1]; try reflexivity.
    rewrite IH. reflexivity.
Qed.

Lemma appends_ret {A} (a : A) : appends (ret a).
Proof. intros log. unfold ret; simpl. now rewrite app_nil_r. Qed.

Lemma appends_raise {A} e : appends (@raise A e).
Proof. intros log. unfold raise; simpl. now rewrite app_nil_r. Qed.

Lemma appends_lift {A} (o : outcome A) : appends (lift o).
Proof. intros log. unfold lift; simpl. now rewrite app_nil_r. Qed.

Lemma appends_logmsg l msg : appends (logmsg l msg).
Proof. intros log. reflexivity. Qed.

Lemma appends_bind {A B} (m : Py A) (f : A -> Py B) :
  appends m -> (forall a, appends (f a)) -> appends (bind m f).
Proof.
  intros Hm Hf log. unfold bind. rewrite (Hm log).
  destruct (m []) as [[a| |] s]; simpl; try reflexivity.
  rewrite (Hf a (log ++ s)), (Hf a s). simpl. now rewrite app_assoc.
Qed.

Lemma appends_for_each {A B} (f : A -> B -> Py A) l :
  (forall a b, appends (f a b)) -> forall a, appends (for_each f l a).
Proof.
  intros Hf. induction l as [|b l IH]; intros a; simpl.
  - apply appends_ret.
  - apply appends_bind; auto.
Qed.

Create HintDb appends.
#[local] Hint Resolve appends_ret appends_raise appends_lift appends_logmsg
  appends_bind appends_for_each : appends.

Lemma appends_outcome {A} (m : Py A) log : appends m -> fst (m log) = fst (m []).
Proof. intros H. now rewrite (H log). Qed.

(** ** calmjs.dist: the computations only append to the log *)

Lemma appends_get_dist_egginfo_json d filename :
  appends (dist.get_dist_egginfo_json d filename).
Proof.
  unfold dist.get_dist_egginfo_json.
  destruct (dist.egginfo d filename) as [| |[obj|]]; auto with appends.
Qed.

Lemma appends_py_get obj key default : appends (dist.py_get obj key default).
Proof. destruct obj; simpl; auto with appends. Qed.

Lemma appends_py_setitem obj key v : appends (dist.py_setitem obj key v).
Proof. destruct obj; simpl; auto with appends. Qed.

Lemma appends_getitem {V} (d : list (string * V)) key :
  appends (dist.getitem d key).
Proof. unfold dist.getitem. destruct (Dict.get key d); auto with appends. Qed.

Lemma appends_py_update d other : appends (dist.py_update d other).
Proof. unfold dist.py_update. auto with appends. Qed.

#[local] Hint Resolve appends_get_dist_egginfo_json appends_py_get
  appends_py_setitem appends_getitem appends_py_update : appends.

Lemma appends_merge_obj dep_keys obj depends :
  appends (dist.merge_obj dep_keys obj depends).
Proof.
  unfold dist.merge_obj. apply appends_for_each. intros a b.
  repeat (apply appends_bind; [auto with appends | intros ?]).
  auto with appends.
Qed.

Lemma appends_merge_required filename dep_keys depends d :
  appends (dist.merge_required filename dep_keys depends d).
Proof.
  unfold dist.merge_required.
  apply appends_bind; [auto with appends | intros obj].
  destruct (negb (truthy obj)); [auto with appends|].
  apply appends_bind; [auto with appends | intros _].
  apply appends_merge_obj.
Qed.

Lemma appends_store_depends dep_keys depends root :
  appends (dist.store_depends dep_keys depends root).
Proof.
  unfold dist.store_depends. apply appends_for_each. intros a b.
  apply appends_bind; auto with appends.
Qed.

(** ** calmjs.dist: null entries are dropped *)

Ltac py_inv H :=
  repeat match type of H with
  | bind _ _ _ = (Returns _, _) =>
      let a := fresh "a" in let l := fresh "log" in
      let H1 := fresh "Hm" in
      apply bind_Returns in H as (a & l & H1 & H)
  end.

Lemma values_wf_get dep depends m :
  flat.values_wf depends -> Dict.get dep depends = Some m -> Dict.wf m.
Proof.
  intros Hwf Hget. apply get_Some_In in Hget.
  unfold flat.values_wf in Hwf. rewrite Forall_forall in Hwf.
  apply list_elem_of_In in Hget. exact (Hwf _ Hget).
Qed.

Lemma values_wf_set dep m depends :
  flat.values_wf depends -> Dict.wf m ->
  flat.values_wf (Dict.set dep m depends).
Proof.
  unfold flat.values_wf. intros Hwf Hm.
  induction depends as [|[k0 v0] depends IH]; simpl.
  - constructor; [assumption | constructor].
  - apply Forall_cons in Hwf as [H0 Hwf].
    destruct (String.eqb k0 dep) eqn:E; destruct (String.eqb dep k0) eqn:E';
      constructor; auto.
Qed.

Lemma init_depends_wf dep_keys : flat.values_wf (dist.init_depends dep_keys).
Proof.
  unfold dist.init_depends.
  assert (H : flat.values_wf (@nil (string * list (string * json))))
    by constructor.
  revert H. generalize (@nil (string * list (string * json))).
  induction dep_keys as [|dep dep_keys IH]; simpl; intros acc Hacc.
  - assumption.
  - apply IH. apply values_wf_set; [assumption | apply NoDup_nil_2].
Qed.

Lemma getitem_Returns {V} (d : list (string * V)) key log v log' :
  dist.getitem d key log = (Returns v, log') ->
  Dict.get key d = Some v /\ log' = log.
Proof.
  unfold dist.getitem. destruct (Dict.get key d); unfold ret, raise;
    intros [= ]; subst; auto.
Qed.

Lemma py_update_Returns d other log d' log' :
  dist.py_update d other log = (Returns d', log') ->
  exists items, dist.update_items other = Returns items
                /\ d' = Dict.update d items /\ log' = log.
Proof.
  unfold dist.py_update. intros H. py_inv H.
  unfold lift in Hm. injection Hm as Hm <-.
  unfold ret in H. injection H as <- <-. eauto.
Qed.

Lemma merge_obj_wf dep_keys obj depends log depends' log' :
  dist.merge_obj dep_keys obj depends log = (Returns depends', log') ->
  flat.values_wf depends -> flat.values_wf depends'.
Proof.
  unfold dist.merge_obj. revert depends log.
  induction dep_keys as [|dep dep_keys IH]; simpl; intros depends log H Hwf.
  - unfold ret in H. now injection H as <- _.
  - apply bind_Returns in H as (depends1 & log1 & Hstep & H).
    apply (IH _ _ H). clear IH H. py_inv Hstep.
    apply getitem_Returns in Hm as [Hget ->].
    apply py_update_Returns in Hm1 as (items & _ & -> & ->).
    unfold ret in Hstep. injection Hstep as <- _.
    apply values_wf_set; [assumption|].
    apply wf_update. eapply values_wf_get; eauto.
Qed.

Lemma merge_required_wf filename dep_keys depends d log depends' log' :
  dist.merge_required filename dep_keys depends d log = (Returns depends', log') ->
  flat.values_wf depends -> flat.values_wf depends'.
Proof.
  unfold dist.merge_required. intros H Hwf.
  apply bind_Returns in H as (obj & log1 & _ & H).
  destruct (negb (truthy obj)).
  - unfold ret in H. now injection H as <- _.
  - apply bind_Returns in H as (? & log2 & _ & H).
    eapply merge_obj_wf; eauto.
Qed.

Lemma for_each_invariant {A B} (P : A -> Prop) (f : A -> B -> Py A) l :
  (forall a b log a' log', f a b log = (Returns a', log') -> P a -> P a') ->
  forall a log a' log',
    for_each f l a log = (Returns a', log') -> P a -> P a'.
Proof.
  intros Hf. induction l as [|b l IH]; simpl; intros a log a' log' H Ha.
  - unfold ret in H. now injection H as <- _.
  - apply bind_Returns in H as (a1 & log1 & Hstep & H). eauto.
Qed.

Lemma merged_depends_wf source_dist filename dep_keys ws root log depends log' :
  dist.merged_depends source_dist filename dep_keys ws root log
    = (Returns depends, log') ->
  flat.values_wf depends.
Proof.
  unfold dist.merged_depends. intros H.
  apply bind_Returns in H as (dists & log1 & _ & H).
  apply bind_Returns in H as (depends1 & log2 & Hloop & H).
  assert (Hwf1 : flat.values_wf depends1).
  { eapply (for_each_invariant flat.values_wf); [| exact Hloop |].
    - intros a b l a' l'. apply merge_required_wf.
    - apply init_depends_wf. }
  destruct source_dist as [d|].
  - apply bind_Returns in H as (? & log3 & _ & H).
    eapply merge_obj_wf; eauto.
  - unfold ret in H. now injection H as <- _.
Qed.

(** What the last loop of the flattening leaves in the result. *)
Lemma store_depends_spec dep_keys depends :
  forall root log result log',
    dist.store_depends dep_keys depends root log = (Returns result, log') ->
    forall dep, In dep dep_keys ->
      exists merged items,
        Dict.get dep depends = Some merged
        /\ result = JObj items
        /\ Dict.get dep items = Some (JObj (dist.drop_nulls merged)).
Proof.
  unfold dist.store_depends.
  induction dep_keys as [|dep0 dep_keys IH]; simpl;
    intros root log result log' H dep Hin; [contradiction|].
  apply bind_Returns in H as (root1 & log1 & Hstep & H).
  destruct (in_dec String.string_dec dep dep_keys) as [Hin'|Hnin].
  - eapply IH; eauto.
  - destruct Hin as [->|]; [|contradiction].
    apply bind_Returns in Hstep as (merged & log2 & Hget & Hset).
    apply getitem_Returns in Hget as [Hget ->].
    destruct root as [| | | | | |items]; try discriminate Hset.
    simpl in Hset. unfold ret in Hset. injection Hset as <- <-.
    exists merged. clear IH.
    assert (Hkeep : forall l root0 log0 result0 log0',
      ~ In dep l ->
      for_each (fun root dep1 =>
                  d <- dist.getitem depends dep1 ;;
                  dist.py_setitem root dep1 (JObj (dist.drop_nulls d)))
        l root0 log0 = (Returns result0, log0') ->
      forall items0, root0 = JObj items0 ->
        exists items1, result0 = JObj items1
                       /\ Dict.get dep items1 = Dict.get dep items0).
    { induction l as [|x l IHl]; simpl; intros root0 log0 result0 log0' Hn Hrun
        items0 ->.
      - unfold ret in Hrun. injection Hrun as <- _. eauto.
      - apply bind_Returns in Hrun as (r1 & l1 & Hs & Hrun).
        apply bind_Returns in Hs as (m & l2 & _ & Hs).
        simpl in Hs. unfold ret in Hs. injection Hs as <- _.
        destruct (IHl _ _ _ _ (fun h => Hn (or_intror h)) Hrun _ eq_refl)
          as (items1 & -> & Heq).
        exists items1. split; [reflexivity|]. rewrite Heq, get_set.
        destruct (String.eqb_spec dep x) as [->|]; [|reflexivity].
        exfalso. apply Hn. now left. }
    destruct (Hkeep _ _ _ _ _ Hnin H _ eq_refl) as (items1 & -> & Heq).
    exists items1. repeat split; [assumption|].
    rewrite Heq, get_set. now rewrite String.eqb_refl.
Qed.

Lemma get_drop_nulls k merged :
  Dict.wf merged ->
  Dict.get k (dist.drop_nulls merged) = flat.without_null (Dict.get k merged).
Proof.
  intros Hwf. unfold dist.drop_nulls. rewrite (get_filter is_not_None) by assumption.
  destruct (Dict.get k merged) as [[]|]; reflexivity.
Qed.

Lemma get_root source_dist filename log :
  exists log1,
    match source_dist with
    | Some d =>
        obj <- dist.get_dist_egginfo_json d filename ;;
        ret (py_or obj (JObj []))
    | None => ret (JObj [])
    end log = (Returns (flat.root_of source_dist filename), log1).
Proof.
  destruct source_dist as [d|]; simpl; [|unfold ret; eauto].
  unfold bind, dist.get_dist_egginfo_json, flat.decoded, logmsg, ret.
  destruct (dist.egginfo d filename) as [| |[obj|]]; simpl; eauto.
Qed.

(** [C2] Whatever [flatten_dist_egginfo_json] is given, when it returns,
    the mapping that its result holds under each dependency key is the
    merged accumulator of that key without the entries whose merged value
    is null: such an entry is absent, whichever level of the chain
    declared it, and every entry with another value is there with that
    value. *)
Theorem flatten_drops_null_entries :
  forall source_dist filename dep_keys working_set log result log',
    dist.flatten_dist_egginfo_json source_dist filename dep_keys working_set log
      = (Returns result, log') ->
    exists depends log1 log2,
      dist.merged_depends source_dist filename dep_keys working_set
        (flat.root_of source_dist filename) log1 = (Returns depends, log2)
      /\ forall dep, In dep dep_keys ->
           exists merged,
             Dict.get dep depends = Some merged
             /\ (forall k, Dict.get k merged = Some JNull ->
                           flat.obj_declares result dep k = None)
             /\ (forall k v, Dict.get k merged = Some v -> v <> JNull ->
                             flat.obj_declares result dep k = Some v)
             /\ (forall k, Dict.get k merged = None ->
                           flat.obj_declares result dep k = None).
Proof.
  intros source_dist filename dep_keys ws log result log' H.
  unfold dist.flatten_dist_egginfo_json in H.
  apply bind_Returns in H as (root & log1 & Hroot & H).
  destruct (get_root source_dist filename log) as (log1' & Hroot').
  rewrite Hroot' in Hroot. injection Hroot as <- <-.
  apply bind_Returns in H as (depends & log2 & Hmerged & Hstore).
  exists depends, log1', log2. split; [assumption|].
  intros dep Hin.
  destruct (store_depends_spec _ _ _ _ _ _ Hstore dep Hin)
    as (merged & items & Hget & -> & Hres).
  exists merged. split; [assumption|].
  pose proof (values_wf_get _ _ _ (merged_depends_wf _ _ _ _ _ _ _ _ Hmerged) Hget)
    as Hwf.
  unfold flat.obj_declares. rewrite Hres.
  repeat split; intros k.
  - intros Hk. now rewrite get_drop_nulls, Hk.
  - intros v Hk Hv. rewrite get_drop_nulls, Hk by assumption.
    destruct v; simpl; congruence.
  - intros Hk. now rewrite get_drop_nulls, Hk.
Qed.

(** ** calmjs.dist: the order of the overlays *)

Lemma overlay_idem o x : flat.overlay o (flat.overlay o x) = flat.overlay o x.
Proof. now destruct o. Qed.

Lemma overlay_assoc a b x :
  flat.overlay a (flat.overlay b x) = flat.overlay (flat.overlay a b) x.
Proof. now destruct a. Qed.

Lemma first_declared_app a b filename dep k :
  flat.first_declared (a ++ b) filename dep k
  = flat.overlay (flat.first_declared a filename dep k)
      (flat.first_declared b filename dep k).
Proof.
  induction a as [|d a IH]; simpl; [reflexivity|].
  destruct (flat.declares filename dep k d); [reflexivity | apply IH].
Qed.

Lemma obj_declares_falsy obj dep k :
  truthy obj = false -> flat.obj_declares obj dep k = None.
Proof. destruct obj as [| | | | | |[|]]; simpl; congruence. Qed.

Lemma view_set depends dep0 m dep k :
  flat.view (Dict.set dep0 m depends) dep k
  = if String.eqb dep dep0 then Dict.get k m else flat.view depends dep k.
Proof.
  unfold flat.view. rewrite get_set. now destruct (String.eqb dep dep0).
Qed.

Lemma init_depends_get dep_keys dep :
  Dict.get dep (dist.init_depends dep_keys)
  = if flat.mem dep dep_keys then Some [] else None.
Proof.
  unfold dist.init_depends, flat.mem.
  change (@None (list (string * json)))
    with (Dict.get dep (@nil (string * list (string * json)))).
  assert (H : forall v, Dict.get dep (@nil (string * list (string * json)))
                        = Some v -> v = []) by discriminate.
  revert H. generalize (@nil (string * list (string * json))).
  induction dep_keys as [|x dep_keys IH]; simpl; intros acc Hacc.
  - reflexivity.
  - rewrite IH.
    + rewrite get_set. destruct (String.eqb dep x) eqn:E; simpl.
      * now destruct (existsb (String.eqb dep) dep_keys).
      * reflexivity.
    + intros v. rewrite get_set. destruct (String.eqb dep x).
      * now intros [= <-].
      * apply Hacc.
Qed.

(** One dependency key of a well-formed document is merged. *)
Lemma merge_obj_ok dep_keys items :
  forallb (fun dep => flat.dep_ok (Dict.get dep items)) dep_keys = true ->
  forall depends log,
    (forall dep, In dep dep_keys -> Dict.get dep depends <> None) ->
    exists depends',
      dist.merge_obj dep_keys (JObj items) depends log = (Returns depends', log)
      /\ (forall dep, Dict.get dep depends <> None ->
                      Dict.get dep depends' <> None)
      /\ forall dep k,
           flat.view depends' dep k
           = if flat.mem dep dep_keys
             then flat.overlay (flat.obj_declares (JObj items) dep k)
                    (flat.view depends dep k)
             else flat.view depends dep k.
Proof.
  unfold dist.merge_obj.
  induction dep_keys as [|dep0 dep_keys IH]; simpl; intros Hok depends log Hdom.
  - exists depends. unfold ret. auto.
  - apply andb_true_iff in Hok as [Hok0 Hok].
    destruct (Dict.get dep0 depends) as [d|] eqn:Hd;
      [|exfalso; apply (Hdom dep0); auto].
    set (its := match Dict.get dep0 items with
                | Some (JObj deps) => deps
                | _ => []
                end).
    assert (Hits : Dict.wf its /\
                   (match Dict.get dep0 items with
                    | Some v => v
                    | None => JObj []
                    end) = JObj its).
    { subst its. unfold flat.dep_ok in Hok0.
      destruct (Dict.get dep0 items) as [[| | | | | |deps]|]; try discriminate.
      - split; [now apply nodupb_NoDup | reflexivity].
      - split; [apply NoDup_nil_2 | reflexivity]. }
    destruct Hits as [Hwf Hval].
    set (depends1 := Dict.set dep0 (Dict.update d its) depends).
    destruct (IH Hok depends1 log) as (depends' & Hrun & Hpres & Hview).
    { intros dep Hin. subst depends1. rewrite get_set.
      destruct (String.eqb dep dep0); [discriminate | auto]. }
    exists depends'. split; [|split].
    + unfold bind at 1. unfold bind at 1. unfold dist.getitem. rewrite Hd.
      unfold ret at 1. unfold bind at 1. unfold dist.py_get, ret at 1.
      rewrite Hval. unfold bind at 1. unfold dist.py_update, bind, lift, ret.
      simpl. exact Hrun.
    + intros dep Hne. apply Hpres. subst depends1. rewrite get_set.
      destruct (String.eqb dep dep0); [discriminate | assumption].
    + intros dep k. rewrite Hview. subst depends1. rewrite view_set.
      unfold flat.mem. cbn [existsb].
      destruct (String.eqb_spec dep dep0) as [->|Hne]; cbn [orb];
        [|reflexivity].
      rewrite get_update by assumption.
      assert (Hdecl : flat.obj_declares (JObj items) dep0 k = Dict.get k its).
      { subst its. unfold flat.obj_declares, flat.dep_ok in *.
        destruct (Dict.get dep0 items) as [[| | | | | |deps]|];
          try discriminate; reflexivity. }
      unfold flat.obj_declares in Hdecl |- *. rewrite !Hdecl.
      unfold flat.view. rewrite Hd.
      fold (flat.overlay (Dict.get k its) (Dict.get k d)).
      destruct (existsb (String.eqb dep0) dep_keys);
        [apply overlay_idem | reflexivity].
Qed.

Lemma manifest_ok_cases dep_keys obj :
  flat.manifest_ok dep_keys obj = true ->
  truthy obj = false
  \/ exists items,
       obj = JObj items
       /\ forallb (fun dep => flat.dep_ok (Dict.get dep items)) dep_keys = true.
Proof.
  unfold flat.manifest_ok. destruct (truthy obj); simpl; [|auto].
  destruct obj; try discriminate. eauto.
Qed.

Lemma get_dist_egginfo_json_decoded d filename log :
  exists log', dist.get_dist_egginfo_json d filename log
               = (Returns (flat.decoded d filename), log').
Proof.
  unfold dist.get_dist_egginfo_json, flat.decoded, bind, logmsg, ret.
  destruct (dist.egginfo d filename) as [| |[obj|]]; simpl; eauto.
Qed.

(** One required distribution with mergeable metadata is merged. *)
Lemma merge_required_ok filename dep_keys d :
  flat.dist_ok filename dep_keys d = true ->
  forall depends log,
    (forall dep, In dep dep_keys -> Dict.get dep depends <> None) ->
    exists depends' log',
      dist.merge_required filename dep_keys depends d log
        = (Returns depends', log')
      /\ (forall dep, Dict.get dep depends <> None ->
                      Dict.get dep depends' <> None)
      /\ forall dep k,
           flat.view depends' dep k
           = if flat.mem dep dep_keys
             then flat.overlay (flat.declares filename dep k d)
                    (flat.view depends dep k)
             else flat.view depends dep k.
Proof.
  intros Hok depends log Hdom. unfold dist.merge_required.
  destruct (get_dist_egginfo_json_decoded d filename log) as (log1 & Hget).
  rewrite (bind_step _ _ _ _ _ Hget). unfold flat.declares.
  apply manifest_ok_cases in Hok as [Hfalse|(items & Hobj & Hok)].
  - rewrite Hfalse. cbn [negb]. exists depends, log1. unfold ret.
    split; [reflexivity|]. split; [auto|]. intros dep k.
    rewrite obj_declares_falsy by assumption. simpl.
    now destruct (flat.mem dep dep_keys).
  - rewrite Hobj.
    destruct (truthy (JObj items)) eqn:Htruthy; cbn [negb].
    + unfold bind at 1, logmsg.
      destruct (merge_obj_ok dep_keys items Hok depends
                  (log1 ++ [{| lr_level := DEBUG;
                               lr_msg := "merging '" +:+ filename
                                 +:+ "' for required '" +:+ dist.dist_str d
                                 +:+ "'" |}]) Hdom)
        as (depends' & Hrun & Hpres & Hview).
      eauto.
    + exists depends, log1. unfold ret.
      split; [reflexivity|]. split; [auto|]. intros dep k.
      rewrite obj_declares_falsy by assumption. simpl.
      now destruct (flat.mem dep dep_keys).
Qed.

(** The loop over the required distributions. *)
Lemma merge_loop_ok filename dep_keys l :
  forallb (flat.dist_ok filename dep_keys) l = true ->
  forall depends log,
    (forall dep, In dep dep_keys -> Dict.get dep depends <> None) ->
    exists depends' log',
      for_each (dist.merge_required filename dep_keys) l depends log
        = (Returns depends', log')
      /\ (forall dep, Dict.get dep depends <> None ->
                      Dict.get dep depends' <> None)
      /\ forall dep k,
           flat.view depends' dep k
           = if flat.mem dep dep_keys
             then flat.overlay (flat.first_declared (rev l) filename dep k)
                    (flat.view depends dep k)
             else flat.view depends dep k.
Proof.
  induction l as [|d l IH]; simpl; intros Hok depends log Hdom.
  - exists depends, log. unfold ret. split; [reflexivity|]. split; [auto|].
    intros dep k. now destruct (flat.mem dep dep_keys).
  - apply andb_true_iff in Hok as [Hd Hl].
    destruct (merge_required_ok filename dep_keys d Hd depends log Hdom)
      as (depends1 & log1 & Hstep & Hpres1 & Hview1).
    destruct (IH Hl depends1 log1) as (depends' & log' & Hrun & Hpres & Hview).
    { intros dep Hin. apply Hpres1. auto. }
    exists depends', log'. split; [|split].
    + now rewrite (bind_step _ _ _ _ _ Hstep).
    + auto.
    + intros dep k. rewrite Hview, Hview1, first_declared_app. simpl.
      destruct (flat.mem dep dep_keys); [|reflexivity].
      rewrite overlay_assoc. f_equal.
      now destruct (flat.declares filename dep k d).
Qed.

Lemma mem_In dep dep_keys : flat.mem dep dep_keys = true <-> In dep dep_keys.
Proof. apply existsb_eqb_In. Qed.

Lemma root_of_ok filename dep_keys src :
  flat.dist_ok filename dep_keys src = true ->
  exists items,
    flat.root_of (Some src) filename = JObj items
    /\ forallb (fun dep => flat.dep_ok (Dict.get dep items)) dep_keys = true
    /\ forall dep k, flat.obj_declares (JObj items) dep k
                     = flat.declares filename dep k src.
Proof.
  intros Hok. unfold flat.root_of, py_or, flat.declares.
  apply manifest_ok_cases in Hok as [Hfalse|(items & Hobj & Hok)].
  - rewrite Hfalse. exists []. split; [reflexivity|]. split.
    + apply forallb_forall. reflexivity.
    + intros dep k.
      now rewrite (obj_declares_falsy (flat.decoded src filename)).
  - rewrite Hobj. destruct (truthy (JObj items)) eqn:E.
    + exists items. auto.
    + exists []. split; [reflexivity|]. split.
      * apply forallb_forall. reflexivity.
      * intros dep k. now rewrite (obj_declares_falsy (JObj items)).
Qed.

(** The accumulators after all the overlays, for mergeable metadata. *)
Lemma merged_depends_ok src filename dep_keys ws ds log :
  dist.resolve ws (dist.requires src) = Returns ds ->
  forallb (flat.dist_ok filename dep_keys) (src :: ds) = true ->
  exists depends log',
    dist.merged_depends (Some src) filename dep_keys ws
      (flat.root_of (Some src) filename) log = (Returns depends, log')
    /\ forall dep k, In dep dep_keys ->
         Dict.get dep depends <> None
         /\ flat.view depends dep k
            = flat.first_declared (src :: ds) filename dep k.
Proof.
  intros Hres Hok. simpl in Hok. apply andb_true_iff in Hok as [Hsrc Hds].
  unfold dist.merged_depends, dist.iter_dist_requires.
  unfold bind at 1. unfold bind at 1. unfold lift. rewrite Hres.
  unfold ret at 1.
  assert (Hrev : forallb (flat.dist_ok filename dep_keys) (rev ds) = true).
  { apply forallb_forall. intros x Hx. apply in_rev in Hx.
    revert x Hx. now apply forallb_forall. }
  destruct (merge_loop_ok filename dep_keys (rev ds) Hrev
              (dist.init_depends dep_keys) log)
    as (depends1 & log1 & Hloop & Hpres1 & Hview1).
  { intros dep Hin. rewrite init_depends_get.
    apply mem_In in Hin. now rewrite Hin. }
  rewrite (bind_step _ _ _ _ _ Hloop). rewrite rev_involutive in Hview1.
  destruct (root_of_ok filename dep_keys src Hsrc)
    as (items & Hroot & Hitems & Hdecl).
  rewrite Hroot. unfold bind at 1, logmsg.
  assert (Hdom1 : forall dep, In dep dep_keys -> Dict.get dep depends1 <> None).
  { intros dep Hin. apply Hpres1. rewrite init_depends_get.
    apply mem_In in Hin. now rewrite Hin. }
  destruct (merge_obj_ok dep_keys items Hitems depends1
              (log1 ++ [{| lr_level := DEBUG;
                           lr_msg := "merging '" +:+ filename
                             +:+ "' for target '" +:+ dist.dist_str src
                             +:+ "'" |}]) Hdom1)
    as (depends & Hrun & Hpres & Hview).
  exists depends, (log1 ++ [{| lr_level := DEBUG;
                           lr_msg := "merging '" +:+ filename
                             +:+ "' for target '" +:+ dist.dist_str src
                             +:+ "'" |}]).
  split; [exact Hrun|]. intros dep k Hin. split; [auto|].
  rewrite Hview, Hview1, Hdecl. apply mem_In in Hin. rewrite Hin. simpl.
  unfold flat.view. rewrite init_depends_get, Hin. simpl.
  destruct (flat.declares filename dep k src); [reflexivity|].
  simpl. now destruct (flat.first_declared ds filename dep k).
Qed.

Lemma store_depends_ok dep_keys depends :
  (forall dep, In dep dep_keys -> Dict.get dep depends <> None) ->
  forall items log,
    exists result,
      dist.store_depends dep_keys depends (JObj items) log
        = (Returns result, log).
Proof.
  unfold dist.store_depends.
  induction dep_keys as [|dep dep_keys IH]; simpl; intros Hdom items log.
  - unfold ret. eauto.
  - destruct (Dict.get dep depends) as [d|] eqn:Hd;
      [|exfalso; apply (Hdom dep); auto].
    unfold bind at 1. unfold bind at 1. unfold dist.getitem. rewrite Hd.
    unfold ret at 1. simpl. unfold ret at 1. apply IH. auto.
Qed.

(** The flattening of mergeable metadata. *)
Lemma flatten_ok src filename dep_keys working_set ds log :
  dist.resolve working_set (dist.requires src) = Returns ds ->
  forallb (flat.dist_ok filename dep_keys) (src :: ds) = true ->
  exists depends log1 log2 result log',
    dist.merged_depends (Some src) filename dep_keys working_set
      (flat.root_of (Some src) filename) log1 = (Returns depends, log2)
    /\ dist.flatten_dist_egginfo_json (Some src) filename dep_keys
         working_set log = (Returns result, log')
    /\ forall dep k, In dep dep_keys ->
         flat.view depends dep k
         = flat.first_declared (src :: ds) filename dep k
         /\ flat.obj_declares result dep k
            = flat.without_null
                (flat.first_declared (src :: ds) filename dep k).
Proof.
  intros Hres Hok.
  unfold dist.flatten_dist_egginfo_json.
  destruct (get_root (Some src) filename log) as (log1 & Hroot).
  destruct (merged_depends_ok src filename dep_keys working_set ds log1
              Hres Hok) as (depends & log2 & Hmerged & Hview).
  simpl in Hok. apply andb_true_iff in Hok as [Hsrc _].
  destruct (root_of_ok filename dep_keys src Hsrc) as (items & Hitems & _).
  destruct (store_depends_ok dep_keys depends
              (fun dep Hin => proj1 (Hview dep "" Hin)) items log2)
    as (result & Hstore).
  exists depends, log1, log2, result, log2.
  split; [exact Hmerged|]. split.
  - rewrite (bind_step _ _ _ _ _ Hroot).
    rewrite (bind_step _ _ _ _ _ Hmerged). now rewrite Hitems.
  - intros dep k Hin. destruct (Hview dep k Hin) as [_ Hv].
    split; [exact Hv|].
    destruct (store_depends_spec _ _ _ _ _ _ Hstore dep Hin)
      as (merged & items' & Hget & -> & Hres').
    unfold flat.obj_declares. rewrite Hres'.
    rewrite get_drop_nulls.
    + rewrite <- Hv. unfold flat.view. now rewrite Hget.
    + eapply values_wf_get; [|exact Hget].
      eapply merged_depends_wf; exact Hmerged.
Qed.

(** [C1] The overlays go from the most distant ancestor to the root.  For
    a target [src] whose requirements resolve to [ds] (the closest first),
    every document being mergeable, the flattening returns, and under
    every dependency key the merged value of an entry is the declaration
    of the first distribution of [src :: ds] that declares it: the target
    comes before every ancestor, and a closer ancestor before a farther
    one.  The result holds that value unless it is null.  For the three
    packages of test_npm_view_dependencies the flattened dependencies are
    jquery ~3.1.0, underscore ~1.8.3 and backbone ~1.3.2. *)
Theorem flatten_overlays_closer_over_farther :
  (forall src filename dep_keys working_set ds log,
     dist.resolve working_set (dist.requires src) = Returns ds ->
     forallb (flat.dist_ok filename dep_keys) (src :: ds) = true ->
     exists depends log1 log2 result log',
       dist.merged_depends (Some src) filename dep_keys working_set
         (flat.root_of (Some src) filename) log1 = (Returns depends, log2)
       /\ dist.flatten_dist_egginfo_json (Some src) filename dep_keys
            working_set log = (Returns result, log')
       /\ forall dep k, In dep dep_keys ->
            flat.view depends dep k
            = flat.first_declared (src :: ds) filename dep k
            /\ flat.obj_declares result dep k
               = flat.without_null
                   (flat.first_declared (src :: ds) filename dep k))
  /\ (exists result log,
        run (dist.flatten_dist_egginfo_json (Some flat.example_package3)
               "package.json" dist.DEP_KEYS flat.example_working_set)
        = (Returns result, log)
        /\ exists dependencies,
             Dict.get "dependencies"
               (match result with JObj items => items | _ => [] end)
             = Some dependencies
             /\ same_data dependencies
                  (JObj [("jquery", JStr "~3.1.0");
                         ("underscore", JStr "~1.8.3");
                         ("backbone", JStr "~1.3.2")]) = true
             /\ same_data
                  (JObj [("jquery", JStr "~3.1.0");
                         ("underscore", JStr "~1.8.3");
                         ("backbone", JStr "~1.3.2")]) dependencies = true).
Proof.
  split.
  - intros src filename dep_keys ws ds log. apply flatten_ok.
  - eexists. eexists. split; [vm_compute; reflexivity|].
    eexists. split; [vm_compute; reflexivity|].
    split; vm_compute; reflexivity.
Qed.

Lemma flatten_overlays_closer_over_farther_witness :
  dist.resolve flat.example_working_set (dist.requires flat.example_package3)
    = Returns [flat.example_package1; flat.example_package2]
  /\ forallb (flat.dist_ok "package.json" dist.DEP_KEYS)
       [flat.example_package3; flat.example_package1; flat.example_package2]
     = true
  /\ exists depends log1 log2 result log',
       dist.merged_depends (Some flat.example_package3) "package.json"
         dist.DEP_KEYS flat.example_working_set
         (flat.root_of (Some flat.example_package3) "package.json") log1
       = (Returns depends, log2)
       /\ dist.flatten_dist_egginfo_json (Some flat.example_package3)
            "package.json" dist.DEP_KEYS flat.example_working_set []
          = (Returns result, log')
       /\ forall dep k, In dep dist.DEP_KEYS ->
            flat.view depends dep k
            = flat.first_declared
                [flat.example_package3; flat.example_package1;
                 flat.example_package2] "package.json" dep k
            /\ flat.obj_declares result dep k
               = flat.without_null
                   (flat.first_declared
                      [flat.example_package3; flat.example_package1;
                       flat.example_package2] "package.json" dep k).
Proof.
  split; [reflexivity|]. split; [reflexivity|].
  apply (proj1 flatten_overlays_closer_over_farther);
    [reflexivity | reflexivity].
Defined.

Lemma flatten_drops_null_entries_witness :
  dist.flatten_dist_egginfo_json (Some flat.example_package4)
    "package.json" dist.DEP_KEYS flat.example_working_set []
  = (Returns
       (JObj [("dependencies", JObj [("backbone", JStr "~1.3.2")]);
              ("devDependencies", JObj [])]),
     snd (run (dist.flatten_dist_egginfo_json (Some flat.example_package4)
                 "package.json" dist.DEP_KEYS flat.example_working_set)))
  /\ exists depends log1 log2,
       dist.merged_depends (Some flat.example_package4) "package.json"
         dist.DEP_KEYS flat.example_working_set
         (flat.root_of (Some flat.example_package4) "package.json") log1
       = (Returns depends, log2)
       /\ forall dep, In dep dist.DEP_KEYS ->
            exists merged,
              Dict.get dep depends = Some merged
              /\ (forall k, Dict.get k merged = Some JNull ->
                    flat.obj_declares
                      (JObj [("dependencies",
                              JObj [("backbone", JStr "~1.3.2")]);
                             ("devDependencies", JObj [])]) dep k = None)
              /\ (forall k v, Dict.get k merged = Some v -> v <> JNull ->
                    flat.obj_declares
                      (JObj [("dependencies",
                              JObj [("backbone", JStr "~1.3.2")]);
                             ("devDependencies", JObj [])]) dep k = Some v)
              /\ (forall k, Dict.get k merged = None ->
                    flat.obj_declares
                      (JObj [("dependencies",
                              JObj [("backbone", JStr "~1.3.2")]);
                             ("devDependencies", JObj [])]) dep k = None).
Proof.
  split; [vm_compute; reflexivity|].
  apply (flatten_drops_null_entries (Some flat.example_package4)
           "package.json" dist.DEP_KEYS flat.example_working_set []
           (JObj [("dependencies", JObj [("backbone", JStr "~1.3.2")]);
                  ("devDependencies", JObj [])])
           (snd (run (dist.flatten_dist_egginfo_json
                        (Some flat.example_package4) "package.json"
                        dist.DEP_KEYS flat.example_working_set)))).
  vm_compute. reflexivity.
Defined.

(** ** calmjs.dist: missing and malformed metadata *)

Lemma fst_bind_congr {A B} (m1 m2 : Py A) (f : A -> Py B) log1 log2 :
  fst (m1 log1) = fst (m2 log2) -> (forall a, appends (f a)) ->
  fst (bind m1 f log1) = fst (bind m2 f log2).
Proof.
  unfold bind. destruct (m1 log1) as [o1 l1], (m2 log2) as [o2 l2]. simpl.
  intros -> Hf. destruct o2 as [a| |]; simpl; try reflexivity.
  now rewrite (appends_outcome _ l1 (Hf a)), (appends_outcome _ l2 (Hf a)).
Qed.

Lemma fst_bind_same {A B} (m : Py A) (f g : A -> Py B) log :
  (forall a log1, fst (f a log1) = fst (g a log1)) ->
  fst (bind m f log) = fst (bind m g log).
Proof.
  intros H. unfold bind. destruct (m log) as [[a| |] log1]; auto.
Qed.

Lemma bind_lift_ret {A B C} (l : A) (g : A -> B) (f : B -> Py C) log :
  bind (bind (lift (Returns l)) (fun x => ret (g x))) f log = f (g l) log.
Proof. reflexivity. Qed.

Lemma skip_in_loop {A B} (f : A -> B -> Py A) (b : B) l1 l2 :
  (forall a log, exists r, f a b log = (Returns a, log ++ [r])) ->
  (forall a b', appends (f a b')) ->
  forall a log,
    fst (for_each f (l1 ++ b :: l2) a log) = fst (for_each f (l1 ++ l2) a log).
Proof.
  intros Hskip Hf a log. rewrite !for_each_app. unfold bind.
  destruct (for_each f l1 a log) as [[a1| |] log1]; try reflexivity.
  simpl. destruct (Hskip a1 log1) as (r & Hr).
  rewrite (bind_step _ _ _ _ _ Hr).
  now rewrite (appends_outcome _ (log1 ++ [r]) (appends_for_each f l2 Hf a1)),
    (appends_outcome _ log1 (appends_for_each f l2 Hf a1)).
Qed.

Lemma broken_get d filename :
  flat.broken d filename = true ->
  forall log, exists r,
    dist.get_dist_egginfo_json d filename log = (Returns JNull, log ++ [r])
    /\ lr_level r = match dist.egginfo d filename with
                    | dist.NoMetadata => DEBUG
                    | _ => ERROR
                    end.
Proof.
  unfold flat.broken, dist.get_dist_egginfo_json, bind, logmsg, ret.
  destruct (dist.egginfo d filename) as [| |[obj|]]; try discriminate;
    intros _ log; eexists; split; reflexivity.
Qed.

Lemma broken_skipped d filename :
  flat.broken d filename = true ->
  forall dep_keys depends log, exists r,
    dist.merge_required filename dep_keys depends d log
    = (Returns depends, log ++ [r]).
Proof.
  intros Hb dep_keys depends log.
  destruct (broken_get d filename Hb log) as (r & Hr & _).
  exists r. unfold dist.merge_required.
  now rewrite (bind_step _ _ _ _ _ Hr).
Qed.


(** *** The reading in full *)















(** ** json.dumps: the order of the keys *)

Lemma compare_as_OT a b : String.compare a b = String_as_OT.compare a b.
Proof. reflexivity. Qed.

Lemma str_lt_trans a b c : str_lt a b -> str_lt b c -> str_lt a c.
Proof.
  unfold str_lt. rewrite !compare_as_OT.
  apply (@StrictOrder_Transitive _ _ String_as_OT.lt_strorder).
Qed.

Lemma str_lt_irrefl a : ~ str_lt a a.
Proof.
  unfold str_lt. rewrite compare_as_OT.
  apply (@StrictOrder_Irreflexive _ _ String_as_OT.lt_strorder).
Qed.

Lemma leb_false_lt a b : String.leb a b = false -> str_lt b a.
Proof.
  unfold String.leb, str_lt. rewrite (String.compare_antisym b a).
  destruct (String.compare a b); simpl; congruence.
Qed.

Lemma leb_true_lt a b : String.leb a b = true -> a <> b -> str_lt a b.
Proof.
  unfold String.leb, str_lt. intros H Hne.
  destruct (String.compare a b) eqn:E; try congruence.
  apply String.compare_eq_iff in E. contradiction.
Qed.

Section SortedItems.
Context {V : Type}.
Implicit Types (x y : string * V) (l s : list (string * V)).

Lemma insert_item_Permutation x s : json_order.insert_item x s ≡ₚ x :: s.
Proof.
  induction s as [|y s IH]; simpl; [reflexivity|].
  destruct (String.leb (fst x) (fst y)); [reflexivity|].
  rewrite IH. apply Permutation_swap.
Qed.

Lemma sorted_items_Permutation l : json_order.sorted_items l ≡ₚ l.
Proof.
  induction l as [|x l IH]; simpl; [reflexivity|].
  rewrite insert_item_Permutation. now rewrite IH.
Qed.

Lemma insert_item_sorted x s :
  StronglySorted key_lt s -> fst x ∉ Dict.keys s ->
  StronglySorted key_lt (json_order.insert_item x s).
Proof.
  induction 1 as [|y s Hs IH Hy]; simpl; intros Hx.
  - repeat constructor.
  - apply not_elem_of_cons in Hx as [Hne Hx].
    destruct (String.leb (fst x) (fst y)) eqn:E.
    + pose proof (leb_true_lt _ _ E Hne) as Hlt.
      constructor; [now constructor|]. constructor; [exact Hlt|].
      eapply Forall_impl; [exact Hy|]. intros z Hz.
      eapply str_lt_trans; eauto.
    + constructor; [auto|].
      rewrite insert_item_Permutation. constructor; [|assumption].
      now apply leb_false_lt.
Qed.

Lemma sorted_items_sorted l :
  Dict.wf l -> StronglySorted key_lt (json_order.sorted_items l).
Proof.
  unfold Dict.wf. induction l as [|x l IH]; simpl; intros Hnd.
  - constructor.
  - apply NoDup_cons in Hnd as [Hx Hnd]. apply insert_item_sorted; [auto|].
    unfold Dict.keys in *. now rewrite sorted_items_Permutation.
Qed.

(** Two dictionaries with the same items give the same sorted items,
    whatever the order of insertion. *)
Lemma sorted_items_unique l1 l2 :
  Dict.wf l1 -> l1 ≡ₚ l2 ->
  json_order.sorted_items l1 = json_order.sorted_items l2.
Proof.
  intros Hwf Hperm.
  assert (Hwf2 : Dict.wf l2).
  { unfold Dict.wf, Dict.keys in *. now rewrite <- Hperm. }
  apply (StronglySorted_unique_strong key_lt);
    [| now apply sorted_items_sorted | now apply sorted_items_sorted
     | now rewrite !sorted_items_Permutation].
  intros x1 x2 _ _ H12 H21. exfalso.
  apply (str_lt_irrefl (fst x1)). eapply str_lt_trans; eauto.
Qed.
End SortedItems.

(** Ordering the items commutes with a change of their values. *)
Lemma sorted_items_map {V W} (f : V -> W) (l : list (string * V)) :
  json_order.sorted_items (map (fun kv => (fst kv, f (snd kv))) l)
  = map (fun kv => (fst kv, f (snd kv))) (json_order.sorted_items l).
Proof.
  induction l as [|x l IH]; simpl; [reflexivity|]. rewrite IH.
  generalize (json_order.sorted_items l). intros s.
  induction s as [|y s IHs]; simpl; [reflexivity|].
  destruct (String.leb (fst x) (fst y)); simpl; [reflexivity|].
  now rewrite IHs.
Qed.

(** ** json.dumps: the text of a dictionary *)

Lemma json_ind' (P : json -> Prop) :
  P JNull -> (forall b, P (JBool b)) -> (forall z, P (JInt z)) ->
  (forall r, P (JFloat r)) -> (forall s, P (JStr s)) ->
  (forall xs, Forall P xs -> P (JArr xs)) ->
  (forall items, Forall (fun kv => P (snd kv)) items -> P (JObj items)) ->
  forall j, P j.
Proof.
  intros HNull HBool HInt HFloat HStr HArr HObj.
  fix IH 1.
  intros [| b | z | r | s | xs | items];
    [apply HNull | apply HBool | apply HInt | apply HFloat | apply HStr | |].
  - apply HArr. induction xs as [|x xs IHxs]; constructor; [apply IH | apply IHxs].
  - apply HObj. induction items as [|[k v] items IHitems]; constructor;
      [apply IH | apply IHitems].
Qed.


(** ** json.dumps: the order of [str] and of the keys *)

Section Writer.
Import pyvalue json_encoder written.










Section SortItems.
Context {V : Type}.
Implicit Types (x y : key * V) (l s : list (key * V)).






End SortItems.






(** *** The text that is written *)

Lemma writable_dict limit items :
  writable (S limit) (PDict items) = true ->
  Forall (fun kv => is_str (fst kv) = true) items
  /\ NoDup (map fst items)
  /\ Forall (fun kv => writable limit (snd kv) = true) items.
Proof.
  cbn [writable]. intros H.
  apply andb_true_iff in H as [H Hw]. apply andb_true_iff in H as [Hs Hnd].
  apply bool_decide_eq_true in Hnd.
  split; [|split]; [| exact Hnd |]; apply List.Forall_forall;
    now apply forallb_forall.
Qed.












End Writer.

(** ** calmjs.dist.write_json_file: the text that is written *)


Section WriteJsonFile.
Import pyvalue json_encoder written dist_write.



End WriteJsonFile.


(** ** calmjs.loaderplugin: the last registration of a name wins *)

Lemma for_each_app_Returns {A B} (f : A -> B -> Py A) l1 l2 a log a' log' :
  for_each f (l1 ++ l2) a log = (Returns a', log') ->
  exists a1 log1,
    for_each f l1 a log = (Returns a1, log1)
    /\ for_each f l2 a1 log1 = (Returns a', log').
Proof. rewrite for_each_app. apply bind_Returns. Qed.

Lemma for_each_snoc {A B} (f : A -> B -> Py A) l b a log a1 log1 :
  for_each f l a log = (Returns a1, log1) ->
  for_each f (l ++ [b]) a log = f a1 b log1.
Proof.
  intros H. rewrite for_each_app, (bind_step _ _ _ _ _ H). simpl.
  unfold bind. destruct (f a1 b log1) as [[a2| |] log2]; reflexivity.
Qed.

Section LoaderPlugin.
Import loaderplugin plugins.

(** What one turn of the loop of [_init] does when it returns. *)
Lemma _init_entry_point_Returns self ep log self' log' :
  _init_entry_point self ep log = (Returns self', log') ->
  (registers ep = false /\ self' = self)
  \/ (registers ep = true
      /\ exists cls,
           load ep = Returns (IsClass cls)
           /\ self' = {| registry_name := registry_name self;
                         records := <[name ep := construct (constructed self)
                                                  cls (name ep)]> (records self);
                         constructed := S (constructed self) |}
           /\ log' = log ++ match records self !! name ep with
                            | Some registered =>
                                [{| lr_level := WARNING;
                                    lr_msg := override_warning ep
                                                (handler_type registered) |}]
                            | None => []
                            end).
Proof.
  unfold _init_entry_point, registers.
  destruct (load ep) as [[cls|]|e|]; try discriminate.
  - destruct (is_handler cls); simpl.
    + destruct (init_raises cls (name ep)); simpl.
      * unfold bind, logmsg, ret. intros [= <- _]. now left.
      * intros H. right. split; [reflexivity|]. exists cls.
        split; [reflexivity|].
        destruct (records self !! name ep) as [registered|];
          unfold bind, logmsg, ret in H; injection H as <- <-;
          split; try reflexivity. now rewrite app_nil_r.
    + unfold bind, logmsg, ret. intros [= <- _]. now left.
  - destruct e; try discriminate.
    unfold bind, logmsg, ret. intros [= <- _]. now left.
Qed.

Lemma ids_below_step self ep log self' log' :
  _init_entry_point self ep log = (Returns self', log') ->
  ids_below self -> ids_below self'.
Proof.
  intros H Hinv. apply _init_entry_point_Returns in H
    as [[_ ->]|(_ & cls & _ & -> & _)]; [assumption|].
  intros k h. simpl. rewrite lookup_insert. case_decide.
  - intros [= <-]. simpl. lia.
  - intros Hk. apply Hinv in Hk. lia.
Qed.

Lemma held_only_at_step id n self ep log self' log' :
  _init_entry_point self ep log = (Returns self', log') ->
  held_only_at id n self -> held_only_at id n self'.
Proof.
  intros H (Hid & Hsome & Hinv). apply _init_entry_point_Returns in H
    as [[_ ->]|(_ & cls & _ & -> & _)]; [now split|].
  split; [simpl; lia|]. split.
  - simpl. rewrite lookup_insert. case_decide; [eauto | assumption].
  - intros k h. simpl. rewrite lookup_insert. case_decide.
    + intros [= <-]. simpl. lia.
    + intros Hk. now apply Hinv.
Qed.

Lemma not_held_step id self ep log self' log' :
  _init_entry_point self ep log = (Returns self', log') ->
  not_held id self -> not_held id self'.
Proof.
  intros H (Hid & Hinv). apply _init_entry_point_Returns in H
    as [[_ ->]|(_ & cls & _ & -> & _)]; [now split|].
  split; [simpl; lia|].
  intros k h. simpl. rewrite lookup_insert. case_decide.
  - intros [= <-]. simpl. lia.
  - intros Hk. now apply (Hinv k).
Qed.

Lemma record_kept n l :
  forallb (fun ep => negb (registers_as n ep)) l = true ->
  forall self log self' log',
    for_each _init_entry_point l self log = (Returns self', log') ->
    records self' !! n = records self !! n.
Proof.
  induction l as [|ep l IH]; simpl; intros Hl self log self' log' H.
  - unfold ret in H. now injection H as <- _.
  - apply andb_true_iff in Hl as [Hep Hl].
    apply bind_Returns in H as (self1 & log1 & Hstep & H).
    rewrite (IH Hl _ _ _ _ H).
    apply _init_entry_point_Returns in Hstep
      as [[_ ->]|(Hreg & cls & _ & -> & _)]; [reflexivity|].
    simpl. apply lookup_insert_ne. intros Heq.
    unfold registers_as in Hep. rewrite Hreg in Hep. simpl in Hep.
    apply negb_true_iff, String.eqb_neq in Hep. contradiction.
Qed.

(** [C10] Two entry points [e1] and then [e2] register a handler under
    the same name.  After [e1] the record of the name is its handler
    [h1]; after [e2] it is the handler [h2] of [e2], another object, and a
    warning that names the class of the replaced record was logged.  From
    then on [h1] is the record of no name at all: the registry keeps no
    other name for it.  When no later entry point registers the name,
    [h2] is its record at the end. *)
Theorem later_loader_plugin_overrides :
  forall registry pre e1 mid e2 post reg log,
    name e1 = name e2 ->
    registers e1 = true ->
    registers e2 = true ->
    _init (new_registry registry) (pre ++ e1 :: mid ++ e2 :: post) []
      = (Returns reg, log) ->
    exists r1 log1 r2 log2 h1 h2 old,
      _init (new_registry registry) (pre ++ [e1]) [] = (Returns r1, log1)
      /\ get_record r1 (name e1) = Some h1
      /\ load e1 = Returns (IsClass (handler_type h1))
      /\ _init (new_registry registry) (pre ++ e1 :: mid ++ [e2]) []
         = (Returns r2, log2)
      /\ get_record r2 (name e1) = Some h2
      /\ load e2 = Returns (IsClass (handler_type h2))
      /\ handler_id h1 <> handler_id h2
      /\ In {| lr_level := WARNING; lr_msg := override_warning e2 old |} log2
      /\ (forall k, get_record r2 k <> Some h1)
      /\ (forall k, get_record reg k <> Some h1)
      /\ (forallb (fun ep => negb (registers_as (name e1) ep)) post = true ->
          get_record reg (name e1) = Some h2).
Proof.
  intros registry pre e1 mid e2 post reg log Hname Hreg1 Hreg2 Hrun.
  unfold _init in *.
  apply for_each_app_Returns in Hrun as (r0 & log0 & Hpre & Hrun).
  simpl in Hrun. apply bind_Returns in Hrun as (r1 & log1 & Hstep1 & Hrun).
  apply for_each_app_Returns in Hrun as (rm & logm & Hmid & Hrun).
  simpl in Hrun. apply bind_Returns in Hrun as (r2 & log2 & Hstep2 & Hpost).
  assert (Hinv0 : ids_below r0).
  { eapply (for_each_invariant ids_below); [| exact Hpre |].
    - intros a b l a' l'. apply ids_below_step.
    - intros k h. simpl. now rewrite lookup_empty. }
  pose proof Hstep1 as Hs1. apply _init_entry_point_Returns in Hs1
    as [[Hno _]|(_ & cls1 & Hload1 & Hr1 & _)]; [congruence|].
  remember (construct (constructed r0) cls1 (name e1)) as h1 eqn:Hh1.
  assert (Hid1 : handler_id h1 = constructed r0) by now subst h1.
  assert (Htype1 : handler_type h1 = cls1) by now subst h1.
  clear Hh1.
  assert (Hheld1 : held_only_at (handler_id h1) (name e1) r1).
  { subst r1. split; [simpl; lia|]. split.
    - simpl. rewrite lookup_insert_eq. eauto.
    - intros k h. simpl. rewrite lookup_insert. case_decide; [auto|].
      intros Hk Hid. apply Hinv0 in Hk. lia. }
  assert (Hheldm : held_only_at (handler_id h1) (name e1) rm).
  { eapply (for_each_invariant (held_only_at (handler_id h1) (name e1)));
      [| exact Hmid | exact Hheld1].
    intros a b l a' l'. apply held_only_at_step. }
  pose proof Hstep2 as Hs2. apply _init_entry_point_Returns in Hs2
    as [[Hno _]|(_ & cls2 & Hload2 & Hr2 & Hlog2)]; [congruence|].
  remember (construct (constructed rm) cls2 (name e2)) as h2 eqn:Hh2.
  assert (Hid2 : handler_id h2 = constructed rm) by now subst h2.
  assert (Htype2 : handler_type h2 = cls2) by now subst h2.
  clear Hh2.
  destruct Hheldm as (Hidm & [old Hold] & Honly).
  assert (Hnot2 : not_held (handler_id h1) r2).
  { subst r2. split; [simpl; lia|].
    intros k h. simpl. rewrite lookup_insert. case_decide.
    - intros [= <-]. lia.
    - intros Hk Hid. apply (Honly _ _ Hk) in Hid. congruence. }
  assert (Hnotend : not_held (handler_id h1) reg).
  { eapply (for_each_invariant (not_held (handler_id h1)));
      [| exact Hpost | exact Hnot2].
    intros a b l a' l'. apply not_held_step. }
  exists r1, log1, r2, log2, h1, h2, (handler_type old).
  split; [now rewrite (for_each_snoc _ _ _ _ _ _ _ Hpre)|].
  split; [subst r1; unfold get_record; simpl; apply lookup_insert_eq|].
  split; [now rewrite Htype1|].
  split.
  { change (pre ++ e1 :: mid ++ [e2]) with (pre ++ (e1 :: mid) ++ [e2]).
    rewrite app_assoc.
    erewrite for_each_snoc; [exact Hstep2|].
    rewrite for_each_app, (bind_step _ _ _ _ _ Hpre). simpl.
    now rewrite (bind_step _ _ _ _ _ Hstep1). }
  split; [subst r2; unfold get_record; simpl; rewrite Hname;
          apply lookup_insert_eq|].
  split; [now rewrite Htype2|].
  split; [lia|].
  split.
  { rewrite Hlog2, <- Hname, Hold. apply in_or_app. right. now left. }
  split.
  { intros k Hk. destruct Hnot2 as [_ Hn]. now apply (Hn k h1). }
  split.
  { intros k Hk. destruct Hnotend as [_ Hn]. now apply (Hn k h1). }
  intros Hlast. unfold get_record.
  rewrite (record_kept _ _ Hlast _ _ _ _ Hpost). subst r2. simpl.
  rewrite Hname. apply lookup_insert_eq.
Qed.

End LoaderPlugin.

Lemma later_loader_plugin_overrides_witness :
  exists r1 log1 r2 log2 h1 h2 old,
    loaderplugin._init (loaderplugin.new_registry "calmjs.loader_plugin")
      ([plugins.ep_json] ++ [plugins.ep_text]) [] = (Returns r1, log1)
    /\ loaderplugin.get_record r1 "text" = Some h1
    /\ Returns (loaderplugin.IsClass plugins.text_handler)
       = Returns (loaderplugin.IsClass (loaderplugin.handler_type h1))
    /\ loaderplugin._init (loaderplugin.new_registry "calmjs.loader_plugin")
         ([plugins.ep_json] ++ plugins.ep_text :: [] ++ [plugins.ep_other_text])
         [] = (Returns r2, log2)
    /\ loaderplugin.get_record r2 "text" = Some h2
    /\ Returns (loaderplugin.IsClass plugins.other_text_handler)
       = Returns (loaderplugin.IsClass (loaderplugin.handler_type h2))
    /\ loaderplugin.handler_id h1 <> loaderplugin.handler_id h2
    /\ In {| lr_level := WARNING;
             lr_msg := loaderplugin.override_warning plugins.ep_other_text old |}
         log2
    /\ (forall k, loaderplugin.get_record r2 k <> Some h1)
    /\ (forall k,
          loaderplugin.get_record
            {| loaderplugin.registry_name := "calmjs.loader_plugin";
               loaderplugin.records :=
                 <["text" := loaderplugin.construct 1
                               plugins.other_text_handler "text"]>
                   (<["text" := loaderplugin.construct 0
                                  plugins.text_handler "text"]> ∅);
               loaderplugin.constructed := 2 |} k <> Some h1).
Proof.
  destruct (later_loader_plugin_overrides "calmjs.loader_plugin"
              [plugins.ep_json] plugins.ep_text [] plugins.ep_other_text []
              {| loaderplugin.registry_name := "calmjs.loader_plugin";
                 loaderplugin.records :=
                   <["text" := loaderplugin.construct 1
                                 plugins.other_text_handler "text"]>
                     (<["text" := loaderplugin.construct 0
                                    plugins.text_handler "text"]> ∅);
                 loaderplugin.constructed := 2 |}
              (snd (run (loaderplugin._init
                           (loaderplugin.new_registry "calmjs.loader_plugin")
                           [plugins.ep_json; plugins.ep_text;
                            plugins.ep_other_text])))
              eq_refl eq_refl eq_refl eq_refl)
    as (r1 & log1 & r2 & log2 & h1 & h2 & old & H1 & H2 & H3 & H4 & H5 & H6
        & H7 & H8 & H9 & H10 & _).
  exists r1, log1, r2, log2, h1, h2, old.
  repeat split; try assumption.
Defined.

(** ** The runtime: verbosity *)

Lemma count_flag_app f a b :
  runtime.count_flag f (a ++ b)
  = runtime.count_flag f a + runtime.count_flag f b.
Proof. induction a as [|t a IH]; simpl; [reflexivity | rewrite IH; lia]. Qed.

Lemma verbosity_app a b :
  runtime.verbosity (a ++ b) = runtime.verbosity a + runtime.verbosity b.
Proof. unfold runtime.verbosity. rewrite !count_flag_app. lia. Qed.

Lemma verbosity_cons t a :
  runtime.verbosity (t :: a) = runtime.verbosity [t] + runtime.verbosity a.
Proof. apply (verbosity_app [t] a). Qed.

(** [C6] Every [-v] adds one to the verbosity and every [-q] takes one
    away, wherever they stand, so that a [-v] and a [-q] cancel each
    other; [-v -q] gives the default threshold WARNING and [-vvv -qq]
    gives the verbosity 1 and the threshold INFO; the threshold stays at
    DEBUG from two on and stays the same from minus two down; a call of
    the runtime leaves these counters in its state. *)
Theorem verbosity_flags_cancel :
  (forall a b,
     runtime.verbosity (a ++ "-v" :: b) = runtime.verbosity (a ++ b) + 1)
  /\ (forall a b,
        runtime.verbosity (a ++ "-q" :: b) = runtime.verbosity (a ++ b) - 1)
  /\ (forall a b c,
        runtime.verbosity (a ++ "-v" :: b ++ "-q" :: c)
        = runtime.verbosity (a ++ b ++ c))
  /\ (forall a b c,
        runtime.verbosity (a ++ "-q" :: b ++ "-v" :: c)
        = runtime.verbosity (a ++ b ++ c))
  /\ runtime.log_level (runtime.verbosity ["-v"; "-q"]) = WARNING
  /\ runtime.verbosity ["-vvv"; "-qq"; "-d"] = 1
  /\ runtime.log_level (runtime.verbosity ["-vvv"; "-qq"; "-d"]) = INFO
  /\ runtime.debug ["-vvv"; "-qq"; "-d"] = 1
  /\ runtime.log_level 0 = WARNING
  /\ runtime.log_level 1 = INFO
  /\ (forall n, 2 <= n -> runtime.log_level n = DEBUG)
  /\ (forall n, n <= -2 -> runtime.log_level n = runtime.log_level (-2))
  /\ (forall self argv log r self' log',
        runtime.call self argv log = (Returns (r, self'), log') ->
        runtime.rt_verbosity self' = runtime.verbosity argv
        /\ runtime.rt_debug self' = runtime.debug argv).
Proof.
  repeat split.
  - intros a b. rewrite !verbosity_app, (verbosity_cons "-v" b).
    change (runtime.verbosity ["-v"]) with 1. lia.
  - intros a b. rewrite !verbosity_app, (verbosity_cons "-q" b).
    change (runtime.verbosity ["-q"]) with (-1). lia.
  - intros a b c.
    rewrite !verbosity_app, (verbosity_cons "-v"), !verbosity_app,
      (verbosity_cons "-q" c).
    change (runtime.verbosity ["-v"]) with 1.
    change (runtime.verbosity ["-q"]) with (-1). lia.
  - intros a b c.
    rewrite !verbosity_app, (verbosity_cons "-q"), !verbosity_app,
      (verbosity_cons "-v" c).
    change (runtime.verbosity ["-v"]) with 1.
    change (runtime.verbosity ["-q"]) with (-1). lia.
  - intros n Hn. unfold runtime.log_level.
    destruct (Z.leb_spec n (-2)); [lia|].
    destruct (Z.eqb_spec n (-1)); [lia|].
    destruct (Z.eqb_spec n 0); [lia|].
    destruct (Z.eqb_spec n 1); [lia|]. reflexivity.
  - intros n Hn. unfold runtime.log_level.
    destruct (Z.leb_spec n (-2)); [reflexivity | lia].
  - unfold runtime.call, ret in H. now injection H as _ <- _.
  - unfold runtime.call, ret in H. now injection H as _ <- _.
Qed.

Lemma verbosity_flags_cancel_witness :
  runtime.log_level 5 = DEBUG
  /\ runtime.log_level (-5) = runtime.log_level (-2).
Proof.
  split.
  - apply (proj1 (proj2 (proj2 (proj2 (proj2 (proj2 (proj2 (proj2 (proj2
      (proj2 (proj2 verbosity_flags_cancel))))))))))). lia.
  - apply (proj1 (proj2 (proj2 (proj2 (proj2 (proj2 (proj2 (proj2 (proj2
      (proj2 (proj2 (proj2 verbosity_flags_cancel)))))))))))). lia.
Defined.

(** ** The runtime: attribution of unknown flags *)





(** ** The runtime: repeated dispatch and foreign parsers *)

(** Against [C9] as it is written: a runtime that has been initialised
    and has dispatched once dispatches a second time, and returns. *)
Lemma second_dispatch_returns :
  exists rt r1 rt1 r2 rt2 log,
    run (runtime.new_runtime "calmjs" [cli.cmd_entry] 0) = (Returns rt, [])
    /\ runtime.call rt ["cmd"; "--view"; "example.package1"] []
       = (Returns (r1, rt1), [])
    /\ runtime.call rt1 ["cmd"; "example.package1"] [] = (Returns (r2, rt2), log)
    /\ r2 = runtime.Invoked "cmd" cli.npm_runtime ["example.package1"] 0 0
    /\ ~ exists e, fst (runtime.call rt1 ["cmd"; "example.package1"] [])
                   = Raises e.
Proof.
  do 6 eexists. split; [vm_compute; reflexivity|].
  split; [vm_compute; reflexivity|].
  split; [vm_compute; reflexivity|].
  split; [reflexivity|].
  intros [e He]. vm_compute in He. discriminate.
Qed.

(** [C9] Handing to [init_argparser] an argument parser that is not the
    one of the runtime raises RuntimeError, and gives no runtime back.
    A call of the runtime returns, with the same table of commands and
    the same parser, however often the runtime was called before. *)
Theorem foreign_parser_is_refused :
  (forall self parser log,
     runtime.argparser self <> Some parser ->
     runtime.init_argparser self parser log = (Raises RuntimeError, log))
  /\ (forall self argv log,
        exists r self',
          runtime.call self argv log = (Returns (r, self'), log)
          /\ r = runtime.dispatch (runtime.prog self) (runtime.runtimes self)
                   argv
          /\ runtime.runtimes self' = runtime.runtimes self
          /\ runtime.argparser self' = runtime.argparser self
          /\ runtime.prog self' = runtime.prog self).
Proof.
  split.
  - intros self parser log Hne. unfold runtime.init_argparser.
    rewrite bool_decide_eq_false_2 by assumption. reflexivity.
  - intros self argv log. unfold runtime.call, ret.
    do 2 eexists. split; [reflexivity|]. repeat split.
Qed.

Lemma foreign_parser_is_refused_witness :
  exists rt,
    run (runtime.new_runtime "calmjs" [cli.cmd_entry] 0) = (Returns rt, [])
    /\ runtime.init_argparser rt 1 [] = (Raises RuntimeError, []).
Proof.
  eexists. split; [vm_compute; reflexivity|].
  apply (proj1 foreign_parser_is_refused). simpl. discriminate.
Defined.

(** ** The toolchain: confirmation of the export target *)

(** [C5] The confirmation of the export target.  Without an export
    target in the spec it aborts.  With a target that does not exist it
    proceeds, and nothing is asked, read or logged.  With a target that
    exists, no overwrite flag and a run that is not interactive, it
    cancels after logging that the default answer [No] was selected; it
    writes no question and reads nothing from the standard input,
    whatever that holds. *)
Theorem export_target_check_protocol :
  (forall spec w,
     toolchain.export_target spec = None ->
     exists message,
       toolchain.prompt_export_target_check spec w
       = (inl (toolchain.ToolchainAbort message), w))
  /\ (forall spec w target,
        toolchain.export_target spec = Some target ->
        toolchain.exists_ w target = false ->
        toolchain.prompt_export_target_check spec w = (inr spec, w))
  /\ (forall spec w target,
        toolchain.export_target spec = Some target ->
        toolchain.exists_ w target = true ->
        toolchain.export_target_overwrite spec = false ->
        toolchain.interactive w = false ->
        exists w' r,
          toolchain.prompt_export_target_check spec w
          = (inl toolchain.ToolchainCancel, w')
          /\ toolchain.log w' = toolchain.log w ++ [r]
          /\ lr_msg r
             = "non-interactive mode; auto-selecting default option [No]"
          /\ toolchain.stdin w' = toolchain.stdin w
          /\ toolchain.stdout w' = toolchain.stdout w).
Proof.
  repeat split.
  - intros spec w Hnone. unfold toolchain.prompt_export_target_check.
    rewrite Hnone. eauto.
  - intros spec w target Htarget Hex.
    unfold toolchain.prompt_export_target_check. now rewrite Htarget, Hex.
  - intros spec w target Htarget Hex Hover Hinter.
    unfold toolchain.prompt_export_target_check.
    rewrite Htarget, Hex, Hover, Hinter. simpl.
    do 2 eexists. repeat split.
Qed.

Lemma export_target_check_protocol_witness :
  exists w' r,
    toolchain.prompt_export_target_check
      {| toolchain.export_target := Some "/tmp/export_file";
         toolchain.export_target_overwrite := false |}
      {| toolchain.exists_ := fun _ => true;
         toolchain.interactive := false;
         toolchain.stdin := ["y"];
         toolchain.stdout := [];
         toolchain.log := [] |}
    = (inl toolchain.ToolchainCancel, w')
    /\ toolchain.log w' = [] ++ [r]
    /\ lr_msg r = "non-interactive mode; auto-selecting default option [No]"
    /\ toolchain.stdin w' = ["y"]
    /\ toolchain.stdout w' = [].
Proof.
  exact (proj2 (proj2 export_target_check_protocol)
    {| toolchain.export_target := Some "/tmp/export_file";
       toolchain.export_target_overwrite := false |}
    {| toolchain.exists_ := fun _ => true;
       toolchain.interactive := false;
       toolchain.stdin := ["y"];
       toolchain.stdout := [];
       toolchain.log := [] |}
    "/tmp/export_file" eq_refl eq_refl eq_refl eq_refl).
Defined.

(** ** The runtime: the command registry *)

Section Registry.
Import runtime registry.















End Registry.



(** ** calmjs.dist: what the flattening writes into the document *)

Lemma mem_cons dep dep0 dep_keys :
  flat.mem dep (dep0 :: dep_keys) = String.eqb dep dep0 || flat.mem dep dep_keys.
Proof. reflexivity. Qed.

(** The last loop of the flattening, key by key. *)
Lemma store_depends_fields dep_keys depends :
  forall root log result log',
    dist.store_depends dep_keys depends root log = (Returns result, log') ->
    log' = log
    /\ (forall k,
          document.field result k
          = if flat.mem k dep_keys
            then option_map (fun m => JObj (dist.drop_nulls m))
                   (Dict.get k depends)
            else document.field root k)
    /\ (exists added, document.keys result = document.keys root ++ added)
    /\ (NoDup (document.keys root) -> NoDup (document.keys result))
    /\ (dep_keys <> [] ->
        document.is_object root = true /\ document.is_object result = true).
Proof.
  unfold dist.store_depends.
  induction dep_keys as [|dep0 dep_keys IH]; simpl;
    intros root log result log' H.
  - unfold ret in H. injection H as <- <-.
    repeat split; try tauto. exists []. now rewrite app_nil_r.
  - apply bind_Returns in H as (root1 & log1 & Hstep & H).
    apply bind_Returns in Hstep as (m & log2 & Hget & Hset).
    apply getitem_Returns in Hget as [Hget ->].
    destruct root as [| | | | | |items]; try discriminate Hset.
    simpl in Hset. unfold ret in Hset. injection Hset as <- <-.
    destruct (IH _ _ _ _ H) as (-> & Hfield & (added & Hkeys) & Hnd & Hobj).
    split; [reflexivity|]. split; [|split; [|split]].
    + intros k. rewrite Hfield. simpl. rewrite get_set.
      fold (flat.mem k dep_keys).
      destruct (String.eqb_spec k dep0) as [->|Hne]; simpl.
      * rewrite Hget. now destruct (flat.mem dep0 dep_keys).
      * reflexivity.
    + rewrite Hkeys. simpl. rewrite keys_set.
      destruct (existsb (String.eqb dep0) (Dict.keys items)).
      * now exists added.
      * exists (dep0 :: added). now rewrite <- app_assoc.
    + intros Hitems. apply Hnd. simpl. now apply wf_set.
    + intros _. split; [reflexivity|].
      destruct dep_keys as [|dep1 dep_keys].
      * simpl in H. unfold ret in H. now injection H as <-.
      * now apply Hobj.
Qed.

Lemma drop_nulls_wf m : Dict.wf m -> Dict.wf (dist.drop_nulls m).
Proof.
  unfold Dict.wf, dist.drop_nulls, Dict.keys.
  induction m as [|[k v] m IH]; simpl; intros Hnd; [assumption|].
  apply NoDup_cons in Hnd as [Hk Hnd].
  destruct (is_not_None v); simpl; [|now apply IH].
  apply NoDup_cons. split; [|now apply IH].
  intros Hin. apply Hk.
  apply list_elem_of_In in Hin. apply list_elem_of_In.
  apply in_map_iff in Hin as ([k' v'] & Heq & Hin). simpl in Heq. subst k'.
  apply filter_In in Hin as [Hin _].
  change k with (fst (k, v')). now apply in_map.
Qed.

(** [X1] The fields that the flattening leaves alone.  When
    [flatten_dist_egginfo_json] returns, its result holds every key of
    the document of the target that is not a dependency key with the
    value it had, the keys of that document keep their places and new
    keys come after them, and every dependency key is bound to a
    dictionary, also when no distribution declares anything for it. *)
Theorem flatten_keeps_other_fields :
  forall source_dist filename dep_keys working_set log result log',
    dist.flatten_dist_egginfo_json source_dist filename dep_keys working_set
      log = (Returns result, log') ->
    (forall k, ~ In k dep_keys ->
       document.field result k
       = document.field (flat.root_of source_dist filename) k)
    /\ (forall dep, In dep dep_keys ->
          exists section,
            document.field result dep = Some (JObj section)
            /\ Dict.wf section)
    /\ (exists added,
          document.keys result
          = document.keys (flat.root_of source_dist filename) ++ added).
Proof.
  intros source_dist filename dep_keys ws log result log' H.
  unfold dist.flatten_dist_egginfo_json in H.
  destruct (get_root source_dist filename log) as (log1 & Hroot).
  rewrite (bind_step _ _ _ _ _ Hroot) in H.
  apply bind_Returns in H as (depends & log2 & Hmerged & Hstore).
  pose proof (merged_depends_wf _ _ _ _ _ _ _ _ Hmerged) as Hwf.
  destruct (store_depends_fields _ _ _ _ _ _ Hstore)
    as (_ & Hfield & Hkeys & _ & _).
  split; [|split; [|exact Hkeys]].
  - intros k Hk. rewrite Hfield.
    destruct (flat.mem k dep_keys) eqn:E; [|reflexivity].
    apply mem_In in E. contradiction.
  - intros dep Hin.
    destruct (store_depends_spec _ _ _ _ _ _ Hstore dep Hin)
      as (merged & items & Hget & -> & Hres).
    exists (dist.drop_nulls merged). split; [exact Hres|].
    apply drop_nulls_wf. eapply values_wf_get; eauto.
Qed.

Lemma flatten_keeps_other_fields_witness :
  exists result log,
    run (dist.flatten_dist_egginfo_json (Some flat.example_package1)
           "package.json" dist.DEP_KEYS flat.example_working_set)
    = (Returns result, log)
    /\ document.field result "name" = Some (JStr "site").
Proof.
  eexists _, _. split; [vm_compute; reflexivity|].
  refine (proj1 (flatten_keeps_other_fields (Some flat.example_package1)
                   "package.json" dist.DEP_KEYS flat.example_working_set
                   [] _ _ _) "name" _).
  - vm_compute. reflexivity.
  - intros [H|[H|[]]]; discriminate H.
Defined.

(** ** calmjs.dist: a package that is not installed *)

Lemma store_depends_init dep_keys :
  forall items log,
    exists items',
      dist.store_depends dep_keys (dist.init_depends dep_keys) (JObj items) log
      = (Returns (JObj items'), log)
      /\ (Dict.wf items -> Dict.wf items')
      /\ forall k, Dict.get k items'
                   = if flat.mem k dep_keys then Some (JObj [])
                     else Dict.get k items.
Proof.
  intros items log.
  destruct (store_depends_ok dep_keys (dist.init_depends dep_keys)) with
    (items := items) (log := log) as (result & Hrun).
  { intros dep Hin. rewrite init_depends_get.
    apply mem_In in Hin. now rewrite Hin. }
  destruct (store_depends_fields _ _ _ _ _ _ Hrun)
    as (_ & Hfield & _ & Hnd & Hobj).
  destruct dep_keys as [|dep0 dep_keys].
  - unfold dist.store_depends in Hrun. simpl in Hrun. unfold ret in Hrun.
    injection Hrun as <-. exists items. repeat split; auto.
  - destruct Hobj as [_ Hobj]; [discriminate|].
    destruct result as [| | | | | |items']; try discriminate Hobj.
    exists items'. split; [exact Hrun|]. split; [exact Hnd|].
    intros k. specialize (Hfield k). cbn [document.field] in Hfield.
    rewrite Hfield.
    rewrite init_depends_get.
    now destruct (flat.mem k (dep0 :: dep_keys)).
Qed.

(** [X2] A package that is not installed.  When the working set finds no
    distribution for the name and resolves no requirement to no
    distribution, [flatten_egginfo_json] returns, without logging, a
    dictionary that binds every dependency key to an empty dictionary and
    has no other key, while [read_egginfo_json] for the same name raises
    [AttributeError]. *)
Theorem unknown_package_flattens_to_empty_sections :
  forall pkg_name filename dep_keys index log,
    dist.find index pkg_name = Returns None ->
    dist.resolve (dist.working_set index) [] = Returns [] ->
    (exists items,
       dist.flatten_egginfo_json pkg_name filename dep_keys index log
       = (Returns (JObj items), log)
       /\ Dict.wf items
       /\ forall k, Dict.get k items
                    = if flat.mem k dep_keys then Some (JObj []) else None)
    /\ dist.read_egginfo_json pkg_name filename index log
       = (Raises AttributeError, log).
Proof.
  intros pkg_name filename dep_keys index log Hfind Hres. split.
  - destruct (store_depends_init dep_keys [] log) as (items & Hrun & Hwf & Hget).
    exists items. split; [|split; [apply Hwf, NoDup_nil_2 | exact Hget]].
    unfold dist.flatten_egginfo_json, dist.get_pkg_dist,
      dist.flatten_dist_egginfo_json, dist.merged_depends,
      dist.iter_dist_requires, bind, lift.
    rewrite Hfind. cbv beta iota. rewrite Hres. exact Hrun.
  - unfold dist.read_egginfo_json, dist.get_pkg_dist, bind, lift.
    now rewrite Hfind.
Qed.

Lemma unknown_package_flattens_to_empty_sections_witness :
  exists items,
    run (dist.flatten_egginfo_json "example.missing" "package.json"
           dist.DEP_KEYS document.example_index)
    = (Returns (JObj items), [])
    /\ Dict.get "dependencies" items = Some (JObj []).
Proof.
  destruct (unknown_package_flattens_to_empty_sections "example.missing"
              "package.json" dist.DEP_KEYS document.example_index []
              eq_refl eq_refl) as [(items & Hrun & _ & Hget) _].
  exists items. split; [exact Hrun|]. exact (Hget "dependencies").
Defined.

(** ** calmjs.dist: documents that the flattening cannot merge *)

Lemma fst_bind_raises {A B} (m : Py A) (f : A -> Py B) log e :
  fst (m log) = Raises e -> fst (bind m f log) = Raises e.
Proof.
  unfold bind. destruct (m log) as [[a| |] log1]; simpl; congruence.
Qed.

Lemma for_each_raises {A B} (f : A -> B -> Py A) l1 b l2 a log a1 log1 e :
  for_each f l1 a log = (Returns a1, log1) ->
  fst (f a1 b log1) = Raises e ->
  fst (for_each f (l1 ++ b :: l2) a log) = Raises e.
Proof.
  intros H1 Hb. rewrite for_each_app, (bind_step _ _ _ _ _ H1). simpl.
  now apply fst_bind_raises.
Qed.

(** A document that is not a dictionary has no [get]. *)
Lemma merge_obj_not_object dep_keys obj depends log :
  document.is_object obj = false ->
  dep_keys <> [] ->
  (forall dep, In dep dep_keys -> Dict.get dep depends <> None) ->
  fst (dist.merge_obj dep_keys obj depends log) = Raises AttributeError.
Proof.
  intros Hobj Hne Hdom. destruct dep_keys as [|dep0 dep_keys]; [congruence|].
  unfold dist.merge_obj. simpl. unfold bind at 1. unfold bind at 1.
  unfold dist.getitem.
  destruct (Dict.get dep0 depends) as [d|] eqn:Hd;
    [|exfalso; apply (Hdom dep0); simpl; auto].
  unfold ret at 1. unfold bind at 1.
  destruct obj; try discriminate Hobj; reflexivity.
Qed.

(** A value under a dependency key that [dict.update] refuses. *)
Lemma merge_obj_bad_section ok_keys dep rest items v e depends log :
  forallb (fun dep => flat.dep_ok (Dict.get dep items)) ok_keys = true ->
  Dict.get dep items = Some v ->
  dist.update_items v = Raises e ->
  (forall dep', In dep' (ok_keys ++ dep :: rest) ->
                Dict.get dep' depends <> None) ->
  fst (dist.merge_obj (ok_keys ++ dep :: rest) (JObj items) depends log)
  = Raises e.
Proof.
  intros Hok Hv He Hdom.
  destruct (merge_obj_ok ok_keys items Hok depends log)
    as (depends1 & Hrun & Hpres & _).
  { intros dep' Hin. apply Hdom, in_or_app. now left. }
  unfold dist.merge_obj in *.
  eapply for_each_raises; [exact Hrun|].
  unfold bind at 1. unfold dist.getitem.
  destruct (Dict.get dep depends1) as [d|] eqn:Hd.
  - unfold ret at 1. unfold bind at 1. unfold dist.py_get. rewrite Hv.
    unfold ret at 1. unfold bind at 1. unfold dist.py_update, bind, lift.
    now rewrite He.
  - exfalso. apply (Hpres dep); [|exact Hd].
    apply Hdom, in_or_app. right. now left.
Qed.

Lemma app_tail_cases {A} (l b a : list A) (x d : A) :
  l ++ [x] = b ++ d :: a ->
  (a = [] /\ l = b /\ x = d) \/ (exists a', a = a' ++ [x] /\ l = b ++ d :: a').
Proof.
  destruct a as [|y a _] using rev_ind; intros H.
  - left. apply app_inj_tail in H as [-> ->]. auto.
  - right. exists a. rewrite app_comm_cons, app_assoc in H.
    apply app_inj_tail in H as [-> ->]. auto.
Qed.

Lemma init_depends_dom dep_keys dep :
  In dep dep_keys -> Dict.get dep (dist.init_depends dep_keys) <> None.
Proof.
  intros Hin. rewrite init_depends_get. apply mem_In in Hin. now rewrite Hin.
Qed.

Lemma forallb_rev {A} (p : A -> bool) l :
  forallb p l = true -> forallb p (rev l) = true.
Proof.
  rewrite !forallb_forall. intros H x Hx. apply H. now apply in_rev.
Qed.

(** The flattening fails where the merge of the first document that
    cannot be merged fails. *)
Lemma flatten_raises_at src filename dep_keys ws ds before d after log e :
  dist.resolve ws (dist.requires src) = Returns ds ->
  rev ds ++ [src] = before ++ d :: after ->
  forallb (flat.dist_ok filename dep_keys) before = true ->
  truthy (flat.decoded d filename) = true ->
  (forall depends log1,
     (forall dep, In dep dep_keys -> Dict.get dep depends <> None) ->
     fst (dist.merge_obj dep_keys (flat.decoded d filename) depends log1)
     = Raises e) ->
  fst (dist.flatten_dist_egginfo_json (Some src) filename dep_keys ws log)
  = Raises e.
Proof.
  intros Hres Hchain Hbefore Htruthy Hfail.
  unfold dist.flatten_dist_egginfo_json.
  destruct (get_root (Some src) filename log) as (log1 & Hroot).
  rewrite (bind_step _ _ _ _ _ Hroot). apply fst_bind_raises.
  unfold dist.merged_depends, dist.iter_dist_requires.
  unfold bind at 1. unfold bind at 1. unfold lift. rewrite Hres.
  unfold ret at 1.
  destruct (merge_loop_ok filename dep_keys before Hbefore
              (dist.init_depends dep_keys) log1 (init_depends_dom dep_keys))
    as (depends1 & log2 & Hloop & Hpres & _).
  assert (Hdom1 : forall dep, In dep dep_keys -> Dict.get dep depends1 <> None).
  { intros dep Hin. apply Hpres. now apply init_depends_dom. }
  apply app_tail_cases in Hchain as [(-> & Hds & <-)|(after' & -> & Hds)].
  - rewrite Hds, (bind_step _ _ _ _ _ Hloop).
    unfold bind at 1, logmsg. unfold flat.root_of, py_or.
    rewrite Htruthy. now apply Hfail.
  - rewrite Hds. apply fst_bind_raises.
    eapply for_each_raises; [exact Hloop|].
    unfold dist.merge_required.
    destruct (get_dist_egginfo_json_decoded d filename log2) as (log3 & Hget).
    rewrite (bind_step _ _ _ _ _ Hget), Htruthy. cbn [negb].
    unfold bind at 1, logmsg. now apply Hfail.
Qed.

(** [X3] Metadata that is valid JSON of the wrong shape is fatal.  Take
    the documents in the order in which the flattening merges them, the
    farthest requirement first and the target last, and let [d] be the
    first whose document cannot be merged, the ones before it being
    mergeable.  When the document of [d] is true in Python but is not a
    dictionary, the flattening raises [AttributeError]; when it is a
    dictionary that binds a dependency key to null, a boolean or a
    number, the flattening raises [TypeError], and when it binds one to a
    string that is not empty, [ValueError]. *)
Theorem flatten_fails_on_malformed_document :
  forall src filename dep_keys working_set ds before d after log,
    dist.resolve working_set (dist.requires src) = Returns ds ->
    rev ds ++ [src] = before ++ d :: after ->
    forallb (flat.dist_ok filename dep_keys) before = true ->
    truthy (flat.decoded d filename) = true ->
    (document.is_object (flat.decoded d filename) = false ->
     dep_keys <> [] ->
     fst (dist.flatten_dist_egginfo_json (Some src) filename dep_keys
            working_set log) = Raises AttributeError)
    /\ (forall items ok_keys dep rest v,
          flat.decoded d filename = JObj items ->
          dep_keys = ok_keys ++ dep :: rest ->
          forallb (fun dep => flat.dep_ok (Dict.get dep items)) ok_keys
          = true ->
          Dict.get dep items = Some v ->
          (document.not_iterable v = true ->
           fst (dist.flatten_dist_egginfo_json (Some src) filename dep_keys
                  working_set log) = Raises TypeError)
          /\ (forall c s, v = JStr (String c s) ->
              fst (dist.flatten_dist_egginfo_json (Some src) filename
                     dep_keys working_set log) = Raises ValueError)).
Proof.
  intros src filename dep_keys ws ds before d after log Hres Hchain Hbefore
    Htruthy.
  split.
  - intros Hobj Hne.
    eapply flatten_raises_at; eauto.
    intros depends log1 Hdom. now apply merge_obj_not_object.
  - intros items ok_keys dep rest v Hdoc -> Hok Hv. split.
    + intros Hv'. eapply flatten_raises_at; eauto.
      intros depends log1 Hdom. rewrite Hdoc.
      eapply merge_obj_bad_section; eauto.
      destruct v; try discriminate Hv'; reflexivity.
    + intros c s ->. eapply flatten_raises_at; eauto.
      intros depends log1 Hdom. rewrite Hdoc.
      eapply merge_obj_bad_section; eauto.
Qed.

Lemma flatten_fails_on_malformed_document_witness :
  fst (run (dist.flatten_dist_egginfo_json (Some document.list_package)
              "package.json" dist.DEP_KEYS flat.example_working_set))
  = Raises AttributeError
  /\ fst (run (dist.flatten_dist_egginfo_json (Some document.number_package)
                 "package.json" dist.DEP_KEYS flat.example_working_set))
     = Raises TypeError.
Proof.
  split.
  - refine (proj1 (flatten_fails_on_malformed_document document.list_package
                     "package.json" dist.DEP_KEYS flat.example_working_set
                     [] [] document.list_package [] [] eq_refl eq_refl
                     eq_refl eq_refl) eq_refl _).
    discriminate.
  - refine (proj1 (proj2 (flatten_fails_on_malformed_document
                            document.number_package
                            "package.json" dist.DEP_KEYS
                            flat.example_working_set
                            [] [] document.number_package [] [] eq_refl
                            eq_refl eq_refl eq_refl)
                     [("name", JStr "numbered"); ("dependencies", JInt 3)]
                     [] "dependencies" ["devDependencies"] (JInt 3)
                     eq_refl eq_refl eq_refl eq_refl) eq_refl).
Defined.

(** [X4] Requirements that cannot be resolved are fatal.  When
    [working_set.resolve] raises for the requirements of the target, the
    flattening raises the same exception, after the one log record of
    reading the metadata of the target. *)
Theorem flatten_does_not_catch_resolution_errors :
  forall src filename dep_keys working_set e log,
    dist.resolve working_set (dist.requires src) = Raises e ->
    exists r,
      dist.flatten_dist_egginfo_json (Some src) filename dep_keys working_set
        log = (Raises e, log ++ [r]).
Proof.
  intros src filename dep_keys ws e log Hres.
  unfold dist.flatten_dist_egginfo_json, dist.merged_depends,
    dist.iter_dist_requires, dist.get_dist_egginfo_json.
  destruct (dist.egginfo src filename) as [| |[obj|]];
    unfold bind, logmsg, ret, lift; rewrite Hres; eauto.
Qed.

Lemma flatten_does_not_catch_resolution_errors_witness :
  exists r,
    run (dist.flatten_dist_egginfo_json
           (Some document.unresolved_package) "package.json" dist.DEP_KEYS
           flat.example_working_set)
    = (Raises ResolutionError, [r]).
Proof.
  exact (flatten_does_not_catch_resolution_errors
           document.unresolved_package "package.json" dist.DEP_KEYS
           flat.example_working_set ResolutionError [] eq_refl).
Defined.

(** ** calmjs.dist: documents that are empty *)

Lemma get_dist_egginfo_json_one_record d filename log :
  exists r, dist.get_dist_egginfo_json d filename log
            = (Returns (flat.decoded d filename), log ++ [r]).
Proof.
  unfold dist.get_dist_egginfo_json, flat.decoded, bind, logmsg, ret.
  destruct (dist.egginfo d filename) as [| |[obj|]]; simpl; eauto.
Qed.

Lemma falsy_skipped d filename :
  truthy (flat.decoded d filename) = false ->
  forall dep_keys depends log, exists r,
    dist.merge_required filename dep_keys depends d log
    = (Returns depends, log ++ [r]).
Proof.
  intros Hf dep_keys depends log.
  destruct (get_dist_egginfo_json_one_record d filename log) as (r & Hr).
  exists r. unfold dist.merge_required.
  now rewrite (bind_step _ _ _ _ _ Hr), Hf.
Qed.

(** [X5] A document that is empty is skipped.  A required distribution
    whose metadata decodes to a value that is false in Python (an empty
    dictionary or list, an empty string, zero, false or null) adds
    nothing: [merge_required] leaves the accumulators as they are, and the
    flattening ends as it does for a working set that resolves to the
    same distributions without that one. *)
Theorem empty_document_is_skipped :
  forall d filename,
    truthy (flat.decoded d filename) = false ->
    (forall dep_keys depends log,
       fst (dist.merge_required filename dep_keys depends d log)
       = Returns depends)
    /\ (forall source_dist dep_keys ws ws' closer farther log,
          dist.resolve ws
            (match source_dist with Some s => dist.requires s | None => [] end)
          = Returns (closer ++ d :: farther) ->
          dist.resolve ws'
            (match source_dist with Some s => dist.requires s | None => [] end)
          = Returns (closer ++ farther) ->
          fst (dist.flatten_dist_egginfo_json source_dist filename dep_keys
                 ws log)
          = fst (dist.flatten_dist_egginfo_json source_dist filename dep_keys
                   ws' log)).
Proof.
  intros d filename Hf. split.
  - intros dep_keys depends log.
    destruct (falsy_skipped d filename Hf dep_keys depends log) as (r & ->).
    reflexivity.
  - intros source_dist dep_keys ws ws' closer farther log Hres Hres'.
    unfold dist.flatten_dist_egginfo_json.
    apply fst_bind_same. intros root log1.
    apply fst_bind_congr; [|intros; apply appends_store_depends].
    unfold dist.merged_depends, dist.iter_dist_requires. cbv zeta.
    rewrite Hres, Hres'. rewrite !bind_lift_ret.
    apply fst_bind_congr.
    + rewrite !rev_app_distr. simpl. rewrite <- app_assoc. simpl.
      apply skip_in_loop.
      * intros a l. now apply falsy_skipped.
      * intros a b. apply appends_merge_required.
    + intros depends. destruct source_dist.
      * apply appends_bind; [auto with appends|].
        intros _. apply appends_merge_obj.
      * auto with appends.
Qed.

Lemma empty_document_is_skipped_witness :
  fst (dist.merge_required "package.json" dist.DEP_KEYS
         (dist.init_depends dist.DEP_KEYS) document.empty_package [])
  = Returns (dist.init_depends dist.DEP_KEYS).
Proof.
  exact (proj1 (empty_document_is_skipped document.empty_package
                  "package.json" eq_refl)
           dist.DEP_KEYS (dist.init_depends dist.DEP_KEYS) []).
Defined.

(** ** calmjs.dist: flattening a flattened document *)

Section DictMore.
Context {V : Type}.
Implicit Types (d items : list (string * V)) (k : string) (v : V).

Lemma set_same k v d : Dict.get k d = Some v -> Dict.set k v d = d.
Proof.
  induction d as [|[k0 v0] d IH]; simpl; [discriminate|].
  destruct (String.eqb_spec k k0) as [->|Hne].
  - now intros [= ->].
  - intros H. now rewrite IH.
Qed.

Lemma set_new k v d : Dict.get k d = None -> Dict.set k v d = d ++ [(k, v)].
Proof.
  induction d as [|[k0 v0] d IH]; simpl; [reflexivity|].
  destruct (String.eqb_spec k k0) as [->|Hne]; [discriminate|].
  intros H. now rewrite IH.
Qed.

(** Updating with keys that are all new appends the items. *)
Lemma update_fresh items : forall d,
  NoDup (Dict.keys d ++ Dict.keys items) ->
  Dict.update d items = d ++ items.
Proof.
  unfold Dict.update.
  induction items as [|[k v] items IH]; simpl; intros d Hnd.
  - now rewrite app_nil_r.
  - assert (Hk : Dict.get k d = None).
    { apply get_None_keys. apply NoDup_app in Hnd as (_ & Hdisj & _).
      intros Hin. apply (Hdisj k Hin). now left. }
    rewrite (set_new _ _ _ Hk), IH.
    + now rewrite <- app_assoc.
    + unfold Dict.keys in *. rewrite map_app, <- app_assoc. exact Hnd.
Qed.

(** Updating with items that the dictionary already holds changes
    nothing. *)
Lemma update_held items : forall d,
  (forall k v, In (k, v) items -> Dict.get k d = Some v) ->
  Dict.update d items = d.
Proof.
  unfold Dict.update.
  induction items as [|[k v] items IH]; simpl; intros d H; [reflexivity|].
  rewrite set_same by auto. apply IH. auto.
Qed.
End DictMore.

Lemma update_nil (s : list (string * json)) :
  Dict.wf s -> Dict.update [] s = s.
Proof. intros Hwf. now rewrite update_fresh. Qed.

Lemma update_self (s : list (string * json)) :
  Dict.wf s -> Dict.update s s = s.
Proof. intros Hwf. apply update_held. intros k v. now apply In_get. Qed.

Lemma drop_nulls_idem m : dist.drop_nulls (dist.drop_nulls m) = dist.drop_nulls m.
Proof.
  unfold dist.drop_nulls. induction m as [|[k v] m IH]; simpl; [reflexivity|].
  destruct (is_not_None v) eqn:E; simpl; [|exact IH].
  now rewrite E, IH.
Qed.

Lemma py_or_idem x : py_or (py_or x (JObj [])) (JObj []) = py_or x (JObj []).
Proof. unfold py_or. destruct (truthy x) eqn:E; [now rewrite E | reflexivity]. Qed.

Lemma bind_assoc {A B C} (m : Py A) (g : A -> Py B) (h : B -> Py C) log :
  bind (bind m g) h log = bind m (fun a => bind (g a) h) log.
Proof. unfold bind. now destruct (m log) as [[a| |] log1]. Qed.

Lemma bind_ret {A B} (a : A) (f : A -> Py B) log : bind (ret a) f log = f a log.
Proof. reflexivity. Qed.

Lemma bind_logmsg {B} l msg (f : unit -> Py B) log :
  bind (logmsg l msg) f log
  = f tt (log ++ [{| lr_level := l; lr_msg := msg |}]).
Proof. reflexivity. Qed.

(** The overlay of a document whose sections are the accumulators, or
    that is laid onto empty accumulators. *)
Lemma merge_obj_sections items dep_keys :
  (forall dep, In dep dep_keys ->
     exists s, Dict.get dep items = Some (JObj s) /\ Dict.wf s) ->
  forall depends log,
    (forall dep, In dep dep_keys ->
       exists d, Dict.get dep depends = Some d
                 /\ (d = [] \/ Dict.get dep items = Some (JObj d))) ->
    exists depends',
      dist.merge_obj dep_keys (JObj items) depends log = (Returns depends', log)
      /\ (forall dep, ~ In dep dep_keys ->
            Dict.get dep depends' = Dict.get dep depends)
      /\ forall dep, In dep dep_keys ->
           exists s, Dict.get dep items = Some (JObj s)
                     /\ Dict.get dep depends' = Some s.
Proof.
  unfold dist.merge_obj.
  induction dep_keys as [|dep0 dep_keys IH]; simpl; intros Hsec depends log Hacc.
  - exists depends. unfold ret. repeat split; tauto.
  - destruct (Hsec dep0 (or_introl eq_refl)) as (s0 & Hs0 & Hwf0).
    destruct (Hacc dep0 (or_introl eq_refl)) as (d0 & Hd0 & Hcase).
    assert (Hupd : Dict.update d0 s0 = s0).
    { destruct Hcase as [->|Heq].
      - now apply update_nil.
      - rewrite Hs0 in Heq. injection Heq as ->. now apply update_self. }
    destruct (IH (fun dep H => Hsec dep (or_intror H))
                (Dict.set dep0 s0 depends) log)
      as (depends' & Hrun & Hother & Hmine).
    { intros dep Hin. rewrite get_set.
      destruct (String.eqb_spec dep dep0) as [->|Hne].
      - exists s0. auto.
      - apply Hacc. now right. }
    exists depends'. split; [|split].
    + unfold bind at 1. unfold bind at 1. unfold dist.getitem. rewrite Hd0.
      unfold ret at 1. unfold bind at 1. unfold dist.py_get. rewrite Hs0.
      unfold ret at 1. unfold bind at 1.
      unfold dist.py_update, bind, lift, ret. simpl.
      rewrite Hupd. exact Hrun.
    + intros dep Hn. rewrite Hother by tauto. rewrite get_set.
      destruct (String.eqb_spec dep dep0) as [->|Hne]; [|reflexivity].
      exfalso. apply Hn. now left.
    + intros dep [<-|Hin].
      * destruct (in_dec String.string_dec dep0 dep_keys) as [Hin|Hn].
        -- now apply Hmine.
        -- exists s0. split; [exact Hs0|].
           rewrite Hother by assumption. rewrite get_set.
           now rewrite String.eqb_refl.
      * now apply Hmine.
Qed.

(** The last loop writes back what the document already holds. *)
Lemma store_depends_same dep_keys depends items :
  (forall dep, In dep dep_keys ->
     exists m, Dict.get dep depends = Some m
               /\ Dict.get dep items = Some (JObj (dist.drop_nulls m))) ->
  forall log,
    dist.store_depends dep_keys depends (JObj items) log
    = (Returns (JObj items), log).
Proof.
  unfold dist.store_depends.
  induction dep_keys as [|dep0 dep_keys IH]; simpl; intros H log;
    [reflexivity|].
  destruct (H dep0 (or_introl eq_refl)) as (m & Hm & Hitems).
  unfold bind at 1. unfold bind at 1. unfold dist.getitem. rewrite Hm.
  unfold ret at 1. simpl. unfold ret at 1.
  rewrite (set_same _ _ _ Hitems). apply IH. auto.
Qed.

(** [X6] Flattening is idempotent.  When the metadata of a package whose
    requirements resolve to no distribution is a document that
    [flatten_dist_egginfo_json] has returned, for the same dependency
    keys, the flattening of that package returns this very document:
    nothing is added, dropped or moved. *)
Theorem flatten_of_flattened_document :
  forall source_dist filename dep_keys working_set log result log'
         pkg working_set' log0,
    dist.flatten_dist_egginfo_json source_dist filename dep_keys working_set
      log = (Returns result, log') ->
    dist.egginfo pkg filename = dist.Text (Some result) ->
    dist.resolve working_set' (dist.requires pkg) = Returns [] ->
    fst (dist.flatten_dist_egginfo_json (Some pkg) filename dep_keys
           working_set' log0) = Returns result.
Proof.
  intros source_dist filename dep_keys ws log result log' pkg ws' log0
    Hfirst Hmeta Hres.
  (* what the first flattening has returned *)
  unfold dist.flatten_dist_egginfo_json in Hfirst.
  destruct (get_root source_dist filename log) as (log1 & Hroot).
  rewrite (bind_step _ _ _ _ _ Hroot) in Hfirst.
  apply bind_Returns in Hfirst as (depends & log2 & Hmerged & Hstore).
  pose proof (merged_depends_wf _ _ _ _ _ _ _ _ Hmerged) as Hwf.
  assert (Hor : py_or result (JObj []) = result).
  { destruct dep_keys as [|dep0 dep_keys].
    - unfold dist.store_depends in Hstore. simpl in Hstore.
      unfold ret in Hstore. injection Hstore as <- _.
      destruct source_dist as [s|]; [apply py_or_idem | reflexivity].
    - destruct (store_depends_spec _ _ _ _ _ _ Hstore dep0 (or_introl eq_refl))
        as (merged & items & _ & -> & Hget).
      destruct items; [discriminate Hget | reflexivity]. }
  (* the second flattening *)
  unfold dist.flatten_dist_egginfo_json.
  destruct (get_root (Some pkg) filename log0) as (logA & HrootA).
  rewrite (bind_step _ _ _ _ _ HrootA).
  assert (Hroot2 : flat.root_of (Some pkg) filename = result).
  { unfold flat.root_of, flat.decoded. now rewrite Hmeta. }
  rewrite Hroot2.
  unfold dist.merged_depends, dist.iter_dist_requires. cbv zeta.
  rewrite Hres, bind_assoc, bind_lift_ret. cbn [rev for_each].
  rewrite !bind_assoc, bind_ret. cbv beta. rewrite bind_assoc, bind_logmsg.
  destruct dep_keys as [|dep0 dep_keys].
  - reflexivity.
  - remember (dep0 :: dep_keys) as keys eqn:Hkeys.
    assert (Hsections : forall dep, In dep keys ->
              exists merged items,
                Dict.get dep depends = Some merged
                /\ result = JObj items
                /\ Dict.get dep items = Some (JObj (dist.drop_nulls merged))).
    { intros dep Hin. eapply store_depends_spec; eauto. }
    destruct (Hsections dep0) as (_ & items & _ & -> & _);
      [rewrite Hkeys; now left|].
    match goal with
    | |- context [dist.merge_obj keys (JObj items) ?acc] =>
        destruct (merge_obj_sections items keys) with
          (depends := acc)
          (log := logA ++ [{| lr_level := DEBUG;
                              lr_msg := "merging '" +:+ filename
                                +:+ "' for target '" +:+ dist.dist_str pkg
                                +:+ "'" |}])
          as (depends' & Hrun & _ & Hmine)
    end.
    + intros dep Hin.
      destruct (Hsections dep Hin) as (merged & items' & Hm & [= <-] & Hget).
      exists (dist.drop_nulls merged). split; [exact Hget|].
      apply drop_nulls_wf. eapply values_wf_get; eauto.
    + intros dep Hin. exists []. split; [|now left].
      rewrite init_depends_get. apply mem_In in Hin. now rewrite Hin.
    + rewrite (bind_step _ _ _ _ _ Hrun).
      rewrite store_depends_same; [reflexivity|].
      intros dep Hin. destruct (Hmine dep Hin) as (s & Hs & Hd).
      exists s. split; [exact Hd|].
      destruct (Hsections dep Hin) as (merged & items' & _ & [= <-] & Hget).
      rewrite Hget in Hs. injection Hs as <-.
      now rewrite drop_nulls_idem.
Qed.

Lemma flatten_of_flattened_document_witness :
  exists result log,
    run (dist.flatten_dist_egginfo_json (Some flat.example_package3)
           "package.json" dist.DEP_KEYS flat.example_working_set)
    = (Returns result, log)
    /\ fst (run (dist.flatten_dist_egginfo_json
                   (Some (document.standalone "flattened" "package.json"
                            result))
                   "package.json" dist.DEP_KEYS flat.example_working_set))
       = Returns result.
Proof.
  eexists _, _. split; [vm_compute; reflexivity|].
  eapply flatten_of_flattened_document with
    (source_dist := Some flat.example_package3)
    (working_set := flat.example_working_set) (log := []).
  - vm_compute. reflexivity.
  - reflexivity.
  - reflexivity.
Defined.

(** ** calmjs.dist: the levels at which the flattening logs *)

Section Emits.
Context (P : LogRecord -> Prop).

Lemma emits_ret {A} (a : A) : emits P (ret a).
Proof. intros log. exists []. split; [now rewrite app_nil_r | constructor]. Qed.

Lemma emits_raise {A} e : emits P (@raise A e).
Proof. intros log. exists []. split; [now rewrite app_nil_r | constructor]. Qed.

Lemma emits_lift {A} (o : outcome A) : emits P (lift o).
Proof. intros log. exists []. split; [now rewrite app_nil_r | constructor]. Qed.

Lemma emits_logmsg l msg :
  P {| lr_level := l; lr_msg := msg |} -> emits P (logmsg l msg).
Proof.
  intros H log. exists [{| lr_level := l; lr_msg := msg |}].
  split; [reflexivity | now repeat constructor].
Qed.

Lemma emits_bind {A B} (m : Py A) (f : A -> Py B) :
  emits P m ->
  (forall a log log', m log = (Returns a, log') -> emits P (f a)) ->
  emits P (bind m f).
Proof.
  intros Hm Hf log. destruct (Hm log) as (new1 & Hsnd & Hall1).
  unfold bind. destruct (m log) as [[a| |] log1] eqn:E; simpl in Hsnd; subst log1.
  - destruct (Hf a _ _ E (log ++ new1)) as (new2 & Hsnd2 & Hall2).
    exists (new1 ++ new2). rewrite Hsnd2, app_assoc.
    split; [reflexivity | now apply Forall_app].
  - now exists new1.
  - now exists new1.
Qed.

Lemma emits_for_each {A B} (f : A -> B -> Py A) l :
  (forall a b, In b l -> emits P (f a b)) ->
  forall a, emits P (for_each f l a).
Proof.
  induction l as [|b l IH]; intros Hf a; simpl.
  - apply emits_ret.
  - apply emits_bind; [apply Hf; now left|].
    intros a' _ _ _. apply IH. intros a0 b0 Hin. apply Hf. now right.
Qed.

Lemma emits_getitem {V} (d : list (string * V)) key :
  emits P (dist.getitem d key).
Proof.
  unfold dist.getitem. destruct (Dict.get key d);
    [apply emits_ret | apply emits_raise].
Qed.

Lemma emits_merge_obj dep_keys obj depends :
  emits P (dist.merge_obj dep_keys obj depends).
Proof.
  unfold dist.merge_obj. apply emits_for_each. intros a dep _.
  apply emits_bind; [apply emits_getitem|]. intros d _ _ _.
  apply emits_bind.
  { unfold dist.py_get. destruct obj; try apply emits_raise. apply emits_ret. }
  intros other _ _ _. apply emits_bind; [|intros; apply emits_ret].
  unfold dist.py_update. apply emits_bind; [apply emits_lift|].
  intros; apply emits_ret.
Qed.

Lemma emits_store_depends dep_keys depends root :
  emits P (dist.store_depends dep_keys depends root).
Proof.
  unfold dist.store_depends. apply emits_for_each. intros a dep _.
  apply emits_bind; [apply emits_getitem|]. intros d _ _ _.
  unfold dist.py_setitem. destruct a; try apply emits_raise. apply emits_ret.
Qed.

(** The flattening logs what the reading of the metadata logs, and
    records at the level DEBUG. *)
Lemma emits_flatten (ok : dist.Distribution -> Prop) filename :
  (forall msg, P {| lr_level := DEBUG; lr_msg := msg |}) ->
  (forall d, ok d -> emits P (dist.get_dist_egginfo_json d filename)) ->
  forall source_dist dep_keys ws,
    (forall s, source_dist = Some s -> ok s) ->
    (forall reqs ds d, dist.resolve ws reqs = Returns ds -> In d ds -> ok d) ->
    emits P (dist.flatten_dist_egginfo_json source_dist filename dep_keys ws).
Proof.
  intros HP Hget source_dist dep_keys ws Hsrc Hws.
  unfold dist.flatten_dist_egginfo_json.
  apply emits_bind.
  { destruct source_dist as [s|]; [|apply emits_ret].
    apply emits_bind; [now apply Hget, Hsrc|]. intros; apply emits_ret. }
  intros root _ _ _.
  apply emits_bind; [|intros; apply emits_store_depends].
  unfold dist.merged_depends, dist.iter_dist_requires.
  apply emits_bind.
  { apply emits_bind; [apply emits_lift|]. intros; apply emits_ret. }
  intros dists log log' Hdists.
  assert (Hok : forall d, In d dists -> ok d).
  { apply bind_Returns in Hdists as (ds & log1 & Hlift & Hret).
    unfold lift in Hlift. injection Hlift as Hres _.
    unfold ret in Hret. injection Hret as <- _.
    intros d Hin. apply in_rev in Hin. eapply Hws; eauto. }
  apply emits_bind.
  - apply emits_for_each. intros depends d Hin.
    unfold dist.merge_required.
    apply emits_bind; [now apply Hget, Hok|]. intros obj _ _ _.
    destruct (negb (truthy obj)); [apply emits_ret|].
    apply emits_bind; [apply emits_logmsg, HP|].
    intros; apply emits_merge_obj.
  - intros depends _ _ _. destruct source_dist as [s|]; [|apply emits_ret].
    apply emits_bind; [apply emits_logmsg, HP|].
    intros; apply emits_merge_obj.
Qed.
End Emits.

Lemma get_dist_egginfo_json_level d filename log :
  exists r,
    dist.get_dist_egginfo_json d filename log
    = (Returns (flat.decoded d filename), log ++ [r])
    /\ lr_level r = match dist.egginfo d filename with
                    | dist.NoMetadata | dist.Text (Some _) => DEBUG
                    | dist.ReadError | dist.Text None => ERROR
                    end.
Proof.
  unfold dist.get_dist_egginfo_json, flat.decoded, bind, logmsg, ret.
  destruct (dist.egginfo d filename) as [| |[obj|]]; simpl; eauto.
Qed.

(** [X7] The flattening never warns.  Whatever it is given and however
    it ends, [flatten_dist_egginfo_json] only appends to the log, and
    every record that it appends is at the level DEBUG or ERROR; when the
    metadata file of the target and of every distribution of the working
    set is absent or is read and decoded, every record is at the level
    DEBUG. *)
Theorem flatten_logs_at_debug_or_error :
  forall source_dist filename dep_keys working_set log,
    exists new,
      snd (dist.flatten_dist_egginfo_json source_dist filename dep_keys
             working_set log) = log ++ new
      /\ Forall (fun r => lr_level r = DEBUG \/ lr_level r = ERROR) new
      /\ ((forall s, source_dist = Some s ->
                     document.readable s filename = true) ->
          (forall reqs ds d,
             dist.resolve working_set reqs = Returns ds -> In d ds ->
             document.readable d filename = true) ->
          Forall (fun r => lr_level r = DEBUG) new).
Proof.
  intros source_dist filename dep_keys ws log.
  destruct (emits_flatten (fun r => lr_level r = DEBUG \/ lr_level r = ERROR)
              (fun _ => True) filename) with
    (source_dist := source_dist) (dep_keys := dep_keys) (ws := ws) (log := log)
    as (new & Hsnd & Hall); auto.
  { intros d _ log0.
    destruct (get_dist_egginfo_json_level d filename log0) as (r & Hr & Hl).
    exists [r]. rewrite Hr. split; [reflexivity|].
    constructor; [|constructor]. rewrite Hl. destruct (dist.egginfo d filename) as [| |[obj|]]; auto. }
  exists new. split; [exact Hsnd|]. split; [exact Hall|].
  intros Hsrc Hws.
  destruct (emits_flatten (fun r => lr_level r = DEBUG)
              (fun d => document.readable d filename = true) filename) with
    (source_dist := source_dist) (dep_keys := dep_keys) (ws := ws) (log := log)
    as (new' & Hsnd' & Hall'); auto.
  { intros d Hd log0.
    destruct (get_dist_egginfo_json_level d filename log0) as (r & Hr & Hl).
    exists [r]. rewrite Hr. split; [reflexivity|].
    constructor; [|constructor]. rewrite Hl. unfold document.readable in Hd.
    destruct (dist.egginfo d filename) as [| |[obj|]];
      try discriminate Hd; reflexivity. }
  rewrite Hsnd in Hsnd'. apply app_inv_head in Hsnd'. now subst new'.
Qed.

Lemma flatten_logs_at_debug_or_error_witness :
  exists new,
    snd (run (dist.flatten_dist_egginfo_json (Some flat.example_package5)
                "package.json" dist.DEP_KEYS flat.example_working_set))
    = new
    /\ Forall (fun r => lr_level r = DEBUG \/ lr_level r = ERROR) new.
Proof.
  destruct (flatten_logs_at_debug_or_error (Some flat.example_package5)
              "package.json" dist.DEP_KEYS flat.example_working_set [])
    as (new & Hsnd & Hall & _).
  exists new. split; [exact Hsnd | exact Hall].
Defined.

(** ** calmjs.loaderplugin: entry points that do not register *)

Section LoaderPluginMore.
Import loaderplugin plugins.

(** One turn of the loop of [_init], when it returns: an entry point
    that does not register leaves the registry as it is and one record
    in the log. *)
Lemma _init_entry_point_cases self ep log self' log' :
  _init_entry_point self ep log = (Returns self', log') ->
  (registers ep = false /\ self' = self
   /\ exists r, log' = log ++ [r]
                /\ (lr_level r = WARNING \/ lr_level r = ERROR))
  \/ (registers ep = true
      /\ exists cls,
           load ep = Returns (IsClass cls)
           /\ self' = {| registry_name := registry_name self;
                         records := <[name ep := construct (constructed self)
                                                  cls (name ep)]> (records self);
                         constructed := S (constructed self) |}
           /\ log' = log ++ match records self !! name ep with
                            | Some registered =>
                                [{| lr_level := WARNING;
                                    lr_msg := override_warning ep
                                                (handler_type registered) |}]
                            | None => []
                            end).
Proof.
  intros H. destruct (_init_entry_point_Returns _ _ _ _ _ H) as [[Hreg ->]|Hr];
    [left | now right].
  split; [exact Hreg|]. split; [reflexivity|].
  revert H. unfold _init_entry_point, registers in *.
  destruct (load ep) as [[cls|]|e|]; try discriminate.
  - destruct (is_handler cls); simpl in *.
    + destruct (init_raises cls (name ep)); [|discriminate Hreg].
      unfold bind, logmsg, ret. intros [= <-]. eauto.
    + unfold bind, logmsg, ret. intros [= <-]. eauto.
  - destruct e; try discriminate.
    unfold bind, logmsg, ret. intros [= <-]. eauto.
Qed.

(** An entry point that registers, from whatever log. *)
Lemma _init_entry_point_registers self ep log :
  registers ep = true ->
  exists cls log',
    load ep = Returns (IsClass cls)
    /\ _init_entry_point self ep log
       = (Returns {| registry_name := registry_name self;
                     records := <[name ep := construct (constructed self)
                                              cls (name ep)]> (records self);
                     constructed := S (constructed self) |}, log').
Proof.
  unfold registers, _init_entry_point.
  destruct (load ep) as [[cls|]|e|]; try discriminate.
  intros H. apply andb_true_iff in H as [-> H].
  apply negb_true_iff in H. rewrite H. simpl.
  exists cls. destruct (records self !! name ep);
    unfold bind, logmsg, ret; eauto.
Qed.

(** [X8] Entry points that cannot be used change nothing.  When [_init]
    returns, the registry is the one that the entry points that register
    a handler give on their own: an entry point whose module cannot be
    imported, whose class is no loader plugin handler, or whose class
    cannot be instantiated leaves no trace in the records, and the
    handlers are the same objects. *)
Theorem unusable_entry_points_change_nothing :
  forall self raw_entry_points log reg log',
    _init self raw_entry_points log = (Returns reg, log') ->
    forall log0,
      fst (_init self (List.filter registers raw_entry_points) log0)
      = Returns reg.
Proof.
  unfold _init. intros self l. revert self.
  induction l as [|ep l IH]; simpl; intros self log reg log' H log0.
  - unfold ret in H. now injection H as <- _.
  - apply bind_Returns in H as (self1 & log1 & Hstep & H).
    apply _init_entry_point_cases in Hstep
      as [(Hreg & -> & _)|(Hreg & cls & Hload & -> & _)]; rewrite Hreg.
    + eapply IH; eauto.
    + simpl. destruct (_init_entry_point_registers self ep log0 Hreg)
        as (cls' & log0' & Hload' & Hstep').
      rewrite Hload in Hload'. injection Hload' as <-.
      rewrite (bind_step _ _ _ _ _ Hstep'). eapply IH; eauto.
Qed.

Lemma unusable_entry_points_change_nothing_witness :
  exists reg log,
    run (_init (new_registry "calmjs.loader_plugin") [ep_json; ep_text])
    = (Returns reg, log)
    /\ fst (run (_init (new_registry "calmjs.loader_plugin") [ep_text]))
       = Returns reg.
Proof.
  eexists _, _. split; [vm_compute; reflexivity|].
  eapply (unusable_entry_points_change_nothing
            (new_registry "calmjs.loader_plugin") [ep_json; ep_text] []).
  vm_compute. reflexivity.
Defined.

(** ** calmjs.loaderplugin: what a name is bound to *)

Lemma registration_of l : forall self log reg log' k,
  for_each _init_entry_point l self log = (Returns reg, log') ->
  constructed reg = (constructed self + length (List.filter registers l))%nat
  /\ ((forallb (fun ep => negb (registers_as k ep)) l = true
       /\ records reg !! k = records self !! k)
      \/ exists pre ep post cls,
           l = pre ++ ep :: post
           /\ registers_as k ep = true
           /\ forallb (fun ep => negb (registers_as k ep)) post = true
           /\ load ep = Returns (IsClass cls)
           /\ records reg !! k
              = Some (construct
                        (constructed self + length (List.filter registers pre))
                        cls k)).
Proof.
  induction l as [|ep0 l IH]; simpl; intros self log reg log' k H.
  - unfold ret in H. injection H as <- _. split; [lia|]. now left.
  - apply bind_Returns in H as (self1 & log1 & Hstep & H).
    destruct (IH _ _ _ _ k H) as (Hcount & Hrec).
    apply _init_entry_point_cases in Hstep
      as [(Hreg & -> & _)|(Hreg & cls & Hload & -> & _)].
    + rewrite Hreg in *. split; [exact Hcount|].
      assert (Hk : registers_as k ep0 = false)
        by (unfold registers_as; now rewrite Hreg).
      destruct Hrec as [[Hnone Hsame]|
                        (pre & ep & post & cls & -> & Hep & Hpost & Hload & Hget)].
      * left. rewrite Hk. simpl. now split.
      * right. exists (ep0 :: pre), ep, post, cls. simpl. rewrite Hreg.
        repeat split; assumption.
    + rewrite Hreg. simpl in Hcount. split; [simpl; lia|].
      destruct Hrec as [[Hnone Hsame]|
                        (pre & ep & post & cls' & -> & Hep & Hpost & Hload' & Hget)].
      * simpl in Hsame. unfold registers_as at 1. rewrite Hreg. simpl.
        destruct (String.eqb_spec (name ep0) k) as [Hname|Hname]; simpl.
        -- right. exists [], ep0, l, cls. simpl.
           split; [reflexivity|]. split.
           { unfold registers_as. rewrite Hreg. simpl.
             now apply String.eqb_eq. }
           split; [exact Hnone|]. split; [exact Hload|].
           rewrite Hsame, Hname, lookup_insert_eq. f_equal. f_equal. lia.
        -- left. split; [exact Hnone|].
           rewrite Hsame. now apply lookup_insert_ne.
      * right. exists (ep0 :: pre), ep, post, cls'. simpl. rewrite Hreg.
        simpl in Hget. split; [reflexivity|]. repeat split; try assumption.
        rewrite Hget. f_equal. f_equal. simpl. lia.
Qed.

(** [X9] What [get_record] gives after [_init].  A name under which no
    entry point registers a handler has no record.  Otherwise the record
    is the handler that the last entry point registering under the name
    has constructed: an instance of the class to which that entry point
    leads, named by the name of the entry point, and the first object
    constructed after those of the entry points before it. *)
Theorem get_record_is_the_last_registration :
  forall registry raw_entry_points reg log k,
    _init (new_registry registry) raw_entry_points [] = (Returns reg, log) ->
    match get_record reg k with
    | None =>
        forallb (fun ep => negb (registers_as k ep)) raw_entry_points = true
    | Some h =>
        exists pre ep post,
          raw_entry_points = pre ++ ep :: post
          /\ registers_as k ep = true
          /\ forallb (fun ep => negb (registers_as k ep)) post = true
          /\ load ep = Returns (IsClass (handler_type h))
          /\ handler_name h = name ep
          /\ handler_id h = length (List.filter registers pre)
    end.
Proof.
  unfold _init, get_record. intros registry l reg log k H.
  destruct (registration_of l _ _ _ _ k H)
    as (_ & [[Hnone Hsame]|(pre & ep & post & cls & -> & Hep & Hpost & Hload & Hget)]).
  - rewrite Hsame. simpl. now rewrite lookup_empty.
  - rewrite Hget. exists pre, ep, post. simpl.
    repeat split; try assumption.
    unfold registers_as in Hep. apply andb_true_iff in Hep as [_ Hname].
    symmetry. now apply String.eqb_eq.
Qed.

Lemma get_record_is_the_last_registration_witness :
  exists reg log,
    run (_init (new_registry "calmjs.loader_plugin")
           [ep_text; ep_json; ep_other_text]) = (Returns reg, log)
    /\ match get_record reg "text" with
       | None =>
           forallb (fun ep => negb (registers_as "text" ep))
             [ep_text; ep_json; ep_other_text] = true
       | Some h =>
           exists pre ep post,
             [ep_text; ep_json; ep_other_text] = pre ++ ep :: post
             /\ registers_as "text" ep = true
             /\ forallb (fun ep => negb (registers_as "text" ep)) post = true
             /\ load ep = Returns (IsClass (handler_type h))
             /\ handler_name h = name ep
             /\ handler_id h = length (List.filter registers pre)
       end.
Proof.
  eexists _, _. split; [vm_compute; reflexivity|].
  eapply (get_record_is_the_last_registration "calmjs.loader_plugin"
            [ep_text; ep_json; ep_other_text] _ _ "text").
  vm_compute. reflexivity.
Defined.

(** ** calmjs.loaderplugin: every entry point is accounted for *)

Lemma accounting l : forall self log reg log',
  for_each _init_entry_point l self log = (Returns reg, log') ->
  exists new,
    log' = log ++ new
    /\ Forall (fun r => lr_level r = WARNING \/ lr_level r = ERROR) new
    /\ (length l + size (records self) = size (records reg) + length new)%nat.
Proof.
  induction l as [|ep l IH]; simpl; intros self log reg log' H.
  - unfold ret in H. injection H as <- <-. exists [].
    rewrite app_nil_r. split; [reflexivity|]. split; [constructor|].
    simpl. lia.
  - apply bind_Returns in H as (self1 & log1 & Hstep & H).
    destruct (IH _ _ _ _ H) as (new & -> & Hall & Hcount).
    apply _init_entry_point_cases in Hstep
      as [(_ & -> & r & -> & Hr)|(_ & cls & _ & -> & ->)].
    + exists (r :: new). rewrite <- app_assoc. split; [reflexivity|].
      split; [now constructor|]. simpl. lia.
    + simpl in Hcount. destruct (records self !! name ep) as [old|] eqn:E.
      * rewrite map_size_insert_Some in Hcount by eauto.
        exists ({| lr_level := WARNING;
                   lr_msg := override_warning ep (handler_type old) |}
                  :: new). rewrite <- app_assoc.
        split; [reflexivity|]. split; [constructor; [now left | exact Hall]|].
        simpl. lia.
      * rewrite map_size_insert_None in Hcount by assumption.
        exists new. rewrite app_nil_r. split; [reflexivity|].
        split; [exact Hall|]. lia.
Qed.

(** [X10] No entry point is dropped in silence.  When [_init] returns,
    the number of entry points is the number of names that have a record
    plus the number of records that [_init] has logged, and each of those
    is a warning or an error: an entry point that does not stand behind a
    record at the end has been reported, whether it could not be used or
    was overridden by a later one. *)
Theorem every_entry_point_is_registered_or_reported :
  forall registry raw_entry_points reg log,
    _init (new_registry registry) raw_entry_points [] = (Returns reg, log) ->
    length raw_entry_points = (size (records reg) + length log)%nat
    /\ Forall (fun r => lr_level r = WARNING \/ lr_level r = ERROR) log.
Proof.
  unfold _init. intros registry l reg log H.
  destruct (accounting l _ _ _ _ H) as (new & Hlog & Hall & Hcount).
  simpl in Hlog. subst new. split; [|exact Hall].
  simpl in Hcount. rewrite map_size_empty in Hcount. lia.
Qed.

Lemma every_entry_point_is_registered_or_reported_witness :
  exists reg log,
    run (_init (new_registry "calmjs.loader_plugin")
           [ep_text; ep_json; ep_other_text]) = (Returns reg, log)
    /\ 3%nat = (size (records reg) + length log)%nat.
Proof.
  eexists _, _. split; [vm_compute; reflexivity|].
  eapply (every_entry_point_is_registered_or_reported "calmjs.loader_plugin"
            [ep_text; ep_json; ep_other_text]).
  vm_compute. reflexivity.
Defined.

(** ** calmjs.loaderplugin: errors that [_init] does not catch *)

(** [X11] Only a failed import is tolerated when an entry point is
    loaded.  When the loading of an entry point raises another exception
    than [ImportError], [_init] raises that exception, and when it leads
    to an object that is no class, [_init] raises [TypeError]; the entry
    points before it have been processed and logged, the ones after it
    are not looked at. *)
Theorem _init_does_not_catch_other_errors :
  forall self pre ep post log self1 log1,
    _init self pre log = (Returns self1, log1) ->
    (forall e, load ep = Raises e -> e <> ImportError ->
       _init self (pre ++ ep :: post) log = (Raises e, log1))
    /\ (load ep = Returns NotAClass ->
        _init self (pre ++ ep :: post) log = (Raises TypeError, log1)).
Proof.
  unfold _init. intros self pre ep post log self1 log1 Hpre. split.
  - intros e Hload Hne. rewrite for_each_app, (bind_step _ _ _ _ _ Hpre).
    simpl. unfold bind, _init_entry_point. rewrite Hload.
    destruct e; try reflexivity. contradiction.
  - intros Hload. rewrite for_each_app, (bind_step _ _ _ _ _ Hpre).
    simpl. unfold bind, _init_entry_point. now rewrite Hload.
Qed.

Lemma _init_does_not_catch_other_errors_witness :
  run (_init (new_registry "calmjs.loader_plugin")
         [ep_text; plugins_more.ep_unresolved; ep_other_text])
  = (Raises ResolutionError, []).
Proof.
  exact (proj1 (_init_does_not_catch_other_errors
                  (new_registry "calmjs.loader_plugin") [ep_text]
                  plugins_more.ep_unresolved [ep_other_text] [] _ [] eq_refl)
           ResolutionError eq_refl ltac:(discriminate)).
Defined.

End LoaderPluginMore.

(** ** calmjs.loaderplugin: strip_plugin *)

Lemma app_cons c (a b : string) : String c a +:+ b = String c (a +:+ b).
Proof. reflexivity. Qed.

Lemma app_empty (b : string) : EmptyString +:+ b = b.
Proof. reflexivity. Qed.

Lemma app_assoc_string (a b c : string) : (a +:+ b) +:+ c = a +:+ (b +:+ c).
Proof.
  induction a as [|x a IH]; [reflexivity|].
  now rewrite !app_cons, IH.
Qed.

Lemma partition_spec sep value :
  match loaderplugin.partition sep value with
  | (before, Some after) => value = before +:+ String sep after
  | (before, None) => value = before
  end.
Proof.
  induction value as [|c value IH]; simpl; [reflexivity|].
  destruct (Ascii.eqb_spec c sep) as [->|Hne]; [reflexivity|].
  destruct (loaderplugin.partition sep value) as [before [after|]];
    rewrite ?app_cons; now rewrite IH at 1.
Qed.

Lemma partition_first sep name rest :
  ~ In sep (list_ascii_of_string name) ->
  loaderplugin.partition sep (name +:+ String sep rest) = (name, Some rest).
Proof.
  induction name as [|c name IH]; intros Hn.
  - rewrite app_empty. simpl. now rewrite Ascii.eqb_refl.
  - rewrite app_cons. simpl in *.
    destruct (Ascii.eqb_spec c sep) as [->|Hne]; [exfalso; apply Hn; now left|].
    rewrite IH; [reflexivity|]. intros Hin. apply Hn. now right.
Qed.

Lemma prefix_app a rest : String.prefix a (a +:+ rest) = true.
Proof.
  induction a as [|c a IH]; [now destruct rest|].
  rewrite app_cons. simpl.
  destruct (ascii_dec c c); [exact IH | contradiction].
Qed.

(** [X12] What [strip_plugin] removes.  For a handler whose name has no
    exclamation mark, a value that starts with the name and an
    exclamation mark loses exactly that prefix; a value that does not
    start with them is returned as it is; and whatever the name, the
    result is the value without some of its first characters. *)
Theorem strip_plugin_removes_the_prefix :
  forall self value,
    (forall rest,
       value = loaderplugin.handler_name self +:+ "!" +:+ rest ->
       ~ In "!"%char (list_ascii_of_string (loaderplugin.handler_name self)) ->
       loaderplugin.strip_plugin self value = rest)
    /\ (String.prefix (loaderplugin.handler_name self +:+ "!") value = false ->
        loaderplugin.strip_plugin self value = value)
    /\ (exists removed,
          value = removed +:+ loaderplugin.strip_plugin self value).
Proof.
  intros self value. unfold loaderplugin.strip_plugin, loaderplugin.split1.
  split; [|split].
  - intros rest -> Hn.
    rewrite <- app_assoc_string, prefix_app, app_assoc_string.
    change ("!" +:+ rest) with (String "!"%char rest).
    now rewrite partition_first.
  - now intros ->.
  - destruct (String.prefix _ value); [|now exists EmptyString].
    pose proof (partition_spec "!"%char value) as H.
    destruct (loaderplugin.partition "!" value) as [before [after|]]; simpl.
    + exists (before +:+ "!"). now rewrite app_assoc_string.
    + now exists EmptyString.
Qed.

Lemma strip_plugin_removes_the_prefix_witness :
  loaderplugin.strip_plugin
    (loaderplugin.construct 0 plugins.text_handler "text")
    "text!some/file.txt"
  = "some/file.txt".
Proof.
  refine (proj1 (strip_plugin_removes_the_prefix
                   (loaderplugin.construct 0 plugins.text_handler "text")
                   "text!some/file.txt") "some/file.txt" eq_refl _).
  simpl. intros [H|[H|[H|[H|[]]]]]; discriminate H.
Defined.

(** ** json.dumps and the order of decoded keys *)

Section CodecBridge.
Import pyvalue json_encoder written.

Lemma str_compare_of_string a : forall b,
  str_compare (of_string a) (of_string b) = String.compare a b.
Proof.
  induction a as [|x a IH]; intros [|y b]; try reflexivity.
  change (str_compare (of_string (String x a)) (of_string (String y b)))
    with (match (N_of_ascii x ?= N_of_ascii y)%N with
          | Eq => str_compare (of_string a) (of_string b)
          | c => c
          end).
  rewrite IH. reflexivity.
Qed.

Lemma key_leb_of_string a b :
  key_leb (KStr (of_string a)) (KStr (of_string b)) = String.leb a b.
Proof.
  unfold key_leb, String.leb. now rewrite str_compare_of_string.
Qed.

(** The items of a decoded dictionary are put in the same order by the
    two orders. *)
Lemma sort_items_of_strings {V W} (f : V -> W) (l : list (string * V)) :
  sort_items (map (fun kv => (KStr (of_string (fst kv)), f (snd kv))) l)
  = map (fun kv => (KStr (of_string (fst kv)), f (snd kv)))
      (json_order.sorted_items l).
Proof.
  induction l as [|x l IH]; [reflexivity|].
  cbn [map]. unfold sort_items, json_order.sorted_items in *.
  cbn [fold_right]. rewrite IH.
  generalize (fold_right json_order.insert_item [] l). intros s.
  induction s as [|y s IHs]; [reflexivity|].
  cbn [map insert_item json_order.insert_item fst snd].
  rewrite key_leb_of_string.
  destruct (String.leb (fst x) (fst y)); [reflexivity|].
  cbn [map fst snd]. now rewrite IHs.
Qed.

Lemma sorted_items_nonempty {V} (x : string * V) l :
  json_order.sorted_items (x :: l) <> [].
Proof.
  intros H. pose proof (sorted_items_Permutation (x :: l)) as Hp.
  rewrite H in Hp. now apply Permutation_nil_l in Hp.
Qed.

Variable indent : nat.

(** The text of a list that is not empty. *)
Lemma text_list xs level :
  xs <> [] ->
  codec.text indent (JArr xs) level
  = "[" +:+ newline_indent indent (S level)
      +:+ String.concat ("," +:+ newline_indent indent (S level))
            (map (fun x => codec.text indent x (S level)) xs)
      +:+ newline_indent indent level +:+ "]".
Proof.
  destruct xs as [|x xs]; [congruence|]. intros _.
  unfold codec.text. cbn [codec.of_json canonical map layout].
  now rewrite !map_map.
Qed.

(** The text of a dictionary that is not empty: the items in the order
    of their keys, each written with its key, the key separator and the
    text of its value one level deeper. *)
Lemma text_dict items level :
  items <> [] ->
  codec.text indent (JObj items) level
  = "{" +:+ newline_indent indent (S level)
      +:+ String.concat ("," +:+ newline_indent indent (S level))
            (map (codec.item_text indent (S level))
               (json_order.sorted_items items))
      +:+ newline_indent indent level +:+ "}".
Proof.
  destruct items as [|kv items]; [congruence|]. intros _.
  unfold codec.text at 1. cbn [codec.of_json canonical].
  rewrite map_map. cbn [fst snd].
  rewrite (sort_items_of_strings
             (fun v => canonical (codec.of_json v)) (kv :: items)).
  pose proof (sorted_items_nonempty kv items) as Hne.
  destruct (json_order.sorted_items (kv :: items)) as [|kv' sorted];
    [congruence|].
  cbn [map layout]. now rewrite !map_map.
Qed.

(** The value as Python has it, with its keys in order. *)
Lemma canonical_of_json v :
  canonical (codec.of_json v) = codec.of_json (codec.sorted v).
Proof.
  induction v as [| b | z | r | s | xs IH | items IH] using json_ind';
    try reflexivity.
  - cbn [codec.of_json codec.sorted canonical]. f_equal.
    rewrite !map_map. apply map_ext_in. intros x Hx.
    rewrite List.Forall_forall in IH. now apply IH.
  - cbn [codec.of_json codec.sorted canonical]. f_equal.
    rewrite map_map. cbn [fst snd].
    rewrite (sort_items_of_strings
               (fun v => canonical (codec.of_json v)) items).
    assert (E : map (fun kv : string * json =>
                       match kv with (k, v) => (k, codec.sorted v) end) items
                = map (fun kv => (fst kv, codec.sorted (snd kv))) items)
      by (apply map_ext; now intros [k v]).
    rewrite E, sorted_items_map, map_map. cbn [fst snd].
    apply map_ext_in. intros [k v] Hkv. cbn [fst snd]. f_equal.
    rewrite List.Forall_forall in IH. apply (IH (k, v)).
    apply list_elem_of_In. rewrite <- (sorted_items_Permutation items).
    now apply list_elem_of_In.
Qed.

End CodecBridge.

(** ** json.loads: strings *)

Section DecoderStrings.
Import pyvalue json_encoder json_decoder.

Lemma app_empty_r (s : string) : s +:+ EmptyString = s.
Proof. induction s as [|c s IH]; [reflexivity|]. now rewrite app_cons, IH. Qed.

Lemma length_app (a b : string) :
  String.length (a +:+ b) = (String.length a + String.length b)%nat.
Proof.
  induction a as [|c a IH]; [reflexivity|].
  rewrite app_cons. simpl. now rewrite IH.
Qed.

(** One character, escaped and scanned. *)
Lemma scanstring_escape_ascii c tail :
  scanstring (escape (N_of_ascii c) +:+ tail) = with_char c (scanstring tail).
Proof. destruct c as [[] [] [] [] [] [] [] []]; reflexivity. Qed.

(** A string, escaped and scanned up to the closing quote. *)
Lemma scanstring_escape_string s rest :
  scanstring (escape_str (of_string s) +:+ String dquote rest)
  = Decoded (s, rest).
Proof.
  induction s as [|c s IH].
  - reflexivity.
  - change (escape_str (of_string (String c s)))
      with (escape (N_of_ascii c) +:+ escape_str (of_string s)).
    now rewrite app_assoc_string, scanstring_escape_ascii, IH.
Qed.

Lemma scanstring_encoded s rest :
  exists t,
    encode_basestring_ascii (of_string s) +:+ rest = String dquote t
    /\ scanstring t = Decoded (s, rest).
Proof.
  exists (escape_str (of_string s) +:+ String dquote rest). split.
  - unfold encode_basestring_ascii. rewrite app_cons, app_assoc_string.
    reflexivity.
  - apply scanstring_escape_string.
Qed.
End DecoderStrings.

(** ** json.loads: integers *)

Section DecoderNumbers.
Import json_encoder json_decoder.

Lemma pretty_N_char_digit d :
  (d < 10)%N ->
  is_digit (pretty_N_char d) = true
  /\ (N_of_ascii (pretty_N_char d) - 48 = d)%N
  /\ (d <> 0%N -> Ascii.eqb (pretty_N_char d) "0" = false).
Proof.
  intros Hd.
  assert (H : (d = 0 \/ d = 1 \/ d = 2 \/ d = 3 \/ d = 4 \/ d = 5 \/ d = 6
               \/ d = 7 \/ d = 8 \/ d = 9)%N) by lia.
  repeat destruct H as [H|H]; subst d; repeat split; try reflexivity;
    intros; congruence.
Qed.

Lemma int_of_digits_app a : forall acc b,
  int_of_digits acc (a +:+ b) = int_of_digits (int_of_digits acc a) b.
Proof.
  induction a as [|c a IH]; intros acc b; [reflexivity|].
  rewrite app_cons. simpl. apply IH.
Qed.

Lemma forallb_digits_app a b :
  forallb is_digit (list_ascii_of_string (a +:+ b))
  = forallb is_digit (list_ascii_of_string a)
    && forallb is_digit (list_ascii_of_string b).
Proof.
  induction a as [|c a IH]; [reflexivity|].
  rewrite app_cons. simpl. now rewrite IH, andb_assoc.
Qed.

(** The digits that [pretty] writes for a positive number: the first is
    not a zero, and read as a decimal number they give the number. *)
Lemma pretty_N_go_digits x :
  (0 < x)%N ->
  exists d ds,
    (forall s, pretty_N_go x s = String d (ds +:+ s))
    /\ is_digit d = true
    /\ Ascii.eqb d "0" = false
    /\ forallb is_digit (list_ascii_of_string ds) = true
    /\ exists k, forall acc,
         int_of_digits acc (String d ds) = (acc * 10 ^ k + x)%N.
Proof.
  induction (N.lt_wf_0 x) as [x _ IH]. intros Hx.
  assert (Hmod : (x mod 10 < 10)%N) by (apply N.mod_lt; lia).
  destruct (pretty_N_char_digit _ Hmod) as (Hdig & Hval & Hnz).
  destruct (N.ltb_spec x 10) as [Hsmall|Hbig].
  - exists (pretty_N_char (x mod 10)), EmptyString.
    split; [|split; [|split; [|split]]].
    + intros s. rewrite pretty_N_go_step by assumption.
      rewrite N.div_small by assumption. now rewrite pretty_N_go_0.
    + exact Hdig.
    + apply Hnz. rewrite N.mod_small by assumption. lia.
    + reflexivity.
    + exists 1%N. intros acc. simpl. rewrite Hval.
      rewrite N.mod_small by assumption. lia.
  - destruct (IH (x / 10)%N) as (d & ds & Hgo & Hd & Hd0 & Hds & k & Hk).
    + apply N.div_lt; lia.
    + apply N.div_str_pos. lia.
    + exists d, (ds +:+ String (pretty_N_char (x mod 10)) EmptyString).
      split; [|split; [|split; [|split]]].
      * intros s. rewrite pretty_N_go_step by assumption. rewrite Hgo.
        now rewrite app_assoc_string.
      * exact Hd.
      * exact Hd0.
      * rewrite forallb_digits_app, Hds. simpl. now rewrite Hdig.
      * exists (k + 1)%N. intros acc.
        change (String d (ds +:+ String (pretty_N_char (x mod 10)) ""))
          with (String d ds +:+ String (pretty_N_char (x mod 10)) "").
        rewrite int_of_digits_app, Hk. simpl. rewrite Hval.
        rewrite N.pow_add_r, N.pow_1_r.
        pose proof (N.div_mod x 10). lia.
Qed.

Lemma span_digits_app ds rest :
  forallb is_digit (list_ascii_of_string ds) = true ->
  match rest with
  | EmptyString => true
  | String c _ => negb (is_digit c)
  end = true ->
  span_digits (ds +:+ rest) = (ds, rest).
Proof.
  intros Hds Hrest. induction ds as [|c ds IH].
  - rewrite app_empty. destruct rest as [|c r]; [reflexivity|].
    simpl. apply negb_true_iff in Hrest. now rewrite Hrest.
  - rewrite app_cons. simpl in *. apply andb_true_iff in Hds as [Hc Hds].
    now rewrite Hc, IH.
Qed.

Lemma delimited_cases rest :
  codec.delimited rest = true ->
  rest = EmptyString
  \/ (exists r, rest = String "," r)
  \/ exists r, rest = String newline r.
Proof.
  destruct rest as [|c r]; [now left|]. simpl. intros H.
  apply orb_true_iff in H as [H|H]; apply Ascii.eqb_eq in H; subst; eauto.
Qed.

(** What follows a value is not read as a part of a number. *)
Lemma delimited_number rest :
  codec.delimited rest = true ->
  match rest with
  | EmptyString => true
  | String c _ => negb (is_digit c)
  end = true
  /\ match_frac rest = None /\ match_exp rest = None.
Proof.
  intros H. apply delimited_cases in H as [->|[[r ->]|[r ->]]];
    repeat split; try reflexivity; now destruct r.
Qed.

Lemma digit_cases d :
  is_digit d = true ->
  d = "0"%char \/ d = "1"%char \/ d = "2"%char \/ d = "3"%char
  \/ d = "4"%char \/ d = "5"%char \/ d = "6"%char \/ d = "7"%char
  \/ d = "8"%char \/ d = "9"%char.
Proof.
  destruct d as [[] [] [] [] [] [] [] []]; intros H; try discriminate H;
    tauto.
Qed.

(** The text of an integer is read as that integer. *)
Lemma scan_once_int float_repr z rest fuel limit :
  small_int z = true ->
  codec.delimited rest = true ->
  scan_once float_repr (S fuel) limit (pretty z +:+ rest)
  = Decoded (JInt z, rest).
Proof.
  intros Hsmall Hrest.
  destruct (delimited_number rest Hrest) as (Hnd & Hfrac & Hexp).
  assert (Hdigits : forall p negative,
            exists d ds,
              pretty (Npos p) = String d ds
              /\ is_digit d = true
              /\ match_integer
                   ((if negative : bool then "-" else "")
                      +:+ pretty (Npos p) +:+ rest)
                 = Some (negative, String d ds, rest)
              /\ int_of_digits 0 (String d ds) = Npos p).
  { intros p negative.
    destruct (pretty_N_go_digits (Npos p)) as (d & ds & Hgo & Hd & Hd0 & Hds & k & Hk);
      [lia|].
    exists d, ds.
    assert (Hp : pretty (Npos p) = String d ds).
    { unfold pretty, pretty_N. rewrite decide_False by discriminate.
      now rewrite Hgo, app_empty_r. }
    split; [exact Hp|]. split; [exact Hd|]. split.
    - rewrite Hp, app_cons. unfold match_integer.
      assert (Hminus : Ascii.eqb d "-" = false)
        by (apply digit_cases in Hd; repeat destruct Hd as [Hd|Hd];
            now subst d).
      destruct negative; [rewrite app_cons, app_empty | rewrite app_empty].
      + cbn [Ascii.eqb Bool.eqb]. cbv iota.
        now rewrite Hd0, Hd, span_digits_app.
      + rewrite Hminus. now rewrite Hd0, Hd, span_digits_app.
    - rewrite Hk. lia. }
  assert (Hlen : forall p, small_int (Z.pos p) = true \/ small_int (Z.neg p) = true ->
            (4300 <? String.length (pretty (Npos p)))%nat = false).
  { intros p H. apply Nat.ltb_ge.
    destruct H as [H|H]; unfold small_int in H; apply Nat.leb_le in H;
      exact H. }
  destruct z as [|p|p].
  - change (pretty 0%Z) with "0". rewrite app_cons, app_empty.
    cbn. unfold scan_number, match_integer. cbn. now rewrite Hfrac, Hexp.
  - destruct (Hdigits p false) as (d & ds & Hp & Hd & Hint & Hval).
    rewrite app_empty in Hint.
    pose proof (Hlen p (or_introl Hsmall)) as Hl. rewrite Hp in Hl.
    change (pretty (Z.pos p)) with (pretty (Npos p)) in *.
    assert (Hscan : scan_once float_repr (S fuel) limit
                      (pretty (N.pos p) +:+ rest)
                    = scan_number float_repr (pretty (N.pos p) +:+ rest)).
    { rewrite Hp, app_cons.
      apply digit_cases in Hd; repeat destruct Hd as [Hd|Hd]; now subst d. }
    rewrite Hscan. unfold scan_number. rewrite Hint, Hfrac, Hexp.
    cbv zeta. rewrite Hl, Hval. reflexivity.
  - destruct (Hdigits p true) as (d & ds & Hp & Hd & Hint & Hval).
    pose proof (Hlen p (or_intror Hsmall)) as Hl. rewrite Hp in Hl.
    change (pretty (Z.neg p)) with ("-" +:+ pretty (Npos p)).
    rewrite app_assoc_string.
    assert (Hscan : scan_once float_repr (S fuel) limit
                      ("-" +:+ pretty (N.pos p) +:+ rest)
                    = scan_number float_repr
                        ("-" +:+ pretty (N.pos p) +:+ rest)).
    { rewrite Hp, !app_cons, app_empty.
      apply digit_cases in Hd; repeat destruct Hd as [Hd|Hd]; now subst d. }
    rewrite Hscan. unfold scan_number. rewrite Hint, Hfrac, Hexp.
    cbv zeta. rewrite Hl, Hval. reflexivity.
Qed.
End DecoderNumbers.

(** ** json.loads: lists and dictionaries *)

Section DecoderStructure.
Import pyvalue json_encoder json_decoder.
Variable indent : nat.

Abbreviation ie := (codec.text indent).
Abbreviation nl := (newline_indent indent).
Abbreviation sep level := ("," +:+ newline_indent indent level).

Lemma skip_ws_start c t : is_ws c = false -> skip_ws (String c t) = String c t.
Proof. intros H. simpl. now rewrite H. Qed.

Lemma skip_ws_spaces n t : skip_ws (spaces n +:+ t) = skip_ws t.
Proof. induction n as [|n IH]; [reflexivity|]. simpl spaces. now rewrite app_cons. Qed.

Lemma skip_ws_nl level t : skip_ws (nl level +:+ t) = skip_ws t.
Proof.
  unfold newline_indent. rewrite app_cons.
  change (skip_ws (String newline (spaces (indent * level) +:+ t)))
    with (skip_ws (spaces (indent * level) +:+ t)).
  apply skip_ws_spaces.
Qed.

Lemma delimited_nl level t : codec.delimited (nl level +:+ t) = true.
Proof. unfold newline_indent. now rewrite app_cons. Qed.

Lemma delimited_comma t : codec.delimited (String "," t) = true.
Proof. reflexivity. Qed.

(** The first character of the text of a value. *)
Lemma iterencode_starts v level :
  codec.float_free v = true ->
  exists c t,
    ie v level = String c t /\ is_ws c = false /\ Ascii.eqb c "]" = false.
Proof.
  destruct v as [| [] | z | r | s | [|x xs] | [|kv items]]; intros Hf;
    try discriminate Hf;
    try (eexists _, _; split; [reflexivity | split; reflexivity]).
  - destruct z as [|p|p].
    + eexists _, _; split; [reflexivity | split; reflexivity].
    + destruct (pretty_N_go_digits (Npos p)) as (d & ds & Hgo & Hd & _);
        [lia|].
      exists d, ds. split.
      * change (ie (JInt (Z.pos p)) level) with (pretty (Npos p)).
        unfold pretty, pretty_N. rewrite decide_False by discriminate.
        now rewrite Hgo, app_empty_r.
      * apply digit_cases in Hd; repeat destruct Hd as [Hd|Hd]; now subst d.
    + eexists _, _; split; [reflexivity | split; reflexivity].
  - eexists _, _. rewrite text_dict by discriminate. rewrite app_cons.
    split; [reflexivity | split; reflexivity].
Qed.

Lemma concat_cons_app (s : string) a l (R : string) :
  exists R', String.concat s (a :: l) +:+ R = a +:+ R'.
Proof.
  destruct l as [|b l].
  - now exists R.
  - exists (s +:+ String.concat s (b :: l) +:+ R).
    change (String.concat s (a :: b :: l))
      with (a +:+ s +:+ String.concat s (b :: l)).
    now rewrite !app_assoc_string.
Qed.

(** After the white space of an indentation, the next value. *)
Lemma skip_ws_to_value level v level' (s : string) l (R : string) :
  codec.float_free v = true ->
  exists c t,
    skip_ws (nl level +:+ String.concat s (ie v level' :: l) +:+ R)
    = String c t
    /\ String c t = String.concat s (ie v level' :: l) +:+ R
    /\ Ascii.eqb c "]" = false.
Proof.
  intros Hf. rewrite skip_ws_nl.
  destruct (concat_cons_app s (ie v level') l R) as (R' & ->).
  destruct (iterencode_starts v level' Hf) as (c & t & -> & Hws & Hb).
  exists c, (t +:+ R'). rewrite app_cons. split; [|split; [reflexivity|exact Hb]].
  now apply skip_ws_start.
Qed.

Section Loops.
Variable scan : string -> decoding (json * string).

Abbreviation reads_back := (codec.reads_back scan indent).

Lemma array_loop_ok level : forall xs values fuel rest,
  xs <> [] ->
  (length xs <= fuel)%nat ->
  Forall (reads_back (S level)) xs ->
  array_loop scan fuel values
    (String.concat (sep (S level)) (map (fun x => ie x (S level)) xs)
       +:+ nl level +:+ "]" +:+ rest)
  = Decoded (JArr (values ++ map codec.sorted xs), rest).
Proof.
  induction xs as [|x xs IH]; [congruence|].
  intros values fuel rest _ Hlen HF.
  destruct fuel as [|fuel]; [simpl in Hlen; lia|].
  apply Forall_cons in HF as [[Hfx Hx] HF].
  destruct xs as [|y xs].
  - cbn [map String.concat array_loop].
    rewrite Hx by apply delimited_nl.
    rewrite skip_ws_nl. reflexivity.
  - change (String.concat (sep (S level))
              (map (fun x => ie x (S level)) (x :: y :: xs)))
      with (ie x (S level) +:+ sep (S level)
              +:+ String.concat (sep (S level))
                    (map (fun x => ie x (S level)) (y :: xs))).
    rewrite !app_assoc_string. rewrite app_cons, app_empty.
    cbn [array_loop]. rewrite Hx by apply delimited_comma.
    rewrite skip_ws_start by reflexivity.
    cbn [Ascii.eqb Bool.eqb]. cbv iota.
    pose proof HF as HF'. apply Forall_cons in HF' as [[Hfy _] _].
    cbn [map] in IH |- *.
    destruct (skip_ws_to_value (S level) y (S level) (sep (S level))
                (map (fun x => ie x (S level)) xs)
                (nl level +:+ "]" +:+ rest) Hfy) as (c & t & -> & -> & _).
    rewrite IH; [|discriminate | simpl in *; lia | exact HF].
    now rewrite <- app_assoc.
Qed.

Abbreviation item_text := (codec.item_text indent).

Lemma item_text_starts level kv (R : string) :
  item_text level kv +:+ R
  = String dquote
      (escape_str (of_string (fst kv))
         +:+ String dquote (String ":" (String " " (ie (snd kv) level +:+ R)))).
Proof.
  unfold codec.item_text, encode_basestring_ascii.
  rewrite !app_assoc_string, app_cons, app_assoc_string.
  rewrite !app_cons, !app_empty. reflexivity.
Qed.

Lemma object_loop_ok level : forall items pairs fuel rest T,
  items <> [] ->
  (length items <= fuel)%nat ->
  Forall (fun kv => reads_back (S level) (snd kv)) items ->
  String dquote T
  = String.concat (sep (S level)) (map (item_text (S level)) items)
      +:+ nl level +:+ "}" +:+ rest ->
  object_loop scan fuel pairs T
  = Decoded
      (JObj (Dict.update []
               (pairs ++ map (fun kv => (fst kv, codec.sorted (snd kv))) items)),
       rest).
Proof.
  induction items as [|[k v] items IH]; [congruence|].
  intros pairs fuel rest T _ Hlen HF HT.
  destruct fuel as [|fuel]; [simpl in Hlen; lia|].
  apply Forall_cons in HF as [[Hfv Hv] HF]. simpl in Hfv, Hv.
  destruct (iterencode_starts v (S level) Hfv) as (c & t & Hc & Hws & _).
  destruct items as [|kv' items].
  - cbn [map String.concat] in HT.
    rewrite item_text_starts in HT. injection HT as ->.
    cbn [object_loop]. rewrite scanstring_escape_string.
    rewrite skip_ws_start by reflexivity.
    cbn [Ascii.eqb Bool.eqb]. cbv iota.
    change (skip_ws (String " " ?s)) with (skip_ws s).
    cbn [snd]. rewrite Hc, app_cons, skip_ws_start by assumption.
    rewrite <- app_cons, <- Hc.
    rewrite Hv by apply delimited_nl.
    rewrite skip_ws_nl. reflexivity.
  - change (String.concat (sep (S level))
              (map (item_text (S level)) ((k, v) :: kv' :: items)))
      with (item_text (S level) (k, v) +:+ sep (S level)
              +:+ String.concat (sep (S level))
                    (map (item_text (S level)) (kv' :: items))) in HT.
    rewrite !app_assoc_string in HT.
    destruct (concat_cons_app (sep (S level)) (item_text (S level) kv')
                (map (item_text (S level)) items)
                (nl level +:+ "}" +:+ rest)) as (R' & HR).
    change (item_text (S level) kv' :: map (item_text (S level)) items)
      with (map (item_text (S level)) (kv' :: items)) in HR.
    rewrite item_text_starts in HR.
    rewrite HR in HT.
    rewrite item_text_starts in HT. injection HT as ->.
    cbn [object_loop]. rewrite scanstring_escape_string.
    rewrite skip_ws_start by reflexivity.
    cbn [Ascii.eqb Bool.eqb]. cbv iota.
    change (skip_ws (String " " ?s)) with (skip_ws s).
    cbn [snd]. rewrite Hc, app_cons, skip_ws_start by assumption.
    rewrite <- app_cons, <- Hc.
    rewrite app_cons, app_empty.
    rewrite Hv by apply delimited_comma.
    rewrite skip_ws_start by reflexivity.
    cbn [Ascii.eqb Bool.eqb]. cbv iota.
    rewrite skip_ws_nl.
    rewrite skip_ws_start by reflexivity.
    rewrite Ascii.eqb_refl.
    rewrite (IH (pairs ++ [(k, codec.sorted v)]) fuel rest);
      [|discriminate | simpl in *; lia | exact HF
       | now rewrite HR].
    now rewrite <- app_assoc.
Qed.
End Loops.

Lemma length_concat_elem (s : string) l x :
  In x l -> (String.length x <= String.length (String.concat s l))%nat.
Proof.
  induction l as [|a l IH]; [contradiction|].
  destruct l as [|b l].
  - intros [<-|[]]. simpl. lia.
  - change (String.concat s (a :: b :: l))
      with (a +:+ s +:+ String.concat s (b :: l)).
    rewrite !length_app. intros [<-|Hin]; [lia|].
    specialize (IH Hin). lia.
Qed.

Lemma length_concat_count (s : string) l :
  (forall x, In x l -> (1 <= String.length x)%nat) ->
  (length l <= String.length (String.concat s l))%nat.
Proof.
  induction l as [|a l IH]; intros H; [simpl; lia|].
  destruct l as [|b l].
  - simpl. apply H. now left.
  - change (String.concat s (a :: b :: l))
      with (a +:+ s +:+ String.concat s (b :: l)).
    rewrite !length_app.
    assert (1 <= String.length a)%nat by (apply H; now left).
    assert (length (b :: l) <= String.length (String.concat s (b :: l)))%nat
      by (apply IH; intros x Hx; apply H; now right).
    simpl in *. lia.
Qed.

Lemma iterencode_length v level :
  codec.float_free v = true -> (1 <= String.length (ie v level))%nat.
Proof.
  intros Hf. destruct (iterencode_starts v level Hf) as (c & t & -> & _).
  simpl. lia.
Qed.

(** The text that [json.dumps] writes for a value, followed by delimited
    text, is scanned as the value with its keys in order. *)
Lemma scan_once_iterencode float_repr v : forall limit level rest fuel,
  codec.float_free v = true ->
  written.writable limit (codec.of_json v) = true ->
  (String.length (ie v level) <= fuel)%nat ->
  codec.delimited rest = true ->
  scan_once float_repr fuel limit (ie v level +:+ rest)
  = Decoded (codec.sorted v, rest).
Proof.
  induction v as [| b | z | r | s | xs IH | items IH] using json_ind';
    intros limit level rest fuel Hf Hw Hlen Hrest;
    try discriminate Hf;
    (destruct fuel as [|fuel];
     [pose proof (iterencode_length _ level Hf); lia|]).
  - reflexivity.
  - destruct b; reflexivity.
  - now apply scan_once_int.
  - change (ie (JStr s) level) with (encode_basestring_ascii (of_string s)).
    destruct (scanstring_encoded s rest) as (t & -> & Ht).
    cbn [scan_once]. rewrite Ascii.eqb_refl. now rewrite Ht.
  - destruct limit as [|limit]; [discriminate Hw|].
    destruct xs as [|x xs]; [reflexivity|].
    rewrite (text_list indent (x :: xs) level) in Hlen |- * by discriminate.
    rewrite !app_assoc_string, app_cons, app_empty.
    cbn [scan_once Ascii.eqb Bool.eqb]. cbv iota. unfold JSONArray.
    cbn [codec.of_json written.writable map forallb] in Hw.
    cbn [codec.float_free forallb] in Hf.
    apply andb_true_iff in Hw as [Hwx Hwxs].
    apply andb_true_iff in Hf as [Hfx Hfxs].
    cbn [map].
    destruct (skip_ws_to_value (S level) x (S level) (sep (S level))
                (map (fun x => ie x (S level)) xs)
                (nl level +:+ "]" +:+ rest) Hfx) as (c & t & -> & -> & ->).
    change (ie x (S level) :: map (fun x => ie x (S level)) xs)
      with (map (fun x => ie x (S level)) (x :: xs)) in *.
    rewrite !length_app in Hlen.
    change (String.length "[") with 1%nat in Hlen.
    change (String.length "]") with 1%nat in Hlen.
    apply array_loop_ok; [discriminate | |].
    + pose proof (length_concat_count (sep (S level))
                    (map (fun x => ie x (S level)) (x :: xs))) as Hc.
      rewrite length_map in Hc.
      assert (length (x :: xs)
              <= String.length
                   (String.concat (sep (S level))
                      (map (fun x => ie x (S level)) (x :: xs))))%nat; [|lia].
      apply Hc. intros y Hy. apply in_map_iff in Hy as (y0 & <- & Hy0).
      apply iterencode_length.
      destruct Hy0 as [<-|Hy0]; [assumption|].
      rewrite forallb_forall in Hfxs. now apply Hfxs.
    + apply List.Forall_forall. intros y Hy.
      assert (Hwy : written.writable limit (codec.of_json y) = true).
      { destruct Hy as [<-|Hy]; [assumption|].
        rewrite forallb_forall in Hwxs. apply Hwxs. now apply in_map. }
      assert (Hfy : codec.float_free y = true).
      { destruct Hy as [<-|Hy]; [assumption|].
        rewrite forallb_forall in Hfxs. now apply Hfxs. }
      split; [exact Hfy|]. intros t0 Ht0.
      rewrite List.Forall_forall in IH. apply IH; try assumption.
      pose proof (length_concat_elem (sep (S level))
                    (map (fun x => ie x (S level)) (x :: xs))
                    (ie y (S level))
                    (in_map (fun x => ie x (S level)) _ _ Hy)).
      lia.
  - destruct limit as [|limit]; [discriminate Hw|].
    destruct items as [|kv0 items0]; [reflexivity|].
    remember (kv0 :: items0) as items eqn:Hitems.
    assert (Hne : items <> []) by (subst; discriminate).
    rewrite (text_dict indent items level) in Hlen |- * by assumption.
    pose proof (sorted_items_Permutation items) as Hperm.
    cbn [codec.of_json] in Hw.
    apply writable_dict in Hw as (_ & Hnd' & Hws').
    assert (Hnd : NoDup (map fst items)).
    { rewrite map_map in Hnd'. cbn [fst] in Hnd'.
      rewrite <- (map_map fst (fun k => KStr (of_string k))) in Hnd'.
      exact (NoDup_fmap_1 _ _ Hnd'). }
    assert (Hws : forall kv, In kv items ->
                    written.writable limit (codec.of_json (snd kv)) = true).
    { intros kv Hkv. rewrite List.Forall_forall in Hws'.
      exact (Hws' _ (in_map
                       (fun kv => (KStr (of_string (fst kv)),
                                   codec.of_json (snd kv))) _ _ Hkv)). }
    assert (Hfs : forall kv, In kv items -> codec.float_free (snd kv) = true).
    { rewrite Hitems in *. cbn [codec.float_free] in Hf.
      rewrite forallb_forall in Hf.
      intros [k v] Hkv. exact (Hf _ Hkv). }
    clear Hnd' Hws' Hf Hitems kv0 items0.
    destruct (json_order.sorted_items items) as [|kv1 sitems] eqn:Hsorted.
    { apply Permutation_nil in Hperm. congruence. }
    rewrite !app_assoc_string, app_cons, app_empty.
    cbn [scan_once Ascii.eqb Bool.eqb]. cbv iota. unfold JSONObject.
    rewrite skip_ws_nl.
    destruct (concat_cons_app (sep (S level))
                (codec.item_text indent (S level) kv1)
                (map (codec.item_text indent (S level)) sitems)
                (nl level +:+ "}" +:+ rest)) as (R' & HR).
    change (codec.item_text indent (S level) kv1
              :: map (codec.item_text indent (S level)) sitems)
      with (map (codec.item_text indent (S level)) (kv1 :: sitems)) in HR.
    pose proof HR as HR'. rewrite item_text_starts in HR'.
    rewrite HR'. rewrite skip_ws_start by reflexivity.
    cbn [Ascii.eqb Bool.eqb]. cbv iota.
    rewrite !length_app in Hlen.
    change (String.length "{") with 1%nat in Hlen.
    change (String.length "}") with 1%nat in Hlen.
    assert (Hin : forall kv, In kv (kv1 :: sitems) -> In kv items)
      by (intros kv; apply Permutation_in; exact Hperm).
    erewrite object_loop_ok with (items := kv1 :: sitems) (level := level);
      [|discriminate | | | symmetry; exact HR'].
    + f_equal. f_equal. rewrite app_nil_l. rewrite update_nil.
      * cbn [codec.sorted]. f_equal.
        transitivity (json_order.sorted_items
                        (map (fun kv => (fst kv, codec.sorted (snd kv))) items)).
        -- now rewrite sorted_items_map, Hsorted.
        -- f_equal. apply map_ext. now intros [k v].
      * unfold Dict.wf, Dict.keys. rewrite map_map. cbn [fst].
        assert (Hp : map fst (kv1 :: sitems) ≡ₚ map fst items)
          by now apply Permutation_map.
        rewrite Hp. exact Hnd.
    + pose proof (length_concat_count (sep (S level))
                    (map (codec.item_text indent (S level)) (kv1 :: sitems)))
        as Hc.
      rewrite length_map in Hc.
      assert (length (kv1 :: sitems)
              <= String.length
                   (String.concat (sep (S level))
                      (map (codec.item_text indent (S level))
                         (kv1 :: sitems))))%nat; [|lia].
      apply Hc. intros y Hy. apply in_map_iff in Hy as (kv & <- & _).
      rewrite <- (app_empty_r (codec.item_text indent (S level) kv)).
      rewrite item_text_starts. simpl. lia.
    + apply List.Forall_forall. intros kv Hkv. apply Hin in Hkv as Hkv'.
      assert (Hwy : written.writable limit (codec.of_json (snd kv)) = true)
        by now apply Hws.
      assert (Hfy : codec.float_free (snd kv) = true) by now apply Hfs.
      split; [exact Hfy|]. intros t0 Ht0.
      rewrite List.Forall_forall in IH. apply (IH kv Hkv'); try assumption.
      pose proof (length_concat_elem (sep (S level))
                    (map (codec.item_text indent (S level)) (kv1 :: sitems))
                    (codec.item_text indent (S level) kv)
                    (in_map (codec.item_text indent (S level)) _ _ Hkv)).
      assert (String.length (ie (snd kv) (S level))
              <= String.length (codec.item_text indent (S level) kv))%nat.
      { unfold codec.item_text. rewrite !length_app. lia. }
      lia.
Qed.
End DecoderStructure.

(** What is written with [json.dumps], sorted and indented, is read back
    with [json.loads]: the reader needs no more nesting than the writer. *)
Lemma loads_text float_repr limit v indent :
  codec.round_trips limit v = true ->
  json_decoder.loads float_repr limit (codec.text indent v 0)
  = json_decoder.Decoded (codec.sorted v).
Proof.
  unfold codec.round_trips. intros H.
  apply andb_true_iff in H as [Hf Hw]. unfold json_decoder.loads.
  destruct (iterencode_starts indent v 0 Hf) as (c & t & Hstart & Hws & _).
  rewrite Hstart at 2. rewrite (skip_ws_start c t) by assumption.
  rewrite <- Hstart.
  rewrite <- (app_empty_r (codec.text indent v 0)) at 2.
  rewrite scan_once_iterencode by (try assumption; try reflexivity; lia).
  reflexivity.
Qed.
